(** * llm-rag-docker: document pipeline, chunking and OCR adapter

    A shallow embedding of the document-to-text pipeline of the repository
    (app/components/document_processor.py, app/utils/ocr_processor.py and
    the batch driver of app/app.py) together with the properties its
    specification states about it.

    Conventions.
    - A Python [str] holding document text is a list of Unicode code points
      ([text]); identifiers, dictionary keys and messages are [string].
    - [bytes] are [list Byte.byte].
    - Python [int] is [Z]; a [float] value is the rational it stands for
      ([Q]), so that comparisons are exact. The arithmetic on the angles of
      the deskew step is NumPy's, an interface like the other libraries
      (its rounding depends on the types NumPy promotes to); the mean of
      the confidences and the halving in the median are taken exactly.
    - A call that may raise returns a [result]; every exception modelled
      derives from Python's [Exception], which is what the [except Exception]
      clauses of the source catch.
    - Third-party libraries (OpenCV, Tesseract, PIL, PyMuPDF, python-docx,
      Chroma) are interfaces: type classes whose methods may raise. The
      text splitter of langchain, which decides how documents are chunked,
      is the exception: its algorithm is written out (module [Langchain]). *)

From Stdlib Require Import String Ascii Bool Arith ZArith NArith QArith Qabs Lia Lqa List.
From Stdlib.Strings Require Import Byte.
From Stdlib Require Import DecimalString.
From Stdlib Require Reals Qreals.
Import ListNotations.

Local Close Scope Q_scope.
Local Open Scope list_scope.

Set Implicit Arguments.

(* ================================================================== *)
(** * Part I. Definitions                                              *)
(* ================================================================== *)

(** ** Python values, exceptions and control flow *)

Module Py.

(** The exceptions the pipeline raises or catches; each derives from
    [Exception]. [LibraryError] stands for whatever a third-party call
    raises (TesseractError, cv2.error, OSError, ...). *)
Inductive exn : Type :=
| ValueError (msg : string)
| UnicodeDecodeError
| IndexError
| NameError (name : string)
| LibraryError (descr : string).

(** [str(e)] *)
Definition str_of_exn (e : exn) : string :=
  match e with
  | ValueError msg => msg
  | UnicodeDecodeError => "codec can't decode bytes"
  | IndexError => "list index out of range"
  | NameError n => ("name '" ++ n ++ "' is not defined")%string
  | LibraryError d => d
  end.

Inductive result (A : Type) : Type :=
| Ok (a : A)
| Raise (e : exn).

Arguments Ok {A} a.
Arguments Raise {A} e.

Definition bind {A B} (c : result A) (k : A -> result B) : result B :=
  match c with
  | Ok a => k a
  | Raise e => Raise e
  end.

(** [try: body  except Exception as e: handler(e)] *)
Definition try_except {A} (body : result A) (handler : exn -> result A) : result A :=
  match body with
  | Ok a => Ok a
  | Raise e => handler e
  end.

Definition raises {A} (c : result A) : Prop := exists e, c = Raise e.
Definition returns {A} (c : result A) : Prop := exists a, c = Ok a.

End Py.

Export Py.

Declare Scope py_scope.
Delimit Scope py_scope with py.
Notation "x <- c ;; k" := (bind c (fun x => k))
  (at level 61, c at next level, right associativity) : py_scope.
Notation "c ;;; k" := (bind c (fun _ => k))
  (at level 61, right associativity) : py_scope.
Local Open Scope py_scope.

(** ** Text: Python [str] as code points *)

Module Text.

Definition text := list N.

(** A literal: every character of the [string] is its Latin-1 code point. *)
Definition str (s : string) : text := map N_of_ascii (list_ascii_of_string s).

Definition len (t : text) : Z := Z.of_nat (length t).

(** [str.isspace] on one character: the code points CPython treats as
    whitespace, which are the ones [str.strip()] removes. *)
Definition isspace (c : N) : bool :=
  ((9 <=? c) && (c <=? 13) || (28 <=? c) && (c <=? 32)
   || (c =? 133) || (c =? 160) || (c =? 5760)
   || (8192 <=? c) && (c <=? 8202)
   || (c =? 8232) || (c =? 8233) || (c =? 8239) || (c =? 8287)
   || (c =? 12288))%N.

Fixpoint lstrip (t : text) : text :=
  match t with
  | [] => []
  | c :: t' => if isspace c then lstrip t' else t
  end.

Definition rstrip (t : text) : text := rev (lstrip (rev t)).

(** [t.strip()] *)
Definition strip (t : text) : text := rstrip (lstrip t).

(** Python truthiness of a string: non-empty. *)
Definition truthy (t : text) : bool :=
  match t with [] => false | _ :: _ => true end.

(** [sep.join(parts)] *)
Fixpoint join (sep : text) (parts : list text) : text :=
  match parts with
  | [] => []
  | [p] => p
  | p :: rest => p ++ sep ++ join sep rest
  end.

(** [t.startswith(p)] *)
Fixpoint starts_with (p t : text) : bool :=
  match p, t with
  | [], _ => true
  | _ :: _, [] => false
  | x :: p', y :: t' => N.eqb x y && starts_with p' t'
  end.

(** [sep in t] *)
Fixpoint contains (sep t : text) : bool :=
  starts_with sep t ||
  match t with
  | [] => false
  | _ :: t' => contains sep t'
  end.

(** [t * n] *)
Fixpoint times (n : nat) (t : text) : text :=
  match n with
  | O => []
  | S k => t ++ times k t
  end.

(** Decimal rendering of a number, as an f-string does. *)
Definition of_nat (n : nat) : text := str (NilEmpty.string_of_uint (Nat.to_uint n)).

End Text.

Export Text.

(** ** Codecs: [bytes.decode('utf-8')] and [bytes.decode('latin-1')] *)

Module Codec.

Definition continuation (b : N) : bool := ((128 <=? b) && (b <=? 191))%N.

(** Strict UTF-8 over byte values: shortest form only, no surrogates,
    nothing above U+10FFFF. [None] is a decoding error. *)
Fixpoint utf8 (bs : list N) : option text :=
  match bs with
  | [] => Some []
  | b0 :: r0 =>
    if (b0 <? 128)%N then option_map (cons b0) (utf8 r0)
    else if ((194 <=? b0) && (b0 <=? 223))%N then
      match r0 with
      | b1 :: r1 =>
        if continuation b1
        then option_map (cons ((b0 - 192) * 64 + (b1 - 128))%N) (utf8 r1)
        else None
      | _ => None
      end
    else if ((224 <=? b0) && (b0 <=? 239))%N then
      match r0 with
      | b1 :: b2 :: r2 =>
        if continuation b1 && continuation b2
           && negb ((b0 =? 224) && (b1 <? 160))%N
           && negb ((b0 =? 237) && (159 <? b1))%N
        then option_map
               (cons ((b0 - 224) * 4096 + (b1 - 128) * 64 + (b2 - 128))%N)
               (utf8 r2)
        else None
      | _ => None
      end
    else if ((240 <=? b0) && (b0 <=? 244))%N then
      match r0 with
      | b1 :: b2 :: b3 :: r3 =>
        if continuation b1 && continuation b2 && continuation b3
           && negb ((b0 =? 240) && (b1 <? 144))%N
           && negb ((b0 =? 244) && (143 <? b1))%N
        then option_map
               (cons ((b0 - 240) * 262144 + (b1 - 128) * 4096
                      + (b2 - 128) * 64 + (b3 - 128))%N)
               (utf8 r3)
        else None
      | _ => None
      end
    else None
  end.

(** [bs.decode('utf-8')]: raises [UnicodeDecodeError] on malformed input. *)
Definition decode_utf8 (bs : list byte) : result text :=
  match utf8 (map Byte.to_N bs) with
  | Some t => Ok t
  | None => Raise UnicodeDecodeError
  end.

(** [bs.decode('latin-1')]: byte [b] is code point [b]. *)
Definition decode_latin1 (bs : list byte) : result text :=
  Ok (map Byte.to_N bs).

End Codec.

(** ** Uploaded files

    Streamlit's [UploadedFile] is an in-memory binary stream with a name:
    [read()] returns the bytes from the current position to the end and
    leaves the position at the end; [seek(0)] rewinds. A name is a
    [string], each character standing for the code point of its number:
    the names covered are those of characters below 256. *)

Module Upload.

Record uploaded_file : Type := {
  name : string;
  getvalue : list byte;
  tell : nat
}.

Definition read (f : uploaded_file) : list byte * uploaded_file :=
  (skipn (tell f) (getvalue f),
   {| name := name f; getvalue := getvalue f;
      tell := Nat.max (tell f) (List.length (getvalue f)) |}).

Definition seek (f : uploaded_file) (pos : nat) : uploaded_file :=
  {| name := name f; getvalue := getvalue f; tell := pos |}.

(** A file as the uploader hands it over: positioned at its start. *)
Definition upload (n : string) (content : list byte) : uploaded_file :=
  {| name := n; getvalue := content; tell := 0 |}.

End Upload.

Export Upload.

(** ** The chunker: [langchain.text_splitter.RecursiveCharacterTextSplitter]

    [DocumentProcessor.process_file] builds the splitter with
    [chunk_size], [chunk_overlap], [length_function=len] and four
    separators (paragraph break, line break, space, empty string) and calls
    [split_text]. The class is imported from the langchain package
    (document_processor.py, line 14); it is not part of the repository. The
    definitions below transcribe the
    library's algorithm ([TextSplitter._join_docs], [_merge_splits],
    [_split_text_with_regex], [RecursiveCharacterTextSplitter._split_text])
    with the arguments [process_file] leaves at their defaults:
    [keep_separator=True], [is_separator_regex=False],
    [strip_whitespace=True]. *)

Module Langchain.

(** [re.split("(" + re.escape(sep) + ")", t)] for a non-empty [sep]: the
    pieces between successive leftmost occurrences of [sep], interleaved
    with the captured separator. [skip] counts the characters of a matched
    separator still to be consumed; [cur] is the current piece, reversed. *)
Fixpoint re_split_captured (sep : text) (skip : nat) (cur : text) (t : text)
  : list text :=
  match t with
  | [] => [rev cur]
  | c :: t' =>
    match skip with
    | S k => re_split_captured sep k cur t'
    | O =>
      if starts_with sep t
      then rev cur :: sep :: re_split_captured sep (List.length sep - 1) [] t'
      else re_split_captured sep 0 (c :: cur) t'
    end
  end.

(** [[l[i] + l[i+1] for i in range(0, len(l), 2)]] *)
Fixpoint concat_pairs (l : list text) : list text :=
  match l with
  | a :: b :: rest => (a ++ b) :: concat_pairs rest
  | _ => []
  end.

(** [_split_text_with_regex(text, separator, keep_separator=True)]. With one
    capture group [re.split] returns an odd number of items, so the
    library's branch for an even count is dead and is left out. *)
Definition _split_text_with_regex (t : text) (separator : text) : list text :=
  let splits :=
    if truthy separator then
      match re_split_captured separator 0 [] t with
      | [] => []
      | first :: rest => first :: concat_pairs rest
      end
    else map (fun c => [c]) t in
  filter truthy splits.

(** [_join_docs(docs, separator)]: [None] when the stripped text is empty. *)
Definition _join_docs (docs : list text) (separator : text) : option text :=
  let t := strip (join separator docs) in
  if truthy t then Some t else None.

Section Splitter.

Variables chunk_size chunk_overlap : Z.

(** The condition of the [while] loop of [_merge_splits]; [n] is
    [len(current_doc)]. *)
Definition keep_popping (separator_len _len total : Z) (n : nat) : bool :=
  (total >? chunk_overlap)%Z
  || ((total + _len + (if (0 <? n)%nat then separator_len else 0) >? chunk_size)%Z
      && (total >? 0)%Z).

(** The [while] loop: drop pieces from the front of [current_doc];
    [current_doc[0]] on an empty list raises [IndexError]. *)
Fixpoint pop_front (separator_len _len total : Z) (current_doc : list text)
  : result (Z * list text) :=
  match current_doc with
  | [] =>
    if keep_popping separator_len _len total 0
    then Raise IndexError
    else Ok (total, [])
  | d0 :: rest =>
    if keep_popping separator_len _len total (List.length current_doc)
    then pop_front separator_len _len
           (total - (len d0
                     + (if (1 <? List.length current_doc)%nat
                        then separator_len else 0)))%Z
           rest
    else Ok (total, current_doc)
  end.

(** Loop state of [_merge_splits]. *)
Record merge_state : Type := {
  docs : list text;
  current_doc : list text;
  total : Z
}.

Definition emit (st : merge_state) (separator : text) : list text :=
  match _join_docs (current_doc st) separator with
  | Some doc => docs st ++ [doc]
  | None => docs st
  end.

(** One iteration of [for d in splits]. *)
Definition merge_step (separator : text) (st : merge_state) (d : text)
  : result merge_state :=
  let separator_len := len separator in
  let _len := len d in
  st' <-
    (if (total st + _len
         + (if (0 <? List.length (current_doc st))%nat then separator_len else 0)
         >? chunk_size)%Z
     then
       if (0 <? List.length (current_doc st))%nat
       then
         p <- pop_front separator_len _len (total st) (current_doc st) ;;
         Ok {| docs := emit st separator; current_doc := snd p; total := fst p |}
       else Ok st
     else Ok st) ;;
  let cur := current_doc st' ++ [d] in
  Ok {| docs := docs st';
        current_doc := cur;
        total := (total st' + _len
                  + (if (1 <? List.length cur)%nat then separator_len else 0))%Z |}.

Fixpoint merge_loop (separator : text) (st : merge_state) (splits : list text)
  : result merge_state :=
  match splits with
  | [] => Ok st
  | d :: rest =>
    st' <- merge_step separator st d ;;
    merge_loop separator st' rest
  end.

(** [_merge_splits(splits, separator)] *)
Definition _merge_splits (splits : list text) (separator : text)
  : result (list text) :=
  st <- merge_loop separator
          {| docs := []; current_doc := []; total := 0 |} splits ;;
  Ok (emit st separator).

(** Loop state of [_split_text]: [final_chunks] and [_good_splits]. *)
Definition flush (final_chunks _good_splits : list text) : result (list text) :=
  match _good_splits with
  | [] => Ok final_chunks
  | _ :: _ =>
    merged <- _merge_splits _good_splits [] ;;
    Ok (final_chunks ++ merged)
  end.

(** The [for s in splits] loop of [_split_text]. [recurse] is
    [self._split_text(_, new_separators)] when [new_separators] is
    non-empty, [None] otherwise. *)
Fixpoint split_loop (recurse : option (text -> result (list text)))
         (final_chunks _good_splits : list text) (splits : list text)
  : result (list text) :=
  match splits with
  | [] => flush final_chunks _good_splits
  | s :: rest =>
    if (len s <? chunk_size)%Z
    then split_loop recurse final_chunks (_good_splits ++ [s]) rest
    else
      final_chunks <- flush final_chunks _good_splits ;;
      other <- match recurse with
               | None => Ok [s]
               | Some f => f s
               end ;;
      split_loop recurse (final_chunks ++ other) [] rest
  end.

(** [_split_text(text, separators)]. The library first scans [separators]
    for the first one that is empty or occurs in the text (defaulting to the
    last one, with nothing left to recurse on), then splits and recurses on
    the separators after the one chosen. The scan and the recursion are
    fused here so that the definition is structural in [separators]: moving
    on to the next separator with the same text is the same scan, and the
    default is only reached at the last separator. *)
Fixpoint _split_text (separators : list text) (t : text) {struct separators}
  : result (list text) :=
  match separators with
  | [] => Raise IndexError
  | s :: rest =>
    if negb (truthy s) then
      split_loop None [] [] (_split_text_with_regex t s)
    else if contains s t then
      split_loop (match rest with
                  | [] => None
                  | _ :: _ => Some (_split_text rest)
                  end)
                 [] [] (_split_text_with_regex t s)
    else
      match rest with
      | [] => split_loop None [] [] (_split_text_with_regex t s)
      | _ :: _ => _split_text rest t
      end
  end.

End Splitter.

(** [str(n)] for an integer. *)
Definition decimal (n : Z) : string := NilZero.string_of_int (Z.to_int n).

(** The separators [process_file] passes: paragraph break, line break,
    space, empty string. *)
Definition separators : list text := [ [10; 10]; [10]; [32]; [] ]%N.

(** [RecursiveCharacterTextSplitter(chunk_size=.., chunk_overlap=..,
    length_function=len, separators=..).split_text(text)]; the constructor
    rejects an overlap larger than the chunk size. *)
Definition split_text (chunk_size chunk_overlap : Z) (t : text)
  : result (list text) :=
  if (chunk_overlap >? chunk_size)%Z
  then Raise (ValueError
                ("Got a larger chunk overlap (" ++ decimal chunk_overlap
                 ++ ") than chunk size (" ++ decimal chunk_size
                 ++ "), should be smaller.")%string)
  else _split_text chunk_size chunk_overlap separators t.

End Langchain.

(** ** Third-party libraries as interfaces *)

Module Lib.

Inductive color_code : Type := COLOR_RGB2GRAY | COLOR_BGR2GRAY | COLOR_RGB2BGR.

Inductive kernel : Type :=
| MORPH_RECT (w h : Z)        (* cv2.getStructuringElement(cv2.MORPH_RECT, (w, h)) *)
| MORPH_ELLIPSE (w h : Z)     (* cv2.getStructuringElement(cv2.MORPH_ELLIPSE, (w, h)) *)
| np_ones (w h : Z).          (* np.ones((w, h), np.uint8) *)

Inductive interpolation : Type := INTER_CUBIC.
Inductive border_mode : Type := BORDER_CONSTANT | BORDER_REPLICATE.

(** [cv2.getRotationMatrix2D(center, angle, scale)] *)
Record rotation_matrix : Type := getRotationMatrix2D {
  center : Z * Z;
  angle : Q;
  scale : Q
}.

(** The OpenCV calls of the source that map one array to one array, with
    the arguments the source passes. *)
Inductive cv_op : Type :=
| cvtColor (code : color_code)
| medianBlur (ksize : Z)
| threshold_binary_otsu                 (* cv2.threshold(a, 0, 255, BINARY + OTSU)[1] *)
| morphologyEx_close (k : kernel)
| CLAHE_apply (clipLimit : Q) (tileGridSize : Z * Z)
| adaptiveThreshold_gaussian_binary (blockSize C : Z)
| filter2D (k : list (list Z))
| resize (fx fy : Z) (flags : interpolation)
| fastNlMeansDenoising (h templateWindowSize searchWindowSize : Z)
| bilateralFilter (d sigmaColor sigmaSpace : Z)
| Canny (threshold1 threshold2 apertureSize : Z)
| warpAffine (M : rotation_matrix) (dsize : Z * Z)
             (flags : interpolation) (borderMode : border_mode)
| dilate (k : kernel)
| normalize_minmax (alpha beta : Z)
| ndarray_copy.                          (* a.copy() *)

(** One entry of [data['conf']] as [pytesseract.image_to_data] returns it:
    a number, or a cell on which [int()] raises [ValueError]. *)
Inductive conf_cell : Type :=
| Conf (c : Z)
| NotANumber (raw : string).

(** [int(conf)]; the message shows the literal between single quotes,
    as its [repr]. *)
Definition int_of_conf (c : conf_cell) : result Z :=
  match c with
  | Conf z => Ok z
  | NotANumber raw =>
    Raise (ValueError ("invalid literal for int() with base 10: '"
                       ++ raw ++ "'")%string)
  end.

(** The columns of the dictionary of [pytesseract.image_to_data] the source
    reads. *)
Record tess_data : Type := {
  data_conf : list conf_cell;
  data_text : list text
}.

(** A PDF page as PyMuPDF exposes it: its text layer and its rendering at
    2x as PNG bytes. *)
Record pdf_page : Type := {
  get_text : text;
  get_pixmap_png : result (list byte)
}.

(** A DOCX document as python-docx exposes it: paragraphs, and tables as
    rows of cells. *)
Record docx_document : Type := {
  paragraphs : list text;
  tables : list (list (list text))
}.

Class Libs : Type := {
  image : Type;                       (* PIL.Image.Image *)
  ndarray : Type;                     (* numpy.ndarray *)
  Image_open : list byte -> result image;
  Image_fromarray : ndarray -> result image;
  np_array : image -> result ndarray;
  shape : ndarray -> list Z;
  cv2 : cv_op -> ndarray -> result ndarray;
  cv2_absdiff : ndarray -> ndarray -> result ndarray;
  np_rsub : Z -> ndarray -> result ndarray;        (* k - a *)
  np_multiply : Q -> Q -> Q;          (* a * b on NumPy scalars, rounded *)
  np_true_divide : Q -> Q -> Q;       (* a / b on NumPy scalars, rounded *)
  np_subtract : Q -> Q -> Q;          (* a - b on NumPy scalars, rounded *)
  cv2_HoughLines : ndarray -> result (option (list (Q * Q)));
  image_to_string : image -> string -> result text;
  image_to_data : image -> string -> string -> result tess_data;
  fitz_open : list byte -> result (list pdf_page);
  docx_Document : list byte -> result docx_document
}.

End Lib.

Export Lib.

(** ** app/components/document_processor.py *)

Module DocumentProcessor.

(** [langchain.schema.Document] with the metadata [process_file] attaches. *)
Record Document : Type := {
  page_content : text;
  filename : string;
  file_type : string;
  chunk_id : nat;
  total_chunks : nat;
  ocr_enabled : bool
}.

(** [str.lower] on one character of a name. The characters of a [string]
    are the code points below 256; of these [str.lower] changes the
    capitals of ASCII (65 to 90) and of Latin-1 (192 to 222 but for the
    multiplication sign 215), each to the code point 32 above it. *)
Definition lower_char (a : ascii) : ascii :=
  let n := nat_of_ascii a in
  if ((65 <=? n) && (n <=? 90)
      || (192 <=? n) && (n <=? 222) && negb (n =? 215))%nat
  then ascii_of_nat (n + 32)
  else a.

(** [s.split('.')[-1]]: what follows the last dot, or all of [s]. *)
Fixpoint last_segment (cur : string) (s : string) : string :=
  match s with
  | EmptyString => cur
  | String c s' =>
    if Ascii.eqb c "."%char then last_segment EmptyString s'
    else last_segment (cur ++ String c EmptyString)%string s'
  end.

Fixpoint lower (s : string) : string :=
  match s with
  | EmptyString => EmptyString
  | String c s' => String (lower_char c) (lower s')
  end.

(** [uploaded_file.name.split('.')[-1].lower()] *)
Definition file_extension (f : uploaded_file) : string :=
  lower (last_segment EmptyString (name f)).

Definition ocr_config : string :=
  "--oem 3 --psm 6 -c tessedit_char_whitelist=ABCDEFGHIJKLMNOPQRSTUVWXYZabcdefghijklmnopqrstuvwxyz0123456789 .,!?;:()".

Section WithLibs.

Context {L : Libs}.

(** [_preprocess_image] *)
Definition _preprocess_image (img_array : ndarray) : result ndarray :=
  img_array <- cv2 (medianBlur 5) img_array ;;
  img_array <- cv2 threshold_binary_otsu img_array ;;
  cv2 (morphologyEx_close (MORPH_RECT 3 3)) img_array.

(** The body of the [try] of [_ocr_image]. *)
Definition ocr_steps (im : image) : result text :=
  img_array <- np_array im ;;
  img_array <- (if (List.length (shape img_array) =? 3)%nat
                then cv2 (cvtColor COLOR_RGB2GRAY) img_array
                else Ok img_array) ;;
  img_array <- _preprocess_image img_array ;;
  pil <- Image_fromarray img_array ;;
  t <- image_to_string pil ocr_config ;;
  Ok (strip t).

(** [_ocr_image]: the handler of [except Exception] logs and returns the
    empty string. *)
Definition _ocr_image (im : image) : result text :=
  try_except (ocr_steps im) (fun _ => Ok []).

(** [_process_image] *)
Definition _process_image (f : uploaded_file) (ocr_enabled : bool) : result text :=
  if negb ocr_enabled then Ok []
  else
    im <- Image_open (fst (read f)) ;;
    _ocr_image im.

(** [_process_txt]: only [UnicodeDecodeError] is caught. *)
Definition _process_txt (f : uploaded_file) (ocr_enabled : bool) : result text :=
  let (bs, f1) := read f in
  match Codec.decode_utf8 bs with
  | Ok content => Ok content
  | Raise UnicodeDecodeError =>
    let f2 := seek f1 0 in
    Codec.decode_latin1 (fst (read f2))
  | Raise e => Raise e
  end.

(** The page loop of [_process_pdf]; [page_num] counts from 0. *)
Fixpoint pdf_pages (ocr_enabled : bool) (page_num : nat) (pages : list pdf_page)
  : result (list text) :=
  match pages with
  | [] => Ok []
  | page :: rest =>
    let t := get_text page in
    t <- (if negb (truthy (strip t)) && ocr_enabled
          then
            img_data <- get_pixmap_png page ;;
            im <- Image_open img_data ;;
            _ocr_image im
          else Ok t) ;;
    more <- pdf_pages ocr_enabled (S page_num) rest ;;
    Ok (if truthy (strip t)
        then (str "Page " ++ of_nat (page_num + 1) ++ str ":" ++ [10%N] ++ t) :: more
        else more)
  end.

(** [_process_pdf] *)
Definition _process_pdf (f : uploaded_file) (ocr_enabled : bool) : result text :=
  doc <- fitz_open (fst (read f)) ;;
  text_content <- pdf_pages ocr_enabled 0 doc ;;
  Ok (join [10; 10]%N text_content).

(** One table row of [_process_docx]: the stripped non-blank cells. *)
Definition row_text (cells : list text) : list text :=
  map strip (filter (fun c => truthy (strip c)) cells).

(** [_process_docx] *)
Definition _process_docx (f : uploaded_file) (ocr_enabled : bool) : result text :=
  doc <- docx_Document (fst (read f)) ;;
  let paras := filter (fun p => truthy (strip p)) (paragraphs doc) in
  let rows :=
    flat_map (fun table =>
      flat_map (fun row =>
        match row_text row with
        | [] => []
        | cells => [join (str " | ") cells]
        end) table) (tables doc) in
  Ok (join [10; 10]%N (paras ++ rows)).

(** [self.supported_formats]: extension to handler. *)
Definition supported_formats (ext : string)
  : option (uploaded_file -> bool -> result text) :=
  if String.eqb ext "pdf" then Some _process_pdf
  else if String.eqb ext "txt" then Some _process_txt
  else if String.eqb ext "docx" then Some _process_docx
  else if String.eqb ext "png" then Some _process_image
  else if String.eqb ext "jpg" then Some _process_image
  else if String.eqb ext "jpeg" then Some _process_image
  else None.

(** [[Document(...) for i, chunk in enumerate(chunks)]] *)
Fixpoint make_documents (f : uploaded_file) (ext : string) (ocr : bool)
         (n : nat) (i : nat) (chunks : list text) : list Document :=
  match chunks with
  | [] => []
  | chunk :: rest =>
    {| page_content := chunk; filename := name f; file_type := ext;
       chunk_id := i; total_chunks := n; ocr_enabled := ocr |}
    :: make_documents f ext ocr n (S i) rest
  end.

Definition no_content : exn := ValueError "No text content extracted from file".

(** [process_file]: the [except Exception] handler logs and re-raises. *)
Definition process_file (f : uploaded_file) (ocr_enabled : bool)
           (chunk_size chunk_overlap : Z) : result (list Document) :=
  let ext := file_extension f in
  match supported_formats ext with
  | None => Raise (ValueError ("Unsupported file format: " ++ ext)%string)
  | Some processor =>
    try_except
      (text_content <- processor f ocr_enabled ;;
       if negb (truthy (strip text_content)) then Raise no_content
       else
         chunks <- Langchain.split_text chunk_size chunk_overlap text_content ;;
         Ok (make_documents f ext ocr_enabled (List.length chunks) 0 chunks))
      (fun e => Raise e)
  end.

End WithLibs.

End DocumentProcessor.

(** ** app/app.py: the batch driver [RAGSystemApp.process_documents] *)

Module App.

Import DocumentProcessor.

(** What the driver shows on the page, in order. *)
Inductive ui_event : Type :=
| status_text (msg : string)            (* status_text.text(msg) *)
| progress (fraction : Q)               (* progress_bar.progress(fraction) *)
| st_success (files chunks : nat)       (* st.success(...) *)
| st_error (msg : string).              (* st.error(msg) *)

(** [VectorStoreManager.create_vectorstore]: the embedding/index service. *)
Class VectorStore : Type := {
  Chroma : Type;
  create_vectorstore : list Document -> result Chroma
}.

Section WithLibs.

Context {L : Libs} {V : VectorStore}.

(** The part of [st.session_state] the driver writes, and the page. *)
Record session : Type := {
  vectorstore : option Chroma;
  processed_docs : list string;
  page : list ui_event
}.

(** The [for i, file in enumerate(uploaded_files)] loop. An exception
    leaves the loop; what was shown before it stays shown. [n] is
    [len(uploaded_files)]. *)
Fixpoint process_each (ocr_enabled : bool) (chunk_size chunk_overlap : Z)
         (n i : nat) (files : list uploaded_file)
         (all_documents : list Document) (shown : list ui_event)
  : list ui_event * result (list Document) :=
  match files with
  | [] => (shown, Ok all_documents)
  | file :: rest =>
    let shown :=
      shown ++ [status_text ("Processing " ++ name file ++ "...")%string] in
    match process_file file ocr_enabled chunk_size chunk_overlap with
    | Raise e => (shown, Raise e)
    | Ok documents =>
      process_each ocr_enabled chunk_size chunk_overlap n (S i) rest
        (all_documents ++ documents)
        (shown ++ [progress (Z.of_nat (S i) # Pos.of_nat n)])
    end
  end.

(** [process_documents]: one [try] around the whole batch; its handler
    reports the error. ([time.sleep] and [st.rerun] after the success
    message are not modelled, and the pictograms of the messages are left
    out.) *)
Definition process_documents (s : session) (uploaded_files : list uploaded_file)
           (ocr_enabled : bool) (chunk_size chunk_overlap : Z) : session :=
  let n := List.length uploaded_files in
  let (shown, r) :=
    process_each ocr_enabled chunk_size chunk_overlap n 0 uploaded_files []
      (page s ++ [progress 0]) in
  match r with
  | Raise e =>
    {| vectorstore := vectorstore s;
       processed_docs := processed_docs s;
       page := shown ++ [st_error ("Error processing documents: " ++ str_of_exn e)%string] |}
  | Ok all_documents =>
    let shown := shown ++ [status_text "Creating vector database..."] in
    match create_vectorstore all_documents with
    | Raise e =>
      {| vectorstore := vectorstore s;
         processed_docs := processed_docs s;
         page := shown ++ [st_error ("Error processing documents: " ++ str_of_exn e)%string] |}
    | Ok vs =>
      {| vectorstore := Some vs;
         processed_docs := processed_docs s ++ map name uploaded_files;
         page := shown ++ [progress 1; status_text "Processing complete!";
                           st_success n (List.length all_documents)] |}
    end
  end.

End WithLibs.

End App.

(** ** app/utils/ocr_processor.py *)

Module OCRProcessor.

(** Rational helpers for the float computations. *)
Definition Qltb (a b : Q) : bool := negb (Qle_bool b a).

(** [np.pi], the double nearest to pi, as an exact rational. *)
Definition np_pi : Q := 884279719003555 # 281474976710656.

Fixpoint insert_sorted (x : Q) (l : list Q) : list Q :=
  match l with
  | [] => [x]
  | y :: l' => if Qle_bool x y then x :: l else y :: insert_sorted x l'
  end.

Definition sorted (l : list Q) : list Q := fold_right insert_sorted [] l.

(** [np.median]: the middle of the sorted values, or the mean of the two
    middle ones. *)
Definition median (l : list Q) : Q :=
  let s := sorted l in
  let n := List.length s in
  if Nat.even n
  then ((nth (n / 2 - 1) s 0 + nth (n / 2) s 0) / 2)%Q
  else nth (n / 2) s 0%Q.

(** [np.mean] of integers. *)
Definition mean (l : list Z) : Q :=
  (inject_Z (fold_right Z.add 0%Z l) / inject_Z (Z.of_nat (List.length l)))%Q.

(** [theta * 180 / np.pi - 90] for a line [(rho, theta)] of [HoughLines]:
    [theta] is a NumPy scalar, so each operation is NumPy's and its result
    is rounded to the type NumPy promotes to. *)
Definition line_angle {L : Libs} (line : Q * Q) : Q :=
  np_subtract (np_true_divide (np_multiply (snd line) 180) np_pi) 90.

(** The angles [_deskew_image] keeps: [abs(angle) < 45]. *)
Definition accepted_angles {L : Libs} (lines : list (Q * Q)) : list Q :=
  filter (fun a => Qltb (Qabs a) 45) (map line_angle lines).

(** [self.ocr_configs.get(config_type, self.ocr_configs['default'])] *)
Definition ocr_configs (config_type : string) : string :=
  if String.eqb config_type "single_column" then "--oem 3 --psm 4"
  else if String.eqb config_type "single_line" then "--oem 3 --psm 7"
  else if String.eqb config_type "single_word" then "--oem 3 --psm 8"
  else if String.eqb config_type "sparse" then "--oem 3 --psm 11"
  else "--oem 3 --psm 6".

(** [self.languages.get(language, 'eng')] *)
Definition languages (language : string) : string :=
  if String.eqb language "english" then "eng"
  else if String.eqb language "spanish" then "spa"
  else if String.eqb language "french" then "fra"
  else if String.eqb language "german" then "deu"
  else if String.eqb language "chinese" then "chi_sim"
  else if String.eqb language "arabic" then "ara"
  else "eng".

(** The dictionary [extract_text] returns: ['text'] and ['confidence'] are
    always present, the other keys only on one of the two paths. *)
Record ocr_result : Type := {
  result_text : text;
  confidence : Q;
  word_confidences : option (list Z);
  preprocessing_used : option string;
  config_used : option string;
  language_used : option string;
  error : option string
}.

(** The loop over [enumerate(data['conf'])]: [int(conf)] may raise, and so
    may [data['text'][i]]. *)
Fixpoint filter_tokens (confidence_threshold : Q) (texts : list text) (i : nat)
         (confs : list conf_cell) (text_parts : list text) (confidences : list Z)
  : result (list text * list Z) :=
  match confs with
  | [] => Ok (text_parts, confidences)
  | conf :: rest =>
    c <- int_of_conf conf ;;
    if Qltb confidence_threshold (inject_Z c) then
      match nth_error texts i with
      | None => Raise IndexError
      | Some t =>
        let t := strip t in
        if truthy t
        then filter_tokens confidence_threshold texts (S i) rest
               (text_parts ++ [t]) (confidences ++ [c])
        else filter_tokens confidence_threshold texts (S i) rest
               text_parts confidences
      end
    else filter_tokens confidence_threshold texts (S i) rest
           text_parts confidences
  end.

Section WithLibs.

Context {L : Libs}.

(** [_deskew_image] *)
Definition _deskew_image (im : ndarray) : result ndarray :=
  edges <- cv2 (Canny 50 150 3) im ;;
  lines <- cv2_HoughLines edges ;;
  match lines with
  | None => Ok im
  | Some lines =>
    match accepted_angles lines with
    | [] => Ok im
    | angles =>
      let avg_angle := median angles in
      match shape im with
      | [h; w] =>
        cv2 (warpAffine (getRotationMatrix2D ((w / 2)%Z, (h / 2)%Z) avg_angle 1)
                        (w, h) INTER_CUBIC BORDER_REPLICATE) im
      | _ => Raise (ValueError "not enough values to unpack")
      end
    end
  end.

(** [_correct_perspective]: a pass-through. *)
Definition _correct_perspective (im : ndarray) : result ndarray := Ok im.

(** [_remove_shadows] *)
Definition _remove_shadows (im : ndarray) : result ndarray :=
  dilated_img <- cv2 (dilate (np_ones 7 7)) im ;;
  bg_img <- cv2 (medianBlur 21) dilated_img ;;
  d <- cv2_absdiff im bg_img ;;
  diff_img <- np_rsub 255 d ;;
  cv2 (normalize_minmax 0 255) diff_img.

Definition _preprocess_default (im : ndarray) : result ndarray :=
  denoised <- cv2 (medianBlur 3) im ;;
  enhanced <- cv2 (CLAHE_apply 2 (8, 8)%Z) denoised ;;
  cv2 threshold_binary_otsu enhanced.

Definition _preprocess_scanned_document (im : ndarray) : result ndarray :=
  deskewed <- _deskew_image im ;;
  cleaned <- cv2 (morphologyEx_close (np_ones 1 1)) deskewed ;;
  cleaned <- cv2 (medianBlur 3) cleaned ;;
  cv2 (adaptiveThreshold_gaussian_binary 11 2) cleaned.

Definition _preprocess_photo_document (im : ndarray) : result ndarray :=
  corrected <- _correct_perspective im ;;
  shadow_free <- _remove_shadows corrected ;;
  enhanced <- cv2 (CLAHE_apply 3 (8, 8)%Z) shadow_free ;;
  sharpened <- cv2 (filter2D [[-1; -1; -1]; [-1; 9; -1]; [-1; -1; -1]]%Z) enhanced ;;
  cv2 threshold_binary_otsu sharpened.

Definition _preprocess_low_quality (im : ndarray) : result ndarray :=
  upscaled <- cv2 (resize 2 2 INTER_CUBIC) im ;;
  denoised <- cv2 (fastNlMeansDenoising 10 7 21) upscaled ;;
  sharpened <- cv2 (filter2D [[0; -1; 0]; [-1; 5; -1]; [0; -1; 0]]%Z) denoised ;;
  enhanced <- cv2 (CLAHE_apply 4 (8, 8)%Z) sharpened ;;
  cv2 threshold_binary_otsu enhanced.

Definition _preprocess_handwritten (im : ndarray) : result ndarray :=
  denoised <- cv2 (bilateralFilter 9 75 75) im ;;
  morphed <- cv2 (morphologyEx_close (MORPH_ELLIPSE 2 2)) denoised ;;
  cv2 (adaptiveThreshold_gaussian_binary 15 10) morphed.

(** The body of the [try] of [preprocess_image]. *)
Definition preprocess_steps (im : ndarray) (preprocessing_type : string)
  : result ndarray :=
  gray <- (if (List.length (shape im) =? 3)%nat
           then cv2 (cvtColor COLOR_BGR2GRAY) im
           else cv2 ndarray_copy im) ;;
  if String.eqb preprocessing_type "scanned_document"
  then _preprocess_scanned_document gray
  else if String.eqb preprocessing_type "photo_document"
  then _preprocess_photo_document gray
  else if String.eqb preprocessing_type "low_quality"
  then _preprocess_low_quality gray
  else if String.eqb preprocessing_type "handwritten"
  then _preprocess_handwritten gray
  else _preprocess_default gray.

(** [preprocess_image]: the handler logs and returns the argument. *)
Definition preprocess_image (im : ndarray) (preprocessing_type : string)
  : result ndarray :=
  try_except (preprocess_steps im preprocessing_type) (fun _ => Ok im).

(** The recognition pass of [extract_text], up to the dictionary of
    [pytesseract.image_to_data]. *)
Definition recognize (im : image) (config_type language preprocessing : string)
  : result tess_data :=
  img_array <- np_array im ;;
  img_array <- (if (List.length (shape img_array) =? 3)%nat
                then cv2 (cvtColor COLOR_RGB2BGR) img_array
                else Ok img_array) ;;
  processed_img <- preprocess_image img_array preprocessing ;;
  processed_pil <- Image_fromarray processed_img ;;
  image_to_data processed_pil (ocr_configs config_type) (languages language).

(** The body of the [try] of [extract_text]. *)
Definition extract_steps (im : image) (config_type language preprocessing : string)
           (confidence_threshold : Q) : result ocr_result :=
  data <- recognize im config_type language preprocessing ;;
  kept <- filter_tokens confidence_threshold (data_text data) 0
            (data_conf data) [] [] ;;
  let text_parts := fst kept in
  let confidences := snd kept in
  Ok {| result_text := join [32%N] text_parts;
        confidence := match confidences with
                      | [] => 0
                      | _ :: _ => mean confidences
                      end;
        word_confidences := Some confidences;
        preprocessing_used := Some preprocessing;
        config_used := Some config_type;
        language_used := Some language;
        error := None |}.

(** [extract_text]: the handler logs and returns the error dictionary. *)
Definition extract_text (im : image) (config_type language preprocessing : string)
           (confidence_threshold : Q) : result ocr_result :=
  try_except
    (extract_steps im config_type language preprocessing confidence_threshold)
    (fun e => Ok {| result_text := [];
                    confidence := 0;
                    word_confidences := None;
                    preprocessing_used := None;
                    config_used := None;
                    language_used := None;
                    error := Some (str_of_exn e) |}).

End WithLibs.

End OCRProcessor.

(** ** OpenCV's rotation

    What [cv2.getRotationMatrix2D] and [cv2.warpAffine] do with the content
    of an image, after OpenCV's documentation. Coordinates are those of the
    image, [x] to the right and [y] down; it is in these that [HoughLines]
    measures [theta], from the [x] axis towards the [y] axis. *)

Module Geometry.

Import Reals Qreals.

Local Open Scope R_scope.

(** Degrees to radians. *)
Definition radians (degrees : Q) : R := Q2R degrees * PI / 180.

(** The matrix of [cv2.getRotationMatrix2D(center, angle, scale)], the
    angle in degrees:
    [[alpha, beta, (1 - alpha) * cx - beta * cy],
     [-beta, alpha, beta * cx + (1 - alpha) * cy]]
    with [alpha = scale * cos angle] and [beta = scale * sin angle]. *)
Definition alpha (M : rotation_matrix) : R :=
  Q2R (scale M) * cos (radians (angle M)).

Definition beta (M : rotation_matrix) : R :=
  Q2R (scale M) * sin (radians (angle M)).



End Geometry.

(** ** Loading a module

    What running a module body does to names. [import] binds names; an
    assignment reads names and binds one; a [def] statement evaluates the
    annotations of its parameters and of its result when it is executed
    (the files have no [from __future__ import annotations], and the
    interpreters the project runs on evaluate annotations eagerly), not its
    body; a [class] statement runs its body, here a sequence of [def], and
    then binds the class name. A name that is read is looked up in the class
    body, then in the module, then among the builtins; when it is in none,
    [NameError] is raised and the module body stops there. *)

Module PyImport.

Record method : Type := def {
  method_name : string;
  annotation_names : list string    (* names the annotations read, in order *)
}.

Inductive stmt : Type :=
| import_names (binds : list string)
| assign (target : string) (reads : list string)
| class_def (class_name : string) (body : list method).

Definition builtins : list string :=
  ["str"; "int"; "float"; "bool"; "dict"; "list"; "len"; "abs"; "range";
   "enumerate"; "open"; "hasattr"; "Exception"; "ValueError"]%string.

Definition bound (n : string) (scope : list string) : bool :=
  existsb (String.eqb n) scope.

(** Evaluate names in order; the first unbound one raises. *)
Fixpoint read_names (scope : list string) (names : list string) : result unit :=
  match names with
  | [] => Ok tt
  | n :: rest =>
    if bound n scope then read_names scope rest else Raise (NameError n)
  end.

(** Run a class body: [locals] are the methods defined so far. *)
Fixpoint run_class_body (globals locals : list string) (body : list method)
  : result (list string) :=
  match body with
  | [] => Ok locals
  | m :: rest =>
    read_names (locals ++ globals ++ builtins) (annotation_names m) ;;;
    run_class_body globals (method_name m :: locals) rest
  end.

(** Run a module body; returns the names bound when it stopped, and the
    exception that stopped it if any. *)
Fixpoint run_module (globals : list string) (body : list stmt)
  : list string * option exn :=
  match body with
  | [] => (globals, None)
  | s :: rest =>
    match s with
    | import_names binds => run_module (binds ++ globals) rest
    | assign target reads =>
      match read_names (globals ++ builtins) reads with
      | Ok _ => run_module (target :: globals) rest
      | Raise e => (globals, Some e)
      end
    | class_def c body =>
      match run_class_body globals [] body with
      | Ok _ => run_module (c :: globals) rest
      | Raise e => (globals, Some e)
      end
    end
  end.

(** Names every module starts with. *)
Definition module_globals : list string := ["__name__"; "__file__"]%string.

Definition load (body : list stmt) : list string * option exn :=
  run_module module_globals body.

(** [from m import n1, n2, ...] where [m] is a module of the repository. *)
Definition from_import (m : list stmt) (names : list string)
  : result (list string) :=
  match load m with
  | (_, Some e) => Raise e
  | (globals, None) =>
    read_names globals names ;;; Ok names
  end.

(** app/utils/ocr_processor.py, statement by statement. *)
Definition ocr_processor : list stmt :=
  [ import_names ["cv2"];
    import_names ["np"];
    import_names ["pytesseract"];
    import_names ["Image"; "ImageEnhance"; "ImageFilter"];
    import_names ["logging"];
    import_names ["Optional"; "Tuple"; "Dict"; "Any"];
    import_names ["io"];
    assign "logger" ["logging"; "__name__"];
    class_def "OCRProcessor"
      [ def "__init__" [];
        def "preprocess_image" ["np"; "str"; "np"];
        def "_preprocess_default" ["np"; "np"];
        def "_preprocess_scanned_document" ["np"; "np"];
        def "_preprocess_photo_document" ["np"; "np"];
        def "_preprocess_low_quality" ["np"; "np"];
        def "_preprocess_handwritten" ["np"; "np"];
        def "_deskew_image" ["np"; "np"];
        def "_correct_perspective" ["np"; "np"];
        def "_remove_shadows" ["np"; "np"];
        def "extract_text"
            ["Image"; "str"; "str"; "str"; "float"; "Dict"; "str"; "Any"];
        def "detect_language" ["Image"; "str"];
        def "get_text_regions" ["Image"; "List"; "Dict"] ] ]%string.

(** app/utils/file_handler.py, which imports [List]. *)
Definition file_handler : list stmt :=
  [ import_names ["os"];
    import_names ["shutil"];
    import_names ["logging"];
    import_names ["Path"];
    import_names ["List"; "Dict"];
    assign "logger" ["logging"; "__name__"];
    class_def "FileHandler"
      [ def "__init__" ["str"];
        def "save_uploaded_file" ["str"; "str"];
        def "get_uploaded_files" ["List"; "Dict"];
        def "delete_file" ["str"; "bool"];
        def "cleanup_old_files" ["int"] ] ]%string.

(** The two imports of app/utils/__init__.py that precede and reach the OCR
    module. *)
Definition utils_init : result (list string) :=
  a <- from_import file_handler ["FileHandler"]%string ;;
  b <- from_import ocr_processor ["OCRProcessor"]%string ;;
  Ok (a ++ b).

(** An operation of the class can be invoked only where the class name is
    bound. *)
Definition can_invoke (class_name : string) (loaded : list string * option exn)
  : bool :=
  bound class_name (fst loaded).

End PyImport.

(** ** A symbolic instance of the libraries

    Arrays and images are descriptions: what the page shows (its shape, the
    lines a Hough transform finds, what Tesseract reads) and the operations
    applied so far. Every OpenCV call succeeds and is recorded. *)

Module Sym.

Record picture : Type := {
  pic_shape : list Z;
  pic_lines : option (list (Q * Q));
  pic_string : result text;
  pic_data : result tess_data;
  pic_ops : list cv_op
}.

Definition apply_op (op : cv_op) (p : picture) : picture :=
  {| pic_shape := pic_shape p; pic_lines := pic_lines p;
     pic_string := pic_string p; pic_data := pic_data p;
     pic_ops := pic_ops p ++ [op] |}.

(** Every upload opens as [scene]; the OpenCV calls selected by [broken]
    fail; PDF and DOCX parsing is unavailable. *)
Definition libs_with (broken : cv_op -> bool) (scene : picture) : Libs :=
  {| image := picture;
     ndarray := picture;
     Image_open := fun _ => Ok scene;
     Image_fromarray := fun a => Ok a;
     np_array := fun im => Ok im;
     shape := pic_shape;
     cv2 := fun op a =>
              if broken op then Raise (LibraryError "OpenCV assertion failed")
              else Ok (apply_op op a);
     cv2_absdiff := fun a _ => Ok a;
     np_rsub := fun _ a => Ok a;
     np_multiply := Qmult;
     np_true_divide := Qdiv;
     np_subtract := Qminus;
     cv2_HoughLines := fun a => Ok (pic_lines a);
     image_to_string := fun im _ => pic_string im;
     image_to_data := fun im _ _ => pic_data im;
     fitz_open := fun _ => Raise (LibraryError "cannot open document");
     docx_Document := fun _ => Raise (LibraryError "Package not found") |}.

Definition libs (scene : picture) : Libs := libs_with (fun _ => false) scene.

(** Adaptive thresholding fails, everything else works. *)
Definition no_adaptive_threshold (op : cv_op) : bool :=
  match op with
  | adaptiveThreshold_gaussian_binary _ _ => true
  | _ => false
  end.

(** An index that keeps the documents it is given. *)
Definition store : App.VectorStore :=
  {| App.Chroma := list DocumentProcessor.Document;
     App.create_vectorstore := fun docs => Ok docs |}.

(** A blank page. *)
Definition blank : picture :=
  {| pic_shape := [100; 200]%Z; pic_lines := None;
     pic_string := Ok []; pic_data := Ok {| data_conf := []; data_text := [] |};
     pic_ops := [] |}.

(** A page on which the recognition engine fails. *)
Definition unreadable : picture :=
  {| pic_shape := [100; 200]%Z; pic_lines := None;
     pic_string := Raise (LibraryError "tesseract is not installed");
     pic_data := Raise (LibraryError "tesseract is not installed");
     pic_ops := [] |}.


(** A page on which Tesseract reads the given tokens. *)
Definition page_with (tokens : list (Z * string)) : picture :=
  {| pic_shape := [100; 200]%Z; pic_lines := None;
     pic_string := Ok (join [32%N] (map (fun t => str (snd t)) tokens));
     pic_data := Ok {| data_conf := map (fun t => Conf (fst t)) tokens;
                       data_text := map (fun t => str (snd t)) tokens |};
     pic_ops := [] |}.

Definition bytes_of (s : string) : list byte :=
  map byte_of_ascii (list_ascii_of_string s).

End Sym.

(** ** Vocabulary of the specification *)

Module Spec.

Import DocumentProcessor App.

(** The extensions handled by [_process_image]. *)
Definition is_image_extension (ext : string) : bool :=
  String.eqb ext "png" || String.eqb ext "jpg" || String.eqb ext "jpeg".

(** The trailing and the leading [n] characters of a chunk. *)
Definition trailing (n : nat) (t : text) : text := skipn (List.length t - n) t.
Definition leading (n : nat) (t : text) : text := firstn n t.

(** Any two chunks adjacent in the sequence share exactly [n] characters. *)
Definition adjacent_share (n : nat) (chunks : list text) : Prop :=
  forall i a b,
    nth_error chunks i = Some a ->
    nth_error chunks (S i) = Some b ->
    trailing n a = leading n b.

(** The chunking invariant as the specification words it: for every chunk
    size and smaller overlap and every non-empty text, every chunk but the
    last is at most [chunk_size] long and adjacent chunks share exactly
    [chunk_overlap] characters. *)
Definition chunks_overlap_exactly : Prop :=
  forall (chunk_size chunk_overlap : Z) (t : text) (chunks : list text),
    (0 <= chunk_overlap < chunk_size)%Z ->
    t <> [] ->
    Langchain.split_text chunk_size chunk_overlap t = Ok chunks ->
    (forall c, In c (removelast chunks) -> (len c <= chunk_size)%Z)
    /\ adjacent_share (Z.to_nat chunk_overlap) chunks.

(** [t] is what the chunks give back once the duplicated regions are
    removed: each chunk after the first starts with a region [dup] that
    repeats the end of its predecessor and is dropped. *)
Inductive reassembles : list text -> text -> Prop :=
| reassembles_nil : reassembles [] []
| reassembles_one : forall c, reassembles [c] c
| reassembles_cons : forall a b rest dup t,
    trailing (List.length dup) a = dup ->
    reassembles (b :: rest) (dup ++ t) ->
    reassembles (a :: b :: rest) (a ++ t).

(** A text without its whitespace characters. *)
Definition squash (t : text) : text := filter (fun c => negb (isspace c)) t.

(** The chunks give [t] back up to whitespace: what they reassemble to has
    the non-whitespace characters of [t], in the same order. *)
Definition covers (chunks : list text) (t : text) : Prop :=
  exists r, reassembles chunks r /\ squash r = squash t.

(** The round trip as the specification words it: the chunks of a
    processed document give back the extracted text exactly. *)
Definition chunks_reassemble_text : Prop :=
  forall (chunk_size chunk_overlap : Z) (t : text) (chunks : list text),
    (0 <= chunk_overlap < chunk_size)%Z ->
    strip t <> [] ->
    Langchain.split_text chunk_size chunk_overlap t = Ok chunks ->
    reassembles chunks t.

(** What the page shows for the files of a batch that were processed
    without error, [i] files having been processed before them. *)
Fixpoint shown_for (n i : nat) (files : list uploaded_file) : list ui_event :=
  match files with
  | [] => []
  | f :: rest =>
    status_text ("Processing " ++ name f ++ "...")%string
    :: progress (Z.of_nat (S i) # Pos.of_nat n)
    :: shown_for n (S i) rest
  end.

(** The chunks a file contributes: those [process_file] returns, none when
    it raises. *)
Definition chunks_of {L : Libs} (ocr_enabled : bool)
           (chunk_size chunk_overlap : Z) (f : uploaded_file) : list Document :=
  match process_file f ocr_enabled chunk_size chunk_overlap with
  | Ok documents => documents
  | Raise _ => []
  end.

(** The batch property as the specification words it: whatever happens to
    the other files of a batch, a file that can be processed is processed
    and its chunks are ingested (the index service being available). *)
Definition batch_survives_file_errors : Prop :=
  forall (L : Libs) (V : VectorStore) (s : session)
         (files : list uploaded_file) (ocr_enabled : bool)
         (chunk_size chunk_overlap : Z),
    (forall docs, returns (create_vectorstore docs)) ->
    forall f documents,
      In f files ->
      process_file f ocr_enabled chunk_size chunk_overlap = Ok documents ->
      exists all_documents vs,
        incl documents all_documents
        /\ create_vectorstore all_documents = Ok vs
        /\ vectorstore
             (process_documents s files ocr_enabled chunk_size chunk_overlap)
           = Some vs.


(** A recognized token in layout order: its confidence and its text. *)
Definition token : Type := (Z * text)%type.

(** The test [extract_text] applies to a token: confidence above the
    threshold, and text not blank. *)
Definition survives (confidence_threshold : Q) (tok : token) : bool :=
  OCRProcessor.Qltb confidence_threshold (inject_Z (fst tok))
  && truthy (strip (snd tok)).

Definition kept (confidence_threshold : Q) (tokens : list token) : list token :=
  filter (survives confidence_threshold) tokens.

(** The error dictionary of [extract_text]. *)
Definition error_result (e : exn) : OCRProcessor.ocr_result :=
  {| OCRProcessor.result_text := [];
     OCRProcessor.confidence := 0;
     OCRProcessor.word_confidences := None;
     OCRProcessor.preprocessing_used := None;
     OCRProcessor.config_used := None;
     OCRProcessor.language_used := None;
     OCRProcessor.error := Some (str_of_exn e) |}.

End Spec.

(** ** What the chunker's loops maintain *)

Module Invariants.

Import Langchain.

(** Total length of the pieces of a chunk under construction. *)
Fixpoint total_len (pieces : list text) : Z :=
  match pieces with
  | [] => 0
  | p :: rest => len p + total_len rest
  end.

(** A chunk that fits, and a piece short enough to be merged. *)
Definition within (chunk_size : Z) (c : text) : Prop := (len c <= chunk_size)%Z.
Definition small (chunk_size : Z) (c : text) : Prop := (len c < chunk_size)%Z.

(** What [_merge_splits] maintains, the separator being empty: [total] is
    the length of the pieces held, it never exceeds the chunk size, and
    neither does a chunk already emitted. *)
Definition merge_inv (chunk_size : Z) (st : merge_state) : Prop :=
  total st = total_len (current_doc st)
  /\ (total st <= chunk_size)%Z
  /\ Forall (within chunk_size) (docs st).

(** What the loop of [_split_text] needs of the way it handles a piece that
    is not short: either such a piece fits as it is, or the recursion on it
    returns chunks that fit. *)
Definition recursion_fits (chunk_size : Z)
           (recurse : option (text -> result (list text)))
           (splits : list text) : Prop :=
  match recurse with
  | None => Forall (within chunk_size) splits
  | Some f =>
    forall p, exists chunks, f p = Ok chunks /\ Forall (within chunk_size) chunks
  end.

(** What [_merge_splits] maintains of the text, [processed] being the
    pieces taken so far. They are some pieces [base] no longer held, then
    the pieces held: those kept from the chunk emitted last ([kept]) and
    those taken since ([fresh]). The chunks emitted reassemble to [base]
    and [kept] up to whitespace, and the last of them ends with the
    stripped text of [kept], which is what the next chunk starts with. *)
Definition overlap_inv (st : merge_state) (processed : list text) : Prop :=
  exists (base kept fresh : list text) (r : text),
    processed = base ++ kept ++ fresh
    /\ current_doc st = kept ++ fresh
    /\ Spec.reassembles (docs st) r
    /\ Spec.squash r = Spec.squash (concat base ++ concat kept)
    /\ (docs st = []
        \/ exists ds head,
             docs st = ds ++ [head ++ strip (concat kept)]).

End Invariants.

(** ** app/components/document_processor.py: [get_file_info] *)

Module DocumentInfo.

(** The dictionary [get_file_info] returns. *)
Record file_info : Type := {
  info_name : string;
  info_size : nat;
  info_type : string
}.

(** [get_file_info]. An upload has a [read] method, so the size is the
    number of bytes [read()] returns, and reading moves the stream;
    [type_attr] is the [type] attribute of the upload when it has one. *)
Definition get_file_info (f : uploaded_file) (type_attr : option string)
  : file_info * uploaded_file :=
  let (bs, f') := read f in
  ({| info_name := name f;
      info_size := List.length bs;
      info_type := match type_attr with
                   | Some t => t
                   | None => "unknown"
                   end |},
   f').

End DocumentInfo.

(** ** Vocabulary for documents *)

Module Vocabulary.

(** A name segment without a dot. *)
Fixpoint has_no_dot (s : string) : bool :=
  match s with
  | EmptyString => true
  | String c s' => negb (Ascii.eqb c "."%char) && has_no_dot s'
  end.

(** A text with nothing but whitespace. *)
Definition blank (t : text) : Prop := strip t = [].

(** A DOCX document without a non-blank paragraph or table cell. *)
Definition docx_blank (doc : docx_document) : Prop :=
  Forall blank (paragraphs doc)
  /\ Forall (Forall (Forall blank)) (tables doc).

(** A text with something other than whitespace in it. *)
Definition nonblank (t : text) : bool := truthy (strip t).

(** The line a table row gives: its non-blank cells, each stripped, with
    a bar between spaces from one to the next. *)
Definition row_line (row : list text) : text :=
  join (str " | ") (map strip (filter nonblank row)).

(** The parts of the text of a DOCX document, in order: the non-blank
    paragraphs as they are, then, table after table, the line of each row
    that has a non-blank cell. *)
Definition docx_parts (doc : docx_document) : list text :=
  filter nonblank (paragraphs doc)
  ++ map row_line (filter (existsb nonblank) (concat (tables doc))).

(** The entry [_process_pdf] makes for a page, [n] being its number
    counted from 1. *)
Definition page_entry (n : nat) (t : text) : text :=
  str "Page " ++ of_nat n ++ str ":" ++ [10%N] ++ t.

(** A page for which OCR gives no text: it renders and the rendering opens
    as an image, and the recognition raises or reads nothing. *)
Definition ocr_yields_nothing {L : Libs} (page : pdf_page) : Prop :=
  exists img_data im,
    get_pixmap_png page = Ok img_data
    /\ Image_open img_data = Ok im
    /\ (raises (DocumentProcessor.ocr_steps im)
        \/ DocumentProcessor.ocr_steps im = Ok []).

(** A page that cannot be turned into an image: rendering it raises, or
    the rendering does not open. *)
Definition rendering_fails {L : Libs} (page : pdf_page) (e : exn) : Prop :=
  get_pixmap_png page = Raise e
  \/ exists img_data,
       get_pixmap_png page = Ok img_data /\ Image_open img_data = Raise e.

(** A value the progress bar accepts: a fraction between 0 and 1. Other
    events are not constrained. *)
Definition progress_in_range (ev : App.ui_event) : Prop :=
  match ev with
  | App.progress fraction => (0 <= fraction <= 1)%Q
  | _ => True
  end.

End Vocabulary.

(** ** Libraries that parse given documents *)

Module Fixtures.

(** As [Sym.libs], with PDF and DOCX parsing that return the given
    documents. *)
Definition libs_with_documents (scene : Sym.picture)
           (pdf : result (list pdf_page)) (docx : result docx_document)
  : Libs :=
  {| image := Sym.picture;
     ndarray := Sym.picture;
     Image_open := fun _ => Ok scene;
     Image_fromarray := fun a => Ok a;
     np_array := fun im => Ok im;
     shape := Sym.pic_shape;
     cv2 := fun op a => Ok (Sym.apply_op op a);
     cv2_absdiff := fun a _ => Ok a;
     np_rsub := fun _ a => Ok a;
     np_multiply := Qmult;
     np_true_divide := Qdiv;
     np_subtract := Qminus;
     cv2_HoughLines := fun a => Ok (Sym.pic_lines a);
     image_to_string := fun im _ => Sym.pic_string im;
     image_to_data := fun im _ _ => Sym.pic_data im;
     fitz_open := fun _ => pdf;
     docx_Document := fun _ => docx |}.

Definition no_docx : result docx_document :=
  Raise (LibraryError "Package not found").

Definition no_pdf : result (list pdf_page) :=
  Raise (LibraryError "cannot open document").

(** A page with a text layer, and a scanned page (no text layer). *)
Definition text_page (t : string) : pdf_page :=
  {| get_text := str t; get_pixmap_png := Ok (Sym.bytes_of "PNG") |}.

Definition scanned_page : pdf_page :=
  {| get_text := [10%N]; get_pixmap_png := Ok (Sym.bytes_of "PNG") |}.

(** A page that cannot be rendered. *)
Definition broken_page : pdf_page :=
  {| get_text := [];
     get_pixmap_png := Raise (LibraryError "cannot render page") |}.

End Fixtures.

(** ** app/utils/ocr_processor.py: [detect_language], [get_text_regions] *)

Module OCRQueries.

(** The dictionary of [pytesseract.image_to_data(image, output_type=DICT)]
    with the columns [get_text_regions] reads. *)
Record tess_boxes : Type := {
  box_conf : list conf_cell;
  box_text : list text;
  box_left : list Z;
  box_top : list Z;
  box_width : list Z;
  box_height : list Z
}.

(** The two Tesseract calls made with the default configuration. *)
Class Tesseract {L : Libs} : Type := {
  image_to_osd : image -> result text;
  image_to_data_dict : image -> result tess_boxes
}.

(** [l[i]] *)
Definition index {A} (l : list A) (i : nat) : result A :=
  match nth_error l i with
  | Some a => Ok a
  | None => Raise IndexError
  end.





(** A bounding box and a region of [get_text_regions]. *)
Record bbox : Type := {
  x : Z;
  y : Z;
  width : Z;
  height : Z
}.

Record region : Type := {
  region_text : text;
  region_confidence : Z;
  region_bbox : bbox
}.

(** [int(data['conf'][i])] *)
Definition conf_at (data : tess_boxes) (i : nat) : result Z :=
  conf <- index (box_conf data) i ;;
  int_of_conf conf.

(** The [for i in range(len(data['text']))] loop of [get_text_regions]. *)
Fixpoint region_loop (data : tess_boxes) (indices : list nat)
         (regions : list region) : result (list region) :=
  match indices with
  | [] => Ok regions
  | i :: rest =>
    c <- conf_at data i ;;
    if (c >? 30)%Z then
      t <- index (box_text data) i ;;
      let t := strip t in
      if truthy t then
        confidence <- conf_at data i ;;
        left <- index (box_left data) i ;;
        top <- index (box_top data) i ;;
        w <- index (box_width data) i ;;
        h <- index (box_height data) i ;;
        region_loop data rest
          (regions ++ [{| region_text := t;
                          region_confidence := confidence;
                          region_bbox := {| x := left; y := top;
                                            width := w; height := h |} |}])
      else region_loop data rest regions
    else region_loop data rest regions
  end.

Section WithLibs.

Context {L : Libs} {T : Tesseract}.


(** The body of the [try] of [get_text_regions]. *)
Definition region_steps (im : image) : result (list region) :=
  data <- image_to_data_dict im ;;
  region_loop data (seq 0 (List.length (box_text data))) [].

(** [get_text_regions]: the handler logs and returns the empty list. *)
Definition get_text_regions (im : image) : result (list region) :=
  try_except (region_steps im) (fun _ => Ok []).

End WithLibs.

(** Tesseract on pictures: the orientation report and the table are those
    given. *)
Definition tesseract_with (scene : Sym.picture) (osd : result text)
           (boxes : result tess_boxes) : @Tesseract (Sym.libs scene) :=
  {| image_to_osd := fun _ => osd;
     image_to_data_dict := fun _ => boxes |}.

(** The names [extract_text] knows: the keys of [self.ocr_configs] and of
    [self.languages], and the preprocessing types [preprocess_image]
    tests for. *)
Definition config_names : list string :=
  ["default"; "single_column"; "single_line"; "single_word"; "table";
   "sparse"]%string.

Definition language_names : list string :=
  ["english"; "spanish"; "french"; "german"; "chinese"; "arabic"]%string.

Definition preprocessing_names : list string :=
  ["scanned_document"; "photo_document"; "low_quality"; "handwritten"]%string.

(** A region made of the fields of one row of the table. *)
Definition region_of_row (data : tess_boxes) (i : nat) (r : region) : Prop :=
  exists t,
    nth_error (box_conf data) i = Some (Conf (region_confidence r))
    /\ nth_error (box_text data) i = Some t
    /\ region_text r = strip t
    /\ nth_error (box_left data) i = Some (x (region_bbox r))
    /\ nth_error (box_top data) i = Some (y (region_bbox r))
    /\ nth_error (box_width data) i = Some (width (region_bbox r))
    /\ nth_error (box_height data) i = Some (height (region_bbox r)).

End OCRQueries.

(** ** app/components/ollama_client.py: [generate] *)

Module OllamaClient.

(** The keyword arguments [generate] looks up in [kwargs]. *)
Record generation_kwargs : Type := {
  kw_temperature : option Q;
  kw_top_p : option Q;
  kw_top_k : option Z;
  kw_max_tokens : option Z;
  kw_stop : option (list text)
}.

Record options : Type := {
  temperature : Q;
  top_p : Q;
  top_k : Z;
  num_predict : Z;
  stop : list text
}.

Record payload : Type := {
  model : string;
  prompt : text;
  stream : bool;
  payload_options : options
}.

(** A [requests.Response]: the status, the body, and what
    [response.json().get("response")] gives: an exception when the body is
    not a JSON object, [None] when the object has no such key. *)
Record response : Type := {
  status_code : Z;
  response_text : string;
  json_response : result (option text)
}.

(** [self.session.post(f"{self.base_url}/api/generate", json=payload,
    timeout=120)] *)
Class Http : Type := {
  post_generate : payload -> result response
}.

(** [d.get(key, default)] *)
Definition get {A} (value : option A) (default : A) : A :=
  match value with
  | Some a => a
  | None => default
  end.

(** [_build_rag_prompt] *)
Definition _build_rag_prompt (question context : text) : text :=
  join [10%N]
    [ str "You are a helpful AI assistant that answers questions based on provided context.";
      [];
      str "Context Information:";
      context;
      [];
      str "Instructions:";
      str "- Answer the question based ONLY on the provided context";
      str "- If the answer is not in the context, say " ++ [34%N]
        ++ str "I cannot find this information in the provided documents"
        ++ [34%N];
      str "- Be concise but comprehensive";
      str "- Use specific quotes from the context when possible";
      str "- Maintain a helpful and professional tone";
      [];
      str "Question: " ++ question;
      [];
      str "Answer:" ].

(** The payload [generate] builds for a request that is not streamed. *)
Definition build_payload (model : string) (prompt context : text)
           (kwargs : generation_kwargs) : payload :=
  let full_prompt :=
    if truthy context then _build_rag_prompt prompt context else prompt in
  {| model := model;
     prompt := full_prompt;
     stream := false;
     payload_options :=
       {| temperature := get (kw_temperature kwargs) (1 # 10)%Q;
          top_p := get (kw_top_p kwargs) (9 # 10)%Q;
          top_k := get (kw_top_k kwargs) 40%Z;
          num_predict := get (kw_max_tokens kwargs) 1000%Z;
          stop := get (kw_stop kwargs) [] |} |}.

Section WithHttp.

Context {H : Http}.

(** [_generate_single]; the exception it raises itself is a plain
    [Exception] with the message given. *)
Definition _generate_single (p : payload) : result text :=
  response <- post_generate p ;;
  if (status_code response =? 200)%Z
  then
    value <- json_response response ;;
    Ok (get value [])
  else
    Raise (LibraryError ("HTTP " ++ Langchain.decimal (status_code response)
                         ++ ": " ++ response_text response)%string).

(** [generate] with [stream=False]: the handler logs and returns the error
    as the answer. (With [stream=True] the call returns a generator; that
    path is not modelled.) *)
Definition generate (model : string) (prompt context : text)
           (kwargs : generation_kwargs) : result text :=
  try_except
    (_generate_single (build_payload model prompt context kwargs))
    (fun e => Ok (str ("Error generating response: " ++ str_of_exn e)%string)).

End WithHttp.

End OllamaClient.

(** ** app/utils/vector_store.py: [load_vectorstore], [similarity_search] *)

Module VectorStoreManager.

(** The persisted index and the directory it lives in. *)
Class Store : Type := {
  chroma : Type;
  path_exists : bool;                     (* os.path.exists(self.db_path) *)
  listdir : result (list string);         (* os.listdir(self.db_path) *)
  Chroma_open : result chroma;            (* Chroma(persist_directory=.., ..) *)
  chroma_bool : chroma -> result bool;    (* the truth value of the index *)
  chroma_similarity_search :
    chroma -> text -> Z -> result (list DocumentProcessor.Document)
}.

Section WithStore.

Context {S : Store}.

(** [load_vectorstore]: the handler logs, and the function then returns
    [None]. *)
Definition load_vectorstore : result (option chroma) :=
  try_except
    (if path_exists then
       entries <- listdir ;;
       match entries with
       | [] => Ok None
       | _ :: _ =>
         vectorstore <- Chroma_open ;;
         Ok (Some vectorstore)
       end
     else Ok None)
    (fun _ => Ok None).

(** [similarity_search]. [if vectorstore:] takes the truth value of the
    index object, which is true for a class without [__len__] and the test
    [len(vectorstore) != 0] for a class with one. *)
Definition similarity_search (query : text) (k : Z)
  : result (list DocumentProcessor.Document) :=
  vectorstore <- load_vectorstore ;;
  match vectorstore with
  | Some v =>
    nonempty <- chroma_bool v ;;
    if nonempty then chroma_similarity_search v query k else Ok []
  | None => Ok []
  end.

End WithStore.

End VectorStoreManager.

(** ** app/app.py: [process_question] *)

Module Chat.

Import OllamaClient VectorStoreManager.

(** An entry of [st.session_state.chat_history]. *)
Record chat_entry : Type := {
  question : text;
  response : text;
  context : text;
  timestamp : Q;
  entry_model : string
}.

(** The part of [st.session_state] the function reads or writes, and the
    page. *)
Record chat_session : Type := {
  chat_history : list chat_entry;
  current_model : string;
  max_results : Z;                        (* search_settings['max_results'] *)
  generation_settings : generation_kwargs;
  chat_page : list App.ui_event
}.

Section WithServices.

Context {H : Http} {S : Store}.

(** The body of the [try] of [process_question], up to the entry added to
    the history; [now] is [time.time()]. *)
Definition answer (s : chat_session) (question : text) (now : Q)
  : result chat_entry :=
  search_results <- similarity_search question (max_results s) ;;
  let context :=
    join [10; 10]%N (map DocumentProcessor.page_content search_results) in
  response <- generate (current_model s) question context
                       (generation_settings s) ;;
  Ok {| question := question;
        response := response;
        context := context;
        timestamp := now;
        entry_model := current_model s |}.

(** [process_question]: the handler reports the error on the page.
    ([st.rerun] after the history is extended is not modelled.) *)
Definition process_question (s : chat_session) (question : text) (now : Q)
  : chat_session :=
  match answer s question now with
  | Ok entry =>
    {| chat_history := chat_history s ++ [entry];
       current_model := current_model s;
       max_results := max_results s;
       generation_settings := generation_settings s;
       chat_page := chat_page s |}
  | Raise e =>
    {| chat_history := chat_history s;
       current_model := current_model s;
       max_results := max_results s;
       generation_settings := generation_settings s;
       chat_page :=
         chat_page s
         ++ [App.st_error ("Error processing question: " ++ str_of_exn e)%string] |}
  end.

End WithServices.

(** Services for examples: an Ollama server that answers every request
    with the given response, and a store directory in the given state. *)
Definition http_answering (r : result OllamaClient.response) : Http :=
  {| post_generate := fun _ => r |}.

Definition store_with (exists_ : bool) (entries : result (list string))
           (found : result (list DocumentProcessor.Document)) : Store :=
  {| chroma := unit;
     path_exists := exists_;
     listdir := entries;
     Chroma_open := Ok tt;
     chroma_bool := fun _ => Ok true;
     chroma_similarity_search := fun _ _ _ => found |}.

(** The persisted index cannot be loaded: its directory is missing or
    empty, or listing the directory or opening the index raises. *)
Definition index_unavailable {S : Store} : Prop :=
  path_exists = false
  \/ (path_exists = true
      /\ (listdir = Ok []
          \/ raises listdir
          \/ raises Chroma_open)).

End Chat.

(** ** Loading the application: the import chain of app/app.py *)

Module Startup.

Import PyImport.

(** app/components/document_processor.py *)
Definition document_processor : list stmt :=
  [ import_names ["io"];
    import_names ["os"];
    import_names ["tempfile"];
    import_names ["logging"];
    import_names ["List"; "Optional"; "Union"];
    import_names ["Path"];
    import_names ["fitz"];
    import_names ["pytesseract"];
    import_names ["Image"];
    import_names ["cv2"];
    import_names ["np"];
    import_names ["docx"];
    import_names ["RecursiveCharacterTextSplitter"];
    import_names ["Document"];
    import_names ["st"];
    assign "logger" ["logging"; "__name__"];
    class_def "DocumentProcessor"
      [ def "__init__" [];
        def "process_file" ["bool"; "int"; "int"; "List"; "Document"];
        def "_process_pdf" ["bool"; "str"];
        def "_process_txt" ["bool"; "str"];
        def "_process_docx" ["bool"; "str"];
        def "_process_image" ["bool"; "str"];
        def "_ocr_image" ["Image"; "str"];
        def "_preprocess_image" ["np"; "np"];
        def "get_file_info" ["dict"] ] ]%string.

(** app/components/ollama_client.py *)
Definition ollama_client : list stmt :=
  [ import_names ["requests"];
    import_names ["json"];
    import_names ["time"];
    import_names ["logging"];
    import_names ["Dict"; "List"; "Optional"; "Any"];
    import_names ["st"];
    assign "logger" ["logging"; "__name__"];
    class_def "OllamaClient"
      [ def "__init__" ["str"];
        def "is_healthy" ["bool"];
        def "wait_for_ollama" ["int"; "bool"];
        def "list_models" ["List"; "str"];
        def "get_model_info" ["str"; "Optional"; "Dict"];
        def "pull_model" ["str"; "bool"];
        def "remove_model" ["str"; "bool"];
        def "generate" ["str"; "str"; "str"; "bool"; "str"];
        def "_generate_single" ["Dict"; "str"];
        def "_generate_stream" ["Dict"];
        def "_build_rag_prompt" ["str"; "str"; "str"];
        def "chat" ["str"; "List"; "Dict"; "str"];
        def "embeddings" ["str"; "str"; "List"; "float"];
        def "get_system_info" ["Dict"] ] ]%string.

(** app/components/model_manager.py *)
Definition model_manager : list stmt :=
  [ import_names ["logging"];
    import_names ["st"];
    import_names ["Dict"; "List"; "Optional"];
    import_names ["OllamaClient"];
    assign "logger" ["logging"; "__name__"];
    class_def "ModelManager"
      [ def "__init__" ["OllamaClient"];
        def "get_model_info" ["str"; "Optional"; "Dict"];
        def "install_model" ["str"; "bool"];
        def "remove_model" ["str"; "bool"];
        def "get_recommended_models" ["Dict"] ] ]%string.

(** app/components/chat_interface.py *)
Definition chat_interface : list stmt :=
  [ import_names ["st"];
    import_names ["time"];
    import_names ["datetime"];
    import_names ["List"; "Dict"];
    class_def "ChatInterface"
      [ def "__init__" [];
        def "display_chat_history" ["List"; "Dict"];
        def "_format_timestamp" ["float"; "str"];
        def "export_chat" ["List"; "Dict"; "str"] ] ]%string.

(** app/components/monitoring.py *)
Definition monitoring : list stmt :=
  [ import_names ["psutil"];
    import_names ["GPUtil"];
    import_names ["platform"];
    import_names ["streamlit"];
    import_names ["sys"];
    import_names ["Dict"; "Any"];
    class_def "SystemMonitor"
      [ def "get_system_status" ["Dict"; "str"; "Any"];
        def "get_detailed_info" ["Dict"; "str"; "Any"];
        def "_check_cuda" ["bool"] ] ]%string.

(** app/utils/vector_store.py *)
Definition vector_store : list stmt :=
  [ import_names ["os"];
    import_names ["shutil"];
    import_names ["logging"];
    import_names ["List"; "Optional"];
    import_names ["HuggingFaceEmbeddings"];
    import_names ["Chroma"];
    import_names ["Document"];
    assign "logger" ["logging"; "__name__"];
    class_def "VectorStoreManager"
      [ def "__init__" ["str"];
        def "create_vectorstore" ["List"; "Document"; "Chroma"];
        def "load_vectorstore" ["Optional"; "Chroma"];
        def "similarity_search" ["str"; "int"; "List"; "Document"];
        def "get_document_count" ["int"];
        def "clear_database" [] ] ]%string.

(** The imports of app/components/__init__.py. *)
Definition components_init : result (list string) :=
  a <- from_import document_processor ["DocumentProcessor"]%string ;;
  b <- from_import ollama_client ["OllamaClient"]%string ;;
  c <- from_import model_manager ["ModelManager"]%string ;;
  d <- from_import chat_interface ["ChatInterface"]%string ;;
  e <- from_import monitoring ["SystemMonitor"]%string ;;
  Ok (a ++ b ++ c ++ d ++ e).

(** [from package.module import name]: the package is imported first,
    which runs its [__init__]; then the module. *)
Definition from_package_import (package : result (list string))
           (m : list stmt) (names : list string) : result (list string) :=
  package ;;; from_import m names.

(** The imports of the repository's own modules at the top of app/app.py
    (lines 14 to 20), in order; the names bound when they have all run. *)
Definition app_imports : result (list string) :=
  a <- from_package_import components_init document_processor
         ["DocumentProcessor"]%string ;;
  b <- from_package_import components_init ollama_client
         ["OllamaClient"]%string ;;
  c <- from_package_import components_init model_manager
         ["ModelManager"]%string ;;
  d <- from_package_import components_init chat_interface
         ["ChatInterface"]%string ;;
  e <- from_package_import components_init monitoring
         ["SystemMonitor"]%string ;;
  f <- from_package_import utils_init file_handler ["FileHandler"]%string ;;
  g <- from_package_import utils_init vector_store
         ["VectorStoreManager"]%string ;;
  Ok (a ++ b ++ c ++ d ++ e ++ f ++ g).

End Startup.

(* ================================================================== *)
(** * Part II. Properties                                              *)
(* ================================================================== *)

Import DocumentProcessor App OCRProcessor PyImport Spec Invariants.

Unset Implicit Arguments.

(** ** Control flow *)

Lemma try_except_returns {A} (body : result A) (handler : exn -> result A) :
  (forall e, returns (handler e)) -> returns (try_except body handler).
Proof.
  intros Hh. destruct body as [a | e]; simpl.
  - exists a. reflexivity.
  - apply Hh.
Qed.

(** ** Plain-text extraction *)

(** C8. The plain-text extractor never raises, whatever the bytes and
    whatever the position of the stream: it returns the UTF-8 decoding of
    what it reads, and when that decoding fails it rewinds and returns the
    Latin-1 decoding of the whole content, which exists for every byte
    sequence. *)
Theorem process_txt_never_raises :
  forall (f : uploaded_file) (ocr_enabled : bool),
    returns (_process_txt f ocr_enabled)
    /\ _process_txt f ocr_enabled =
         match Codec.utf8 (map Byte.to_N (skipn (tell f) (getvalue f))) with
         | Some t => Ok t
         | None => Ok (map Byte.to_N (getvalue f))
         end
    /\ (forall bs : list byte, returns (Codec.decode_latin1 bs)).
Proof.
  intros f ocr.
  assert (E : _process_txt f ocr =
              match Codec.utf8 (map Byte.to_N (skipn (tell f) (getvalue f))) with
              | Some t => Ok t
              | None => Ok (map Byte.to_N (getvalue f))
              end).
  { unfold _process_txt, Codec.decode_utf8, Codec.decode_latin1. simpl.
    destruct (Codec.utf8 _); reflexivity. }
  split; [| split].
  - rewrite E. destruct (Codec.utf8 _) as [t |]; eexists; reflexivity.
  - exact E.
  - intros bs. eexists. reflexivity.
Qed.

(** ** Loading the OCR module *)

(** C9. Running the body of app/utils/ocr_processor.py stops with
    [NameError] on [List], the name read by the result annotation of
    [get_text_regions] and bound by none of the imports; the class name
    [OCRProcessor] is therefore never bound, so none of its operations can
    be invoked, and importing it through the package fails the same way.
    The sibling module file_handler.py, which imports [List], loads. *)
Theorem ocr_processor_fails_to_load :
  snd (load ocr_processor) = Some (NameError "List")
  /\ bound "List" (fst (load ocr_processor) ++ builtins) = false
  /\ can_invoke "OCRProcessor" (load ocr_processor) = false
  /\ utils_init = Raise (NameError "List")
  /\ snd (load file_handler) = None.
Proof.
  assert (Hload : load ocr_processor =
                  (fst (load ocr_processor), Some (NameError "List"))).
  { unfold load, ocr_processor.
    repeat (cbn [run_module read_names app]; try reflexivity).
  }
  split; [| split; [| split; [| split]]].
  - rewrite Hload. reflexivity.
  - vm_compute. reflexivity.
  - unfold can_invoke. vm_compute. reflexivity.
  - unfold utils_init, from_import.
    replace (load file_handler) with (fst (load file_handler), @None exn)
      by (vm_compute; reflexivity).
    rewrite Hload. reflexivity.
  - vm_compute. reflexivity.
Qed.

(** ** Error handling of the OCR paths *)

Section ErrorHandling.

Context {L : Libs}.

Lemma supported_image (ext : string) :
  is_image_extension ext = true ->
  supported_formats ext = Some _process_image.
Proof.
  unfold is_image_extension, supported_formats. intros H.
  destruct (String.eqb ext "png") eqn:Epng.
  - apply String.eqb_eq in Epng. subst ext. reflexivity.
  - destruct (String.eqb ext "jpg") eqn:Ejpg.
    + apply String.eqb_eq in Ejpg. subst ext. reflexivity.
    + destruct (String.eqb ext "jpeg") eqn:Ejpeg; [| discriminate H].
      apply String.eqb_eq in Ejpeg. subst ext. reflexivity.
Qed.

Lemma ocr_image_swallows (im : image) :
  raises (ocr_steps im) -> _ocr_image im = Ok [].
Proof. intros [e He]. unfold _ocr_image. rewrite He. reflexivity. Qed.

Lemma process_image_file_empty (f : uploaded_file) (im : image)
      (chunk_size chunk_overlap : Z) :
  is_image_extension (file_extension f) = true ->
  Image_open (fst (read f)) = Ok im ->
  _ocr_image im = Ok [] ->
  process_file f true chunk_size chunk_overlap = Raise no_content.
Proof.
  intros Hext Hopen Hocr. unfold process_file.
  rewrite (supported_image _ Hext).
  unfold _process_image. simpl negb. cbv iota.
  rewrite Hopen. simpl bind. rewrite Hocr. reflexivity.
Qed.

(** C10. For an image file processed with OCR enabled, when a step inside
    [_ocr_image] raises, [_ocr_image] returns the empty string and
    [process_file] raises the no-content error; a file whose OCR genuinely
    reads nothing ends in the very same error. *)
Theorem ocr_failure_surfaces_as_no_content :
  forall (f : uploaded_file) (im : image) (chunk_size chunk_overlap : Z),
    is_image_extension (file_extension f) = true ->
    Image_open (fst (read f)) = Ok im ->
    raises (ocr_steps im) ->
    _ocr_image im = Ok []
    /\ process_file f true chunk_size chunk_overlap
       = Raise (ValueError "No text content extracted from file")
    /\ (forall (g : uploaded_file) (blank : image),
           is_image_extension (file_extension g) = true ->
           Image_open (fst (read g)) = Ok blank ->
           ocr_steps blank = Ok [] ->
           process_file g true chunk_size chunk_overlap
           = process_file f true chunk_size chunk_overlap).
Proof.
  intros f im cs co Hext Hopen Hraise.
  pose proof (ocr_image_swallows im Hraise) as Hocr.
  pose proof (process_image_file_empty f im cs co Hext Hopen Hocr) as Hf.
  split; [exact Hocr | split; [exact Hf |]].
  intros g blank Hg Hopen' Hblank.
  rewrite Hf. apply (process_image_file_empty g blank cs co Hg Hopen').
  unfold _ocr_image. rewrite Hblank. reflexivity.
Qed.

(** C7. [preprocess_image] never raises, for every image and every profile
    name: when a step of the selected pipeline fails it returns the image it
    was given, and otherwise the result of the pipeline. *)
Theorem preprocess_image_never_raises :
  forall (im : ndarray) (preprocessing_type : string),
    returns (preprocess_image im preprocessing_type)
    /\ (raises (preprocess_steps im preprocessing_type) ->
        preprocess_image im preprocessing_type = Ok im)
    /\ (forall r, preprocess_steps im preprocessing_type = Ok r ->
                  preprocess_image im preprocessing_type = Ok r).
Proof.
  intros im ptype. unfold preprocess_image.
  split; [| split].
  - apply try_except_returns. intros e. exists im. reflexivity.
  - intros [e He]. rewrite He. reflexivity.
  - intros r Hr. rewrite Hr. reflexivity.
Qed.

Lemma extract_steps_recognize_fails (im : image)
      (config_type language preprocessing : string) (thr : Q) (e : exn) :
  recognize im config_type language preprocessing = Raise e ->
  extract_steps im config_type language preprocessing thr = Raise e.
Proof. intros H. unfold extract_steps. rewrite H. reflexivity. Qed.

(** C6. [extract_text] never raises, for every image and configuration:
    whenever a step inside it fails, the recognition pass in particular,
    it returns the dictionary with empty text, confidence 0 and the
    description of the error. *)
Theorem extract_text_never_raises :
  forall (im : image) (config_type language preprocessing : string)
         (confidence_threshold : Q),
    returns (extract_text im config_type language preprocessing
                          confidence_threshold)
    /\ (forall e,
           recognize im config_type language preprocessing = Raise e ->
           extract_text im config_type language preprocessing
                        confidence_threshold
           = Ok (error_result e))
    /\ (forall e,
           extract_steps im config_type language preprocessing
                         confidence_threshold = Raise e ->
           extract_text im config_type language preprocessing
                        confidence_threshold
           = Ok (error_result e)).
Proof.
  intros im cfg lang pre thr. unfold extract_text.
  split; [| split].
  - apply try_except_returns. intros e. eexists. reflexivity.
  - intros e He.
    rewrite (extract_steps_recognize_fails im cfg lang pre thr e He). reflexivity.
  - intros e He. rewrite He. reflexivity.
Qed.

End ErrorHandling.

Lemma ocr_failure_surfaces_as_no_content_witness :
  @process_file (Sym.libs Sym.unreadable)
     (upload "scan.png" (Sym.bytes_of "PNG")) true 1000 200
  = Raise (ValueError "No text content extracted from file").
Proof.
  refine (proj1 (proj2
    (@ocr_failure_surfaces_as_no_content (Sym.libs Sym.unreadable)
       (upload "scan.png" (Sym.bytes_of "PNG")) Sym.unreadable 1000 200
       _ _ _))).
  - reflexivity.
  - reflexivity.
  - exists (LibraryError "tesseract is not installed"). reflexivity.
Defined.

Lemma preprocess_image_never_raises_witness :
  raises (@preprocess_steps (Sym.libs_with Sym.no_adaptive_threshold Sym.blank)
            Sym.blank "handwritten")
  /\ @preprocess_image (Sym.libs_with Sym.no_adaptive_threshold Sym.blank)
       Sym.blank "handwritten" = Ok Sym.blank.
Proof.
  assert (H : raises (@preprocess_steps
                        (Sym.libs_with Sym.no_adaptive_threshold Sym.blank)
                        Sym.blank "handwritten")).
  { exists (LibraryError "OpenCV assertion failed"). reflexivity. }
  split; [exact H |].
  exact (proj1 (proj2
    (@preprocess_image_never_raises
       (Sym.libs_with Sym.no_adaptive_threshold Sym.blank)
       Sym.blank "handwritten")) H).
Defined.

Lemma extract_text_never_raises_witness :
  @recognize (Sym.libs Sym.blank) Sym.unreadable "default" "english" "default"
  = Raise (LibraryError "tesseract is not installed")
  /\ @extract_text (Sym.libs Sym.blank) Sym.unreadable
       "default" "english" "default" 0
     = Ok (error_result (LibraryError "tesseract is not installed")).
Proof.
  assert (H : @recognize (Sym.libs Sym.blank) Sym.unreadable
                "default" "english" "default"
              = Raise (LibraryError "tesseract is not installed"))
    by reflexivity.
  split; [exact H |].
  exact (proj1 (proj2
    (@extract_text_never_raises (Sym.libs Sym.blank) Sym.unreadable
       "default" "english" "default" 0)) _ H).
Defined.

(** ** Token filtering in [extract_text] *)

Lemma Qltb_false_of_le (a b : Q) : (b <= a)%Q -> Qltb a b = false.
Proof.
  intros H. unfold Qltb. apply Qle_bool_iff in H. rewrite H. reflexivity.
Qed.

Lemma filter_tokens_kept (thr : Q) (tokens : list token) :
  forall (before : list text) (text_parts : list text) (confidences : list Z),
    filter_tokens thr (before ++ map snd tokens) (List.length before)
                  (map (fun t => Conf (fst t)) tokens) text_parts confidences
    = Ok (text_parts ++ map (fun t => strip (snd t)) (kept thr tokens),
          confidences ++ map fst (kept thr tokens)).
Proof.
  induction tokens as [| [c t] tokens IH]; intros before parts confs.
  - simpl. rewrite !app_nil_r. reflexivity.
  - cbn [map filter_tokens int_of_conf bind fst snd].
    assert (Hnth : nth_error (before ++ t :: map snd tokens) (List.length before)
                   = Some t).
    { rewrite nth_error_app2 by lia. rewrite Nat.sub_diag. reflexivity. }
    assert (Hnext : forall p cs,
               filter_tokens thr (before ++ t :: map snd tokens)
                 (S (List.length before))
                 (map (fun t0 => Conf (fst t0)) tokens) p cs
               = Ok (p ++ map (fun t0 => strip (snd t0)) (kept thr tokens),
                     cs ++ map fst (kept thr tokens))).
    { intros p cs.
      specialize (IH (before ++ [t]) p cs).
      rewrite <- app_assoc in IH. simpl app in IH.
      rewrite length_app in IH. simpl List.length in IH.
      rewrite Nat.add_1_r in IH. exact IH. }
    unfold kept in *. cbn [filter].
    change (survives thr (c, t))
      with (Qltb thr (inject_Z c) && truthy (strip t)).
    destruct (Qltb thr (inject_Z c)) eqn:Hc; cbn [andb].
    + rewrite Hnth.
      destruct (truthy (strip t)) eqn:Ht.
      * rewrite Hnext. cbn [map fst snd]. rewrite <- !app_assoc. reflexivity.
      * apply Hnext.
    + apply Hnext.
Qed.

Section Tokens.

Context {L : Libs}.

(** C5. When the recognition pass returns tokens, [extract_text] discards
    every token whose confidence is at most the threshold (and every blank
    token), joins the texts of the survivors with single spaces in layout
    order, and reports the arithmetic mean of the survivors' confidences,
    or 0 when no token survives. *)
Theorem extract_text_filters_tokens :
  forall (im : image) (config_type language preprocessing : string)
         (confidence_threshold : Q) (data : tess_data) (tokens : list token),
    recognize im config_type language preprocessing = Ok data ->
    data_conf data = map (fun t => Conf (fst t)) tokens ->
    data_text data = map snd tokens ->
    exists r,
      extract_text im config_type language preprocessing confidence_threshold
      = Ok r
      /\ result_text r
         = join [32%N]
             (map (fun t => strip (snd t)) (kept confidence_threshold tokens))
      /\ word_confidences r = Some (map fst (kept confidence_threshold tokens))
      /\ (forall t, In t tokens ->
                    (inject_Z (fst t) <= confidence_threshold)%Q ->
                    ~ In t (kept confidence_threshold tokens))
      /\ (kept confidence_threshold tokens = [] -> confidence r = 0%Q)
      /\ (kept confidence_threshold tokens <> [] ->
          confidence r
          = (inject_Z (fold_right Z.add 0%Z
                         (map fst (kept confidence_threshold tokens)))
             / inject_Z (Z.of_nat
                           (List.length (kept confidence_threshold tokens))))%Q)
      /\ error r = None.
Proof.
  intros im cfg lang pre thr data tokens Hrec Hconf Htext.
  pose proof (filter_tokens_kept thr tokens [] [] []) as Hf.
  simpl app in Hf. simpl List.length in Hf.
  unfold extract_text, extract_steps.
  rewrite Hrec. cbn [bind]. rewrite Hconf, Htext, Hf. cbn [bind try_except fst snd].
  eexists. split; [reflexivity |].
  cbn [result_text word_confidences confidence error].
  repeat split.
  - intros t _ Hle Hin. unfold kept in Hin.
    apply filter_In in Hin. destruct Hin as [_ Hs].
    unfold survives in Hs. rewrite (Qltb_false_of_le _ _ Hle) in Hs.
    discriminate Hs.
  - intros ->. reflexivity.
  - intros Hne. destruct (kept thr tokens) as [| k ks] eqn:Hk.
    + contradiction.
    + pose proof (length_map fst (k :: ks)) as Hlen.
      destruct (map fst (k :: ks)) as [| z zs] eqn:E; [discriminate E |].
      unfold mean. rewrite Hlen. reflexivity.
Qed.

End Tokens.

Lemma extract_text_filters_tokens_witness :
  exists r,
    @extract_text (Sym.libs Sym.blank)
       (Sym.page_with [(90%Z, "Hello"%string); (10%Z, "wrld"%string);
                       (95%Z, "  "%string); (80%Z, " you "%string)])
       "default" "english" "default" (30 # 1)
    = Ok r
    /\ result_text r = str "Hello you"
    /\ word_confidences r = Some [90%Z; 80%Z]
    /\ confidence r = (inject_Z 170 / inject_Z 2)%Q.
Proof.
  pose (toks := [(90%Z, str "Hello"); (10%Z, str "wrld");
                 (95%Z, str "  "); (80%Z, str " you ")] : list token).
  destruct (@extract_text_filters_tokens (Sym.libs Sym.blank)
              (Sym.page_with [(90%Z, "Hello"%string); (10%Z, "wrld"%string);
                              (95%Z, "  "%string); (80%Z, " you "%string)])
              "default" "english" "default" (30 # 1)
              {| data_conf := map (fun t => Conf (fst t)) toks;
                 data_text := map snd toks |}
              toks eq_refl eq_refl eq_refl)
    as [r [Hr [Htext [Hwc [_ [_ [Hmean _]]]]]]].
  exists r. split; [exact Hr |]. split; [exact Htext |]. split; [exact Hwc |].
  apply Hmean. discriminate.
Defined.

(** ** Deskewing *)







(** The matrix of a rotation by [a] about [c], scale 1, turns the content
    by [- a] in the coordinates of the image. *)
Section Rotation.

Import Reals Qreals Geometry.

Local Open Scope R_scope.


End Rotation.

Section Deskew.

Context {L : Libs}.




End Deskew.


(** ** The batch driver *)

Section Batch.

Context {L : Libs} {V : VectorStore}.

Variables (ocr_enabled : bool) (chunk_size chunk_overlap : Z).

Lemma chunks_of_ok (f : uploaded_file) (documents : list Document) :
  process_file f ocr_enabled chunk_size chunk_overlap = Ok documents ->
  chunks_of ocr_enabled chunk_size chunk_overlap f = documents.
Proof. intros H. unfold chunks_of. rewrite H. reflexivity. Qed.

(** The loop runs through a prefix of files that all succeed. *)
Lemma process_each_prefix (n : nat) (before rest : list uploaded_file) :
  Forall (fun g => returns (process_file g ocr_enabled chunk_size chunk_overlap))
         before ->
  forall (i : nat) (all_documents : list Document) (shown : list ui_event),
    process_each ocr_enabled chunk_size chunk_overlap n i (before ++ rest)
                 all_documents shown
    = process_each ocr_enabled chunk_size chunk_overlap n
        (i + List.length before) rest
        (all_documents
         ++ flat_map (chunks_of ocr_enabled chunk_size chunk_overlap) before)
        (shown ++ shown_for n i before).
Proof.
  induction 1 as [| g before [documents Hg] _ IH]; intros i docs shown.
  - simpl. rewrite Nat.add_0_r, !app_nil_r. reflexivity.
  - cbn [app process_each]. rewrite Hg. rewrite IH.
    cbn [flat_map shown_for List.length].
    rewrite (chunks_of_ok g documents Hg).
    rewrite <- !app_assoc. cbn [app].
    replace (S i + List.length before)%nat
      with (i + S (List.length before))%nat by lia.
    reflexivity.
Qed.

(** C1, as the code has it. An error on one file aborts the batch: the
    files after it are not processed (nothing is shown for them), no chunk
    of any file is ingested and the session keeps the index and the list of
    processed documents it had; the page shows the files processed before
    the failing one, the failing one, and the error. *)
Theorem batch_aborts_on_first_error :
  forall (s : session) (before after : list uploaded_file)
         (f : uploaded_file) (e : exn),
    Forall (fun g => returns (process_file g ocr_enabled chunk_size chunk_overlap))
           before ->
    process_file f ocr_enabled chunk_size chunk_overlap = Raise e ->
    process_documents s (before ++ f :: after)
                      ocr_enabled chunk_size chunk_overlap
    = {| vectorstore := vectorstore s;
         processed_docs := processed_docs s;
         page := (page s ++ [progress 0])
                 ++ shown_for (List.length (before ++ f :: after)) 0 before
                 ++ [status_text ("Processing " ++ name f ++ "...")%string;
                     st_error ("Error processing documents: "
                               ++ str_of_exn e)%string] |}.
Proof.
  intros s before after f e Hbefore Hf.
  unfold process_documents.
  rewrite (process_each_prefix _ before (f :: after) Hbefore).
  cbn [process_each]. rewrite Hf.
  rewrite <- !app_assoc. reflexivity.
Qed.

(** When no file fails, the chunks of all files are ingested in input
    order. *)
Lemma batch_without_error (s : session) (files : list uploaded_file)
      (vs : Chroma) :
  Forall (fun g => returns (process_file g ocr_enabled chunk_size chunk_overlap))
         files ->
  create_vectorstore
    (flat_map (chunks_of ocr_enabled chunk_size chunk_overlap) files) = Ok vs ->
  vectorstore (process_documents s files ocr_enabled chunk_size chunk_overlap)
  = Some vs
  /\ processed_docs
       (process_documents s files ocr_enabled chunk_size chunk_overlap)
     = processed_docs s ++ map name files.
Proof.
  intros Hall Hvs. unfold process_documents.
  pose proof (process_each_prefix (List.length files) files [] Hall 0 []
                (page s ++ [progress 0])) as E.
  rewrite app_nil_r in E. rewrite E. cbn [process_each app].
  rewrite Hvs. split; reflexivity.
Qed.

End Batch.

Lemma batch_aborts_on_first_error_witness :
  let s0 := {| vectorstore := None; processed_docs := []; page := [] |} in
  @process_documents (Sym.libs Sym.blank) Sym.store s0
     [upload "notes.txt" (Sym.bytes_of "first file");
      upload "empty.txt" [];
      upload "good.txt" (Sym.bytes_of "hello")]
     true 1000 200
  = {| vectorstore := None;
       processed_docs := [];
       page := [progress 0;
                status_text "Processing notes.txt..."; progress (1 # 3);
                status_text "Processing empty.txt...";
                st_error "Error processing documents: No text content extracted from file"] |}.
Proof.
  cbv zeta.
  refine (@batch_aborts_on_first_error (Sym.libs Sym.blank) Sym.store
            true 1000 200
            {| vectorstore := None; processed_docs := []; page := [] |}
            [upload "notes.txt" (Sym.bytes_of "first file")]
            [upload "good.txt" (Sym.bytes_of "hello")]
            (upload "empty.txt" [])
            (ValueError "No text content extracted from file") _ _).
  - constructor; [| constructor]. eexists. vm_compute. reflexivity.
  - reflexivity.
Defined.

(** C1 as stated fails: in the batch of a zero-byte empty.txt and good.txt
    the second file can be processed on its own, yet after the first one
    raises the no-content error it is never looked at and nothing is
    ingested. *)
Lemma batch_survives_file_errors_counterexample :
  (exists documents,
      @process_file (Sym.libs Sym.blank)
         (upload "good.txt" (Sym.bytes_of "hello")) true 1000 200
      = Ok documents)
  /\ @process_documents (Sym.libs Sym.blank) Sym.store
       {| vectorstore := None; processed_docs := []; page := [] |}
       [upload "empty.txt" [];
        upload "good.txt" (Sym.bytes_of "hello")]
       true 1000 200
     = {| vectorstore := None;
          processed_docs := [];
          page := [progress 0;
                   status_text "Processing empty.txt...";
                   st_error "Error processing documents: No text content extracted from file"] |}
  /\ ~ batch_survives_file_errors.
Proof.
  assert (Hgood : exists documents,
             @process_file (Sym.libs Sym.blank)
               (upload "good.txt" (Sym.bytes_of "hello")) true 1000 200
             = Ok documents)
    by (eexists; vm_compute; reflexivity).
  split; [exact Hgood |]. split; [vm_compute; reflexivity |].
  intros Hclaim. destruct Hgood as [documents Hgood].
  destruct (Hclaim (Sym.libs Sym.blank) Sym.store
              {| vectorstore := None; processed_docs := []; page := [] |}
              [upload "empty.txt" [];
               upload "good.txt" (Sym.bytes_of "hello")]
              true 1000%Z 200%Z
              (fun docs => ex_intro _ docs eq_refl)
              (upload "good.txt" (Sym.bytes_of "hello")) documents
              (or_intror (or_introl eq_refl)) Hgood)
    as [all_documents [vs [_ [_ Hstore]]]].
  vm_compute in Hstore. discriminate Hstore.
Qed.

(** ** The chunker: lengths *)

Import Langchain.

Lemma len_nonneg (t : text) : (0 <= len t)%Z.
Proof. unfold len. lia. Qed.

Lemma len_app (a b : text) : len (a ++ b) = (len a + len b)%Z.
Proof. unfold len. rewrite length_app. lia. Qed.

Lemma length_lstrip (t : text) : (List.length (lstrip t) <= List.length t)%nat.
Proof.
  induction t as [| c t IH]; simpl; [lia |].
  destruct (isspace c); simpl; lia.
Qed.

Lemma len_strip (t : text) : (len (strip t) <= len t)%Z.
Proof.
  unfold len, strip, rstrip. rewrite length_rev.
  pose proof (length_lstrip (rev (lstrip t))) as H1.
  rewrite length_rev in H1.
  pose proof (length_lstrip t) as H2. lia.
Qed.

Lemma total_len_nonneg (pieces : list text) : (0 <= total_len pieces)%Z.
Proof.
  induction pieces as [| p rest IH]; simpl; [lia |].
  pose proof (len_nonneg p). lia.
Qed.

Lemma total_len_app (a b : list text) :
  total_len (a ++ b) = (total_len a + total_len b)%Z.
Proof. induction a as [| p a IH]; simpl; [reflexivity | rewrite IH; lia]. Qed.

Lemma join_nil_concat (pieces : list text) : join [] pieces = concat pieces.
Proof.
  induction pieces as [| p rest IH]; [reflexivity |].
  destruct rest as [| q rest].
  - simpl. rewrite app_nil_r. reflexivity.
  - change (join [] (p :: q :: rest)) with (p ++ [] ++ join [] (q :: rest)).
    rewrite IH. reflexivity.
Qed.

Lemma len_concat (pieces : list text) : len (concat pieces) = total_len pieces.
Proof.
  induction pieces as [| p rest IH]; [reflexivity |].
  simpl. rewrite len_app, IH. reflexivity.
Qed.

Lemma join_docs_len (pieces : list text) (doc : text) :
  _join_docs pieces [] = Some doc -> (len doc <= total_len pieces)%Z.
Proof.
  unfold _join_docs. intros H.
  destruct (truthy (strip (join [] pieces))); [| discriminate H].
  injection H as <-. rewrite join_nil_concat.
  pose proof (len_strip (concat pieces)) as Hs. rewrite len_concat in Hs.
  exact Hs.
Qed.

Section ChunkLengths.

Variables chunk_size chunk_overlap : Z.
Hypothesis size_pos : (1 <= chunk_size)%Z.
Hypothesis overlap_nonneg : (0 <= chunk_overlap)%Z.

Local Abbreviation fits := (within chunk_size).
Local Abbreviation short := (small chunk_size).
Local Abbreviation inv := (merge_inv chunk_size).

Lemma keep_popping_false (_len total : Z) (n : nat) :
  keep_popping chunk_size chunk_overlap 0 _len total n = false ->
  (total <= chunk_overlap)%Z
  /\ ((total + _len <= chunk_size)%Z \/ (total <= 0)%Z).
Proof.
  unfold keep_popping. intros H.
  apply orb_false_iff in H. destruct H as [H1 H2].
  assert (Hadd : (total + _len + (if (0 <? n)%nat then 0 else 0) = total + _len)%Z)
    by (destruct (0 <? n)%nat; lia).
  rewrite Hadd in H2.
  split.
  - destruct (Z.gtb_spec total chunk_overlap); [discriminate H1 | lia].
  - apply andb_false_iff in H2. destruct H2 as [H2 | H2].
    + left. destruct (Z.gtb_spec (total + _len) chunk_size);
        [discriminate H2 | lia].
    + right. destruct (Z.gtb_spec total 0); [discriminate H2 | lia].
Qed.

(** The [while] loop ends without [IndexError] and leaves either room for
    the next piece or nothing. *)
Lemma pop_front_ok (_len : Z) (current_doc : list text) :
  forall total,
    total = total_len current_doc ->
    exists total' rest,
      pop_front chunk_size chunk_overlap 0 _len total current_doc
      = Ok (total', rest)
      /\ total' = total_len rest
      /\ (total' <= total)%Z
      /\ ((total' + _len <= chunk_size)%Z \/ (total' <= 0)%Z).
Proof.
  induction current_doc as [| d0 rest IH]; intros total Ht.
  - simpl in Ht. subst total. cbn [pop_front].
    assert (Hk : keep_popping chunk_size chunk_overlap 0 _len 0 0 = false).
    { unfold keep_popping. cbn.
      destruct (Z.gtb_spec 0 chunk_overlap); [lia |].
      rewrite andb_false_r. reflexivity. }
    rewrite Hk. exists 0%Z, []. repeat split; lia.
  - cbn [pop_front].
    destruct (keep_popping chunk_size chunk_overlap 0 _len total
                (List.length (d0 :: rest))) eqn:Hk.
    + assert (Hsub : (total - (len d0
                               + (if (1 <? List.length (d0 :: rest))%nat
                                  then 0 else 0)))%Z
                     = total_len rest).
      { simpl in Ht. destruct (1 <? List.length (d0 :: rest))%nat; lia. }
      destruct (IH _ Hsub) as [total' [rest' [Hpop [Htot [Hle Hroom]]]]].
      exists total', rest'. split; [exact Hpop |]. split; [exact Htot |].
      split; [| exact Hroom].
      rewrite Hsub in Hle. simpl in Ht. pose proof (len_nonneg d0). lia.
    + apply keep_popping_false in Hk. destruct Hk as [_ Hroom].
      exists total, (d0 :: rest). repeat split; try assumption. lia.
Qed.

Lemma emit_within (st : merge_state) :
  inv st -> Forall fits (emit st []).
Proof.
  intros [Htot [Hle Hdocs]]. unfold emit.
  destruct (_join_docs (current_doc st) []) as [doc |] eqn:Hj; [| exact Hdocs].
  apply Forall_app. split; [exact Hdocs |].
  constructor; [| constructor].
  apply join_docs_len in Hj. unfold within. lia.
Qed.

Lemma merge_step_inv (st : merge_state) (d : text) :
  inv st -> short d ->
  exists st', merge_step chunk_size chunk_overlap [] st d = Ok st'
              /\ inv st'.
Proof.
  intros Hinv Hd. pose proof Hinv as [Htot [Hle Hdocs]].
  unfold small in Hd. unfold merge_step.
  change (len []) with 0%Z.
  assert (Hz : forall n : nat, (if (0 <? n)%nat then 0%Z else 0%Z) = 0%Z)
    by (intros n; destruct (0 <? n)%nat; reflexivity).
  assert (Hz1 : forall n : nat, (if (1 <? n)%nat then 0%Z else 0%Z) = 0%Z)
    by (intros n; destruct (1 <? n)%nat; reflexivity).
  rewrite Hz.
  destruct (Z.gtb_spec (total st + len d + 0) chunk_size) as [Hbig | Hfit].
  - destruct (0 <? List.length (current_doc st))%nat eqn:Hcur.
    + destruct (pop_front_ok (len d) (current_doc st) (total st) Htot)
        as [total' [rest [Hpop [Htot' [Hle' Hroom]]]]].
      rewrite Hpop. cbn [bind fst snd docs current_doc total].
      eexists. split; [reflexivity |].
      unfold merge_inv. cbn [docs current_doc total]. rewrite Hz1.
      rewrite total_len_app. simpl total_len.
      pose proof (total_len_nonneg rest).
      split; [lia |]. split; [| apply emit_within; exact Hinv].
      destruct Hroom; lia.
    + cbn [bind]. eexists. split; [reflexivity |].
      unfold merge_inv. cbn [docs current_doc total]. rewrite Hz1.
      rewrite total_len_app. simpl total_len.
      apply Nat.ltb_ge in Hcur.
      assert (Hnil : current_doc st = [])
        by (destruct (current_doc st); [reflexivity | simpl in Hcur; lia]).
      rewrite Hnil in *. simpl in Htot. simpl total_len.
      split; [lia |]. split; [lia | exact Hdocs].
  - cbn [bind]. eexists. split; [reflexivity |].
    unfold merge_inv. cbn [docs current_doc total]. rewrite Hz1.
    rewrite total_len_app. simpl total_len.
    split; [lia |]. split; [lia | exact Hdocs].
Qed.

Lemma merge_loop_inv (splits : list text) :
  Forall short splits ->
  forall st, inv st ->
    exists st', merge_loop chunk_size chunk_overlap [] st splits = Ok st'
                /\ inv st'.
Proof.
  induction 1 as [| d splits Hd _ IH]; intros st Hinv.
  - exists st. split; [reflexivity | exact Hinv].
  - cbn [merge_loop].
    destruct (merge_step_inv st d Hinv Hd) as [st1 [Hstep Hinv1]].
    rewrite Hstep. cbn [bind]. apply IH. exact Hinv1.
Qed.

(** [_merge_splits] returns, and every chunk it returns fits. *)
Lemma merge_splits_within (splits : list text) :
  Forall short splits ->
  exists chunks, _merge_splits chunk_size chunk_overlap splits [] = Ok chunks
                 /\ Forall fits chunks.
Proof.
  intros Hsmall. unfold _merge_splits.
  destruct (merge_loop_inv splits Hsmall
              {| docs := []; current_doc := []; total := 0 |})
    as [st [Hloop Hinv]].
  { unfold merge_inv. cbn. split; [reflexivity |]. split; [lia | constructor]. }
  rewrite Hloop. cbn [bind]. eexists. split; [reflexivity |].
  apply emit_within. exact Hinv.
Qed.

End ChunkLengths.

Section SplitLengths.

Variables chunk_size chunk_overlap : Z.
Hypothesis size_pos : (1 <= chunk_size)%Z.
Hypothesis overlap_nonneg : (0 <= chunk_overlap)%Z.

Local Abbreviation fits := (within chunk_size).
Local Abbreviation short := (small chunk_size).

Local Abbreviation recursion_ok := (recursion_fits chunk_size).

Lemma recursion_fits_tail recurse (s : text) (splits : list text) :
  recursion_ok recurse (s :: splits) -> recursion_ok recurse splits.
Proof.
  destruct recurse as [f |]; simpl; [tauto |].
  intros H. inversion H. assumption.
Qed.

Lemma flush_within (final_chunks good : list text) :
  Forall fits final_chunks -> Forall short good ->
  exists chunks, flush chunk_size chunk_overlap final_chunks good = Ok chunks
                 /\ Forall fits chunks.
Proof.
  intros Hfc Hgood. destruct good as [| g good].
  - exists final_chunks. split; [reflexivity | exact Hfc].
  - cbn [flush].
    destruct (merge_splits_within chunk_size chunk_overlap size_pos
                overlap_nonneg (g :: good) Hgood) as [merged [Hm Hfit]].
    rewrite Hm. cbn [bind]. eexists. split; [reflexivity |].
    apply Forall_app. split; assumption.
Qed.

Lemma split_loop_within recurse (splits : list text) :
  forall final_chunks good,
    Forall fits final_chunks -> Forall short good ->
    recursion_ok recurse splits ->
    exists chunks,
      split_loop chunk_size chunk_overlap recurse final_chunks good splits
      = Ok chunks
      /\ Forall fits chunks.
Proof.
  induction splits as [| s splits IH]; intros fc good Hfc Hgood Hrec.
  - cbn [split_loop]. apply flush_within; assumption.
  - cbn [split_loop].
    pose proof (recursion_fits_tail recurse s splits Hrec) as Htail.
    destruct (Z.ltb_spec (len s) chunk_size) as [Hs | Hs].
    + apply IH; [exact Hfc | | exact Htail].
      apply Forall_app. split; [exact Hgood |].
      constructor; [exact Hs | constructor].
    + destruct (flush_within fc good Hfc Hgood) as [fc' [Hflush Hfc']].
      rewrite Hflush. cbn [bind].
      assert (Hother : exists other,
                 match recurse with
                 | Some f => f s
                 | None => Ok [s]
                 end = Ok other /\ Forall fits other).
      { destruct recurse as [f |].
        - apply Hrec.
        - exists [s]. split; [reflexivity |].
          simpl in Hrec. inversion Hrec. constructor; [assumption | constructor]. }
      destruct Hother as [other [Ho Hfit]]. rewrite Ho. cbn [bind].
      apply IH; [| constructor | exact Htail].
      apply Forall_app. split; assumption.
Qed.

Lemma characters_fit (t : text) :
  Forall fits (_split_text_with_regex t []).
Proof.
  unfold _split_text_with_regex. cbn [truthy].
  apply Forall_forall. intros p Hp.
  apply filter_In in Hp. destruct Hp as [Hp _].
  apply in_map_iff in Hp. destruct Hp as [c [<- _]].
  unfold within, len. simpl. lia.
Qed.

Lemma truthy_false (s : text) : truthy s = false -> s = [].
Proof. destruct s; [reflexivity | discriminate]. Qed.

(** With separators ending in the empty string, [_split_text] returns and
    every chunk fits. *)
Lemma split_text_rec_within (separators : list text) :
  last separators [0%N] = [] ->
  forall t, exists chunks,
      _split_text chunk_size chunk_overlap separators t = Ok chunks
      /\ Forall fits chunks.
Proof.
  induction separators as [| s rest IH]; intros Hlast t.
  - discriminate Hlast.
  - cbn [_split_text].
    destruct (truthy s) eqn:Hs; cbn [negb].
    + assert (Hrest : rest <> []).
      { intros ->. simpl in Hlast. subst s. discriminate Hs. }
      assert (Hlast' : last rest [0%N] = []).
      { destruct rest as [| r rest']; [contradiction | exact Hlast]. }
      destruct (contains s t).
      * apply split_loop_within; [constructor | constructor |].
        destruct rest as [| r rest']; [contradiction |].
        simpl. intros p. apply IH. exact Hlast'.
      * destruct rest as [| r rest']; [contradiction |].
        apply IH. exact Hlast'.
    + apply truthy_false in Hs. subst s.
      apply split_loop_within; [constructor | constructor |].
      simpl. apply characters_fit.
Qed.

End SplitLengths.

(** C2, as the chunker has it. For every chunk size of at least 1, every
    overlap between 0 and the chunk size and every text, the chunker
    returns, and each chunk it returns, the last included, is at most
    [chunk_size] characters long. (Nothing is promised about the characters
    adjacent chunks share: the overlap is made of whole pieces.) *)
Theorem chunks_fit_chunk_size :
  forall (chunk_size chunk_overlap : Z) (t : text),
    (1 <= chunk_size)%Z ->
    (0 <= chunk_overlap <= chunk_size)%Z ->
    exists chunks,
      split_text chunk_size chunk_overlap t = Ok chunks
      /\ Forall (fun c => (len c <= chunk_size)%Z) chunks.
Proof.
  intros S O t HS [HO HOS]. unfold split_text.
  destruct (Z.gtb_spec O S) as [Hgt | _]; [lia |].
  apply (split_text_rec_within S O HS HO separators eq_refl t).
Qed.

Lemma chunks_fit_chunk_size_witness :
  (1 <= 10)%Z /\ (0 <= 4 <= 10)%Z
  /\ exists chunks,
       split_text 10 4 (str "aa bb cc dd ee ff gg hh ii") = Ok chunks
       /\ Forall (fun c => (len c <= 10)%Z) chunks.
Proof.
  assert (H1 : (1 <= 10)%Z) by lia.
  assert (H2 : (0 <= 4 <= 10)%Z) by lia.
  split; [exact H1 |]. split; [exact H2 |].
  exact (chunks_fit_chunk_size 10 4 (str "aa bb cc dd ee ff gg hh ii") H1 H2).
Defined.

(** C2 as stated fails. With chunk size 10 and overlap 4 the second and
    the third chunk of "aa bb cc dd ee ff gg hh ii" share the two characters
    "ee", and the last four characters of the one are not the first four of
    the other. With the sizes the application offers, 500 and 100, the
    2600 characters of "Hello world. " * 200 give seven chunks, and the last
    hundred characters of the third are not the first hundred of the
    fourth. *)
Lemma chunks_overlap_exactly_counterexample :
  split_text 10 4 (str "aa bb cc dd ee ff gg hh ii")
  = Ok [str "aa bb cc"; str "cc dd ee"; str "ee ff gg"; str "gg hh ii"]
  /\ trailing 4 (str "cc dd ee") = str "d ee"
  /\ leading 4 (str "ee ff gg") = str "ee f"
  /\ (exists chunks a b,
        split_text 500 100 (times 200 (str "Hello world. ")) = Ok chunks
        /\ List.length chunks = 7%nat
        /\ nth_error chunks 2 = Some a
        /\ nth_error chunks 3 = Some b
        /\ trailing 100 a <> leading 100 b)
  /\ ~ chunks_overlap_exactly.
Proof.
  assert (Hsplit : split_text 10 4 (str "aa bb cc dd ee ff gg hh ii")
                   = Ok [str "aa bb cc"; str "cc dd ee"; str "ee ff gg";
                         str "gg hh ii"])
    by (vm_compute; reflexivity).
  split; [exact Hsplit |]. split; [reflexivity |]. split; [reflexivity |].
  split.
  - destruct (split_text 500 100 (times 200 (str "Hello world. ")))
      as [chunks | e] eqn:Hbig; [| vm_compute in Hbig; discriminate Hbig].
    vm_compute in Hbig. injection Hbig as <-.
    eexists. eexists. eexists.
    split; [reflexivity |]. split; [reflexivity |].
    split; [reflexivity |]. split; [reflexivity |].
    vm_compute. discriminate.
  - intros Hclaim.
    destruct (Hclaim 10%Z 4%Z (str "aa bb cc dd ee ff gg hh ii") _
                ltac:(lia) ltac:(discriminate) Hsplit) as [_ Hshare].
    specialize (Hshare 1%nat (str "cc dd ee") (str "ee ff gg") eq_refl eq_refl).
    vm_compute in Hshare. discriminate Hshare.
Qed.

(** ** The chunker: splitting loses no character *)

Lemma starts_with_split (p t : text) :
  starts_with p t = true -> p ++ skipn (List.length p) t = t.
Proof.
  revert t. induction p as [| x p IH]; intros t H; [reflexivity |].
  destruct t as [| y t]; [discriminate H |].
  simpl in H. apply andb_prop in H. destruct H as [Hxy Hrest].
  apply N.eqb_eq in Hxy. subst y. simpl. rewrite (IH t Hrest). reflexivity.
Qed.

Lemma re_split_captured_concat (sep : text) :
  sep <> [] ->
  forall (t : text) (skip : nat) (cur : text),
    concat (re_split_captured sep skip cur t) = rev cur ++ skipn skip t.
Proof.
  intros Hsep. induction t as [| c t IH]; intros skip cur.
  - simpl. rewrite skipn_nil, !app_nil_r. reflexivity.
  - destruct skip as [| k].
    + cbn [re_split_captured skipn].
      destruct (starts_with sep (c :: t)) eqn:Hstart.
      * cbn [concat]. rewrite IH. cbn [rev app].
        apply starts_with_split in Hstart.
        destruct sep as [| x sep']; [contradiction |].
        cbn [List.length app skipn] in Hstart. injection Hstart as Hx Ht.
        replace (List.length (x :: sep') - 1)%nat with (List.length sep')
          by (simpl; lia).
        subst x. cbn [app]. rewrite Ht. reflexivity.
      * rewrite IH. cbn [rev skipn]. rewrite <- app_assoc. reflexivity.
    + cbn [re_split_captured skipn]. apply IH.
Qed.

Lemma re_split_captured_odd (sep : text) :
  forall (t : text) (skip : nat) (cur : text),
    Nat.odd (List.length (re_split_captured sep skip cur t)) = true.
Proof.
  induction t as [| c t IH]; intros skip cur; [reflexivity |].
  destruct skip as [| k]; cbn [re_split_captured].
  - destruct (starts_with sep (c :: t)).
    + cbn [List.length]. rewrite Nat.odd_succ, Nat.even_succ. apply IH.
    + apply IH.
  - apply IH.
Qed.

Lemma concat_pairs_concat (n : nat) :
  forall l : list text,
    List.length l = (2 * n)%nat -> concat (concat_pairs l) = concat l.
Proof.
  induction n as [| n IH]; intros l Hl.
  - destruct l; [reflexivity | discriminate Hl].
  - destruct l as [| a [| b l]]; try (simpl in Hl; lia).
    cbn [concat_pairs concat]. rewrite IH by (simpl in Hl; lia).
    rewrite app_assoc. reflexivity.
Qed.

Lemma concat_filter_truthy (l : list text) :
  concat (filter truthy l) = concat l.
Proof.
  induction l as [| p l IH]; [reflexivity |].
  cbn [filter]. destruct p as [| c p]; cbn [truthy concat].
  - exact IH.
  - rewrite IH. reflexivity.
Qed.

Lemma concat_characters (t : text) : concat (map (fun c => [c]) t) = t.
Proof. induction t as [| c t IH]; simpl; [| rewrite IH]; reflexivity. Qed.

(** The pieces [_split_text_with_regex] returns are the text, cut. *)
Lemma split_with_regex_concat (t separator : text) :
  concat (_split_text_with_regex t separator) = t.
Proof.
  unfold _split_text_with_regex. rewrite concat_filter_truthy.
  destruct separator as [| x sep'].
  - cbn [truthy]. apply concat_characters.
  - cbn [truthy].
    pose proof (re_split_captured_concat (x :: sep') ltac:(discriminate)
                  t 0 []) as Hc.
    pose proof (re_split_captured_odd (x :: sep') t 0 []) as Hodd.
    destruct (re_split_captured (x :: sep') 0 [] t) as [| first rest].
    + discriminate Hodd.
    + cbn [List.length] in Hodd. rewrite Nat.odd_succ in Hodd.
      apply Nat.even_spec in Hodd. destruct Hodd as [n Hn].
      cbn [concat] in *. rewrite (concat_pairs_concat n rest Hn). exact Hc.
Qed.

Lemma split_with_regex_truthy (t separator : text) :
  Forall (fun p => truthy p = true) (_split_text_with_regex t separator).
Proof.
  unfold _split_text_with_regex. apply Forall_forall. intros p Hp.
  apply filter_In in Hp. tauto.
Qed.

(** ** The chunker: a text that fits in one chunk *)

Lemma truthy_len (p : text) : truthy p = true -> (1 <= len p)%Z.
Proof. destruct p; [discriminate |]. intros _. unfold len. simpl. lia. Qed.

Lemma piece_le_total (x : text) (pieces : list text) :
  In x pieces -> (len x <= total_len pieces)%Z.
Proof.
  induction pieces as [| p rest IH]; simpl; [tauto |].
  pose proof (len_nonneg p) as Hp. pose proof (total_len_nonneg rest) as Hr.
  intros [-> | Hin]; [lia | specialize (IH Hin); lia].
Qed.

Section OneChunk.

Variables chunk_size chunk_overlap : Z.
Hypothesis overlap_nonneg : (0 <= chunk_overlap)%Z.

Variable t : text.
Hypothesis t_fits : (len t <= chunk_size)%Z.
Hypothesis t_not_empty : t <> [].
Hypothesis t_stripped : strip t = t.

(** While everything still fits, [_merge_splits] only appends. *)
Lemma merge_loop_appends (splits : list text) :
  forall st,
    (total st + total_len splits <= chunk_size)%Z ->
    merge_loop chunk_size chunk_overlap [] st splits
    = Ok {| docs := docs st;
            current_doc := current_doc st ++ splits;
            total := (total st + total_len splits)%Z |}.
Proof.
  induction splits as [| d splits IH]; intros st Hfit.
  - cbn [merge_loop total_len]. rewrite app_nil_r, Z.add_0_r.
    destruct st; reflexivity.
  - cbn [merge_loop total_len] in *.
    pose proof (total_len_nonneg splits) as Hnn.
    unfold merge_step. change (len []) with 0%Z.
    assert (Hz : forall n : nat, (if (0 <? n)%nat then 0%Z else 0%Z) = 0%Z)
      by (intros n; destruct (0 <? n)%nat; reflexivity).
    assert (Hz1 : forall n : nat, (if (1 <? n)%nat then 0%Z else 0%Z) = 0%Z)
      by (intros n; destruct (1 <? n)%nat; reflexivity).
    rewrite Hz.
    destruct (Z.gtb_spec (total st + len d + 0) chunk_size) as [Hbig | _];
      [lia |].
    cbn [bind]. cbv zeta. rewrite Hz1.
    rewrite IH by (cbn [total]; lia).
    cbn [docs current_doc total]. rewrite <- app_assoc. cbn [app].
    f_equal. f_equal. lia.
Qed.

Lemma merge_splits_whole (pieces : list text) :
  concat pieces = t ->
  _merge_splits chunk_size chunk_overlap pieces [] = Ok [t].
Proof.
  intros Hc. unfold _merge_splits.
  rewrite merge_loop_appends
    by (cbn [total]; rewrite <- len_concat, Hc; lia).
  cbn [bind]. unfold emit. cbn [docs current_doc app].
  unfold _join_docs. rewrite join_nil_concat, Hc, t_stripped.
  destruct t; [contradiction | reflexivity].
Qed.

Lemma split_loop_all_short recurse (pieces : list text) :
  Forall (small chunk_size) pieces ->
  forall final_chunks good,
    split_loop chunk_size chunk_overlap recurse final_chunks good pieces
    = flush chunk_size chunk_overlap final_chunks (good ++ pieces).
Proof.
  induction 1 as [| p pieces Hp _ IH]; intros fc good.
  - cbn [split_loop]. rewrite app_nil_r. reflexivity.
  - cbn [split_loop]. unfold small in Hp.
    destruct (Z.ltb_spec (len p) chunk_size) as [_ | Hge]; [| lia].
    rewrite IH, <- app_assoc. reflexivity.
Qed.

(** Several non-empty pieces of a text that fits are all short. *)
Lemma pieces_short (p q : text) (rest : list text) :
  concat (p :: q :: rest) = t ->
  Forall (fun x => truthy x = true) (p :: q :: rest) ->
  Forall (small chunk_size) (p :: q :: rest).
Proof.
  intros Hc Htruthy.
  assert (Htot : total_len (p :: q :: rest) = len t)
    by (rewrite <- len_concat, Hc; reflexivity).
  inversion Htruthy as [| ? ? Hp Hrest]; subst.
  inversion Hrest as [| ? ? Hq _]; subst.
  apply truthy_len in Hp, Hq.
  cbn [total_len] in Htot. pose proof (total_len_nonneg rest) as Hnn.
  constructor; [unfold small; lia |].
  apply Forall_forall. intros x Hx.
  pose proof (piece_le_total x (q :: rest) Hx) as Hle.
  cbn [total_len] in Hle. unfold small. lia.
Qed.

(** The loop of [_split_text] on the pieces of [t]: one chunk, [t]. *)
Lemma split_loop_whole recurse (pieces : list text) :
  concat pieces = t ->
  Forall (fun x => truthy x = true) pieces ->
  (forall f, recurse = Some f -> f t = Ok [t]) ->
  split_loop chunk_size chunk_overlap recurse [] [] pieces = Ok [t].
Proof.
  intros Hc Htruthy Hrec.
  destruct pieces as [| p [| q rest]].
  - simpl in Hc. congruence.
  - cbn [concat] in Hc. rewrite app_nil_r in Hc. subst p.
    cbn [split_loop].
    destruct (Z.ltb_spec (len t) chunk_size) as [Hshort | Hfull].
    + cbn [app flush].
      rewrite (merge_splits_whole [t]) by (cbn; apply app_nil_r).
      reflexivity.
    + cbn [flush bind].
      destruct recurse as [f |].
      * rewrite (Hrec f eq_refl). reflexivity.
      * reflexivity.
  - rewrite split_loop_all_short by (apply pieces_short; assumption).
    cbn [app flush]. rewrite (merge_splits_whole _ Hc). reflexivity.
Qed.

Lemma split_text_rec_whole (separators : list text) :
  last separators [0%N] = [] ->
  _split_text chunk_size chunk_overlap separators t = Ok [t].
Proof.
  induction separators as [| s rest IH]; intros Hlast.
  - discriminate Hlast.
  - cbn [_split_text].
    destruct (truthy s) eqn:Hs; cbn [negb].
    + assert (Hrest : rest <> []).
      { intros ->. simpl in Hlast. subst s. discriminate Hs. }
      destruct rest as [| r rest']; [contradiction |].
      specialize (IH Hlast).
      destruct (contains s t); [| exact IH].
      apply split_loop_whole.
      * apply split_with_regex_concat.
      * apply split_with_regex_truthy.
      * intros f Hf. injection Hf as <-. exact IH.
    + apply split_loop_whole.
      * apply split_with_regex_concat.
      * apply split_with_regex_truthy.
      * intros f Hf. discriminate Hf.
Qed.

End OneChunk.

(** A text with no whitespace at either end that is at most [chunk_size]
    characters long comes back as one chunk, the text itself. *)
Lemma one_chunk_exact (chunk_size chunk_overlap : Z) (t : text) :
  (0 <= chunk_overlap <= chunk_size)%Z ->
  (len t <= chunk_size)%Z ->
  t <> [] ->
  strip t = t ->
  split_text chunk_size chunk_overlap t = Ok [t].
Proof.
  intros [HO HOS] Hfit Hne Hstrip.
  unfold split_text.
  destruct (Z.gtb_spec chunk_overlap chunk_size) as [Hgt | _]; [lia |].
  apply (split_text_rec_whole chunk_size chunk_overlap t Hfit Hne Hstrip
           separators eq_refl).
Qed.

(** C3 as stated fails. With the default sizes, 1000 and 200, a text that
    ends with a line break, "hello" and a newline, comes back as the single
    chunk "hello": the line break is gone. With chunk size 7 and overlap 2
    the eleven characters of "aaa bbb ccc" come back as "aaa bbb" and
    "ccc"; the space between them is gone, and whatever is taken as
    duplicated, what the two chunks reassemble to has at most ten
    characters. *)
Lemma chunks_reassemble_text_counterexample :
  split_text 1000 200 (str "hello" ++ [10%N]) = Ok [str "hello"]
  /\ (forall r, reassembles [str "hello"] r -> r = str "hello")
  /\ split_text 7 2 (str "aaa bbb ccc") = Ok [str "aaa bbb"; str "ccc"]
  /\ len (str "aaa bbb ccc") = 11%Z
  /\ (forall t, reassembles [str "aaa bbb"; str "ccc"] t -> (len t <= 10)%Z)
  /\ ~ chunks_reassemble_text.
Proof.
  assert (Hline : split_text 1000 200 (str "hello" ++ [10%N]) = Ok [str "hello"])
    by (vm_compute; reflexivity).
  assert (Hone : forall r, reassembles [str "hello"] r -> r = str "hello").
  { intros r H. inversion H. reflexivity. }
  assert (Hsplit : split_text 7 2 (str "aaa bbb ccc")
                   = Ok [str "aaa bbb"; str "ccc"])
    by (vm_compute; reflexivity).
  assert (Hshort : forall t, reassembles [str "aaa bbb"; str "ccc"] t ->
                             (len t <= 10)%Z).
  { intros t H. inversion H as [| | a b rest dup t' Hdup Hrest]; subst.
    inversion Hrest as [| c Hc Hccc |].
    rewrite len_app.
    assert (Hlen : (len (dup ++ t') = 3)%Z) by (rewrite <- Hccc; reflexivity).
    rewrite len_app in Hlen. pose proof (len_nonneg dup).
    change (len (str "aaa bbb")) with 7%Z. lia. }
  split; [exact Hline |]. split; [exact Hone |].
  split; [exact Hsplit |]. split; [reflexivity |]. split; [exact Hshort |].
  intros Hclaim.
  pose proof (Hclaim 1000%Z 200%Z (str "hello" ++ [10%N]) _
                ltac:(lia) ltac:(vm_compute; discriminate) Hline) as Hre.
  apply Hone in Hre. discriminate Hre.
Qed.

(** ** Whitespace and stripping *)

Lemma squash_app (a b : text) : squash (a ++ b) = squash a ++ squash b.
Proof. apply filter_app. Qed.

Lemma squash_lstrip (t : text) : squash (lstrip t) = squash t.
Proof.
  induction t as [| c t IH]; [reflexivity |].
  cbn [lstrip]. destruct (isspace c) eqn:Hc.
  - rewrite IH. unfold squash. cbn [filter]. rewrite Hc. reflexivity.
  - reflexivity.
Qed.

Lemma squash_rstrip (t : text) : squash (rstrip t) = squash t.
Proof.
  unfold rstrip, squash. rewrite filter_rev.
  fold (squash (lstrip (rev t))). rewrite squash_lstrip.
  unfold squash. rewrite filter_rev, rev_involutive. reflexivity.
Qed.

Lemma squash_strip (t : text) : squash (strip t) = squash t.
Proof. unfold strip. rewrite squash_rstrip. apply squash_lstrip. Qed.

Lemma squash_nil_spaces (t : text) :
  squash t = [] -> forallb isspace t = true.
Proof.
  induction t as [| c t IH]; [reflexivity |].
  unfold squash. cbn [filter forallb].
  destruct (isspace c); cbn [negb andb]; [exact IH | discriminate].
Qed.

Lemma lstrip_spaces (t : text) : forallb isspace t = true -> lstrip t = [].
Proof.
  induction t as [| c t IH]; [reflexivity |].
  cbn [forallb lstrip]. destruct (isspace c); [exact IH | discriminate].
Qed.

Lemma strip_spaces (t : text) : squash t = [] -> strip t = [].
Proof.
  intros H. unfold strip.
  rewrite (lstrip_spaces t (squash_nil_spaces t H)). reflexivity.
Qed.

Lemma lstrip_app (a b : text) :
  lstrip (a ++ b) = if forallb isspace a then lstrip b else lstrip a ++ b.
Proof.
  induction a as [| c a IH]; [reflexivity |].
  cbn [app lstrip forallb]. destruct (isspace c); [exact IH | reflexivity].
Qed.

Lemma forallb_rev (f : N -> bool) (t : text) :
  forallb f (rev t) = forallb f t.
Proof.
  induction t as [| c t IH]; [reflexivity |].
  cbn [rev forallb]. rewrite forallb_app, IH. cbn [forallb].
  rewrite andb_true_r. apply andb_comm.
Qed.

Lemma rstrip_app (a b : text) :
  rstrip (a ++ b) = if forallb isspace b then rstrip a else a ++ rstrip b.
Proof.
  unfold rstrip. rewrite rev_app_distr, lstrip_app, forallb_rev.
  destruct (forallb isspace b); [reflexivity |].
  rewrite rev_app_distr, rev_involutive. reflexivity.
Qed.

(** [lstrip] removes a prefix, [rstrip] a suffix. *)
Lemma lstrip_suffix (t : text) : exists ws, t = ws ++ lstrip t.
Proof.
  induction t as [| c t [ws IH]].
  - exists []. reflexivity.
  - cbn [lstrip]. destruct (isspace c).
    + exists (c :: ws). cbn [app]. rewrite <- IH. reflexivity.
    + exists []. reflexivity.
Qed.

Lemma rstrip_prefix (t : text) : exists ws, t = rstrip t ++ ws.
Proof.
  unfold rstrip. destruct (lstrip_suffix (rev t)) as [ws H].
  exists (rev ws).
  rewrite <- rev_app_distr, <- H, rev_involutive. reflexivity.
Qed.

Lemma lstrip_not_spaces (t : text) :
  forallb isspace t = false -> forallb isspace (lstrip t) = false.
Proof.
  induction t as [| c t IH]; [discriminate |].
  cbn [forallb lstrip]. destruct (isspace c) eqn:Hc.
  - exact IH.
  - intros _. cbn [forallb]. rewrite Hc. reflexivity.
Qed.

(** The stripped text of a beginning is the beginning of the stripped
    text. *)
Lemma strip_app_head (v w : text) :
  exists tail, strip (v ++ w) = strip v ++ tail.
Proof.
  unfold strip. rewrite lstrip_app.
  destruct (forallb isspace v) eqn:Hv.
  - rewrite (lstrip_spaces v Hv). exists (rstrip (lstrip w)). reflexivity.
  - rewrite rstrip_app. destruct (forallb isspace w).
    + exists []. rewrite app_nil_r. reflexivity.
    + destruct (rstrip_prefix (lstrip v)) as [ws Hws].
      exists (ws ++ rstrip w). rewrite app_assoc, <- Hws. reflexivity.
Qed.

(** The stripped text of an end is the end of the stripped text. *)
Lemma strip_app_tail (x v : text) :
  exists head, strip (x ++ v) = head ++ strip v.
Proof.
  unfold strip. rewrite lstrip_app.
  destruct (forallb isspace x) eqn:Hx.
  - exists []. reflexivity.
  - rewrite rstrip_app. destruct (forallb isspace v) eqn:Hv.
    + rewrite (lstrip_spaces v Hv). exists (rstrip (lstrip x)).
      rewrite app_nil_r. reflexivity.
    + destruct (lstrip_suffix v) as [ws Hws].
      exists (lstrip x ++ ws).
      rewrite Hws at 1. rewrite rstrip_app.
      rewrite (lstrip_not_spaces v Hv). rewrite app_assoc. reflexivity.
Qed.

Lemma trailing_app (head s : text) :
  trailing (List.length s) (head ++ s) = s.
Proof.
  unfold trailing. rewrite length_app.
  replace (List.length head + List.length s - List.length s)%nat
    with (List.length head) by lia.
  rewrite skipn_app, skipn_all, Nat.sub_diag. reflexivity.
Qed.

(** ** The chunker: what the chunks reassemble to *)

Lemma reassembles_snoc (chunks : list text) (r : text) :
  reassembles chunks r ->
  forall (ds : list text) (l dup tail : text),
    chunks = ds ++ [l] ->
    trailing (List.length dup) l = dup ->
    reassembles (chunks ++ [dup ++ tail]) (r ++ tail).
Proof.
  induction 1 as [| c | a b rest dup0 t Hdup0 Hrest IH];
    intros ds l dup tail Hlast Hdup.
  - destruct ds; discriminate Hlast.
  - destruct ds as [| x ds]; [| destruct ds; discriminate Hlast].
    injection Hlast as ->.
    cbn [app]. apply reassembles_cons with (dup := dup); [exact Hdup |].
    apply reassembles_one.
  - destruct ds as [| x ds]; [discriminate Hlast |].
    injection Hlast as -> Hlast.
    cbn [app]. rewrite <- app_assoc.
    apply reassembles_cons with (dup := dup0); [exact Hdup0 |].
    rewrite app_assoc. apply (IH ds l dup tail Hlast Hdup).
Qed.

Lemma reassembles_app (a b : list text) (ra rb : text) :
  reassembles a ra -> reassembles b rb -> reassembles (a ++ b) (ra ++ rb).
Proof.
  induction 1 as [| c | x y rest dup t Hdup Hrest IH]; intros Hb.
  - exact Hb.
  - destruct Hb as [| c' | x y rest dup t Hdup Hrest].
    + rewrite !app_nil_r. apply reassembles_one.
    + cbn [app]. apply reassembles_cons with (dup := []).
      * unfold trailing. cbn [List.length]. rewrite Nat.sub_0_r.
        apply skipn_all.
      * apply reassembles_one.
    + cbn [app]. apply reassembles_cons with (dup := []).
      * unfold trailing. cbn [List.length]. rewrite Nat.sub_0_r.
        apply skipn_all.
      * cbn [app]. apply reassembles_cons with (dup := dup); assumption.
  - cbn [app]. rewrite <- app_assoc.
    apply reassembles_cons with (dup := dup); [exact Hdup |].
    rewrite app_assoc. apply IH. exact Hb.
Qed.

Lemma covers_app (a b : list text) (x y : text) :
  covers a x -> covers b y -> covers (a ++ b) (x ++ y).
Proof.
  intros [ra [Ha Hsa]] [rb [Hb Hsb]]. exists (ra ++ rb). split.
  - apply reassembles_app; assumption.
  - rewrite !squash_app, Hsa, Hsb. reflexivity.
Qed.

Lemma covers_nil : covers [] [].
Proof. exists []. split; [constructor | reflexivity]. Qed.

Lemma covers_one (c : text) : covers [c] c.
Proof. exists c. split; [constructor | reflexivity]. Qed.

Lemma pop_front_suffix (chunk_size chunk_overlap separator_len _len : Z)
      (current_doc : list text) :
  forall total total' rest,
    pop_front chunk_size chunk_overlap separator_len _len total current_doc
    = Ok (total', rest) ->
    exists dropped, current_doc = dropped ++ rest.
Proof.
  induction current_doc as [| d0 cur IH]; intros total total' rest H.
  - cbn [pop_front] in H.
    destruct (keep_popping _ _ _ _ _ _); [discriminate H |].
    injection H as _ <-. exists []. reflexivity.
  - cbn [pop_front] in H.
    destruct (keep_popping _ _ _ _ _ _).
    + destruct (IH _ _ _ H) as [dropped Hd]. exists (d0 :: dropped).
      rewrite Hd. reflexivity.
    + injection H as _ <-. exists []. reflexivity.
Qed.

Lemma emit_unfold (st : merge_state) :
  emit st [] =
  match strip (concat (current_doc st)) with
  | [] => docs st
  | doc => docs st ++ [doc]
  end.
Proof.
  unfold emit, _join_docs. rewrite join_nil_concat.
  destruct (strip (concat (current_doc st))); reflexivity.
Qed.

(** Emitting the chunk held and keeping a suffix of its pieces. *)
Lemma emit_overlap_inv (st : merge_state) (processed dropped rest : list text)
      (tot : Z) :
  overlap_inv st processed ->
  current_doc st = dropped ++ rest ->
  overlap_inv {| docs := emit st []; current_doc := rest; total := tot |}
              processed.
Proof.
  intros [base [kept [fresh [r [Hproc [Hcur [Hre [Hsq Hlast]]]]]]]] Hsplit.
  assert (Hcat : concat (current_doc st) = concat kept ++ concat fresh)
    by (rewrite Hcur; apply concat_app).
  assert (Hcat' : concat (current_doc st) = concat dropped ++ concat rest)
    by (rewrite Hsplit; apply concat_app).
  assert (Hproc' : processed = (base ++ dropped) ++ rest ++ []).
  { rewrite Hproc, <- Hcur, Hsplit, app_nil_r, app_assoc. reflexivity. }
  assert (Htarget : squash (concat (base ++ dropped) ++ concat rest)
                    = squash (concat base) ++ squash (concat (current_doc st))).
  { rewrite concat_app, <- app_assoc, <- Hcat', squash_app. reflexivity. }
  exists (base ++ dropped), rest, [].
  rewrite emit_unfold. cbn [docs current_doc].
  destruct (strip (concat (current_doc st))) as [| c0 doc0] eqn:Hdoc.
  - (* nothing but whitespace is held: no chunk *)
    assert (Hws : squash (concat (current_doc st)) = [])
      by (rewrite <- squash_strip, Hdoc; reflexivity).
    assert (Hkept : squash (concat kept) = []).
    { rewrite Hcat, squash_app in Hws. apply app_eq_nil in Hws. tauto. }
    assert (Hrest : squash (concat rest) = []).
    { rewrite Hcat', squash_app in Hws. apply app_eq_nil in Hws. tauto. }
    exists r. split; [exact Hproc' |]. split; [symmetry; apply app_nil_r |].
    split; [exact Hre |]. split.
    + rewrite Htarget, Hws, Hsq, squash_app, Hkept. reflexivity.
    + destruct Hlast as [Hnil | [ds [head Hds]]]; [left; exact Hnil |].
      right. exists ds, (head ++ strip (concat kept)).
      rewrite (strip_spaces _ Hrest), app_nil_r. exact Hds.
  - (* a chunk is emitted *)
    set (doc := c0 :: doc0) in *.
    assert (Hsqdoc : squash doc = squash (concat (current_doc st)))
      by (rewrite <- Hdoc; apply squash_strip).
    destruct (strip_app_tail (concat dropped) (concat rest)) as [head Hhead].
    rewrite <- Hcat', Hdoc in Hhead.
    destruct Hlast as [Hnil | [ds [head0 Hds]]].
    + rewrite Hnil in *. inversion Hre; subst.
      exists doc. split; [exact Hproc' |]. split; [symmetry; apply app_nil_r |].
      split; [apply reassembles_one |]. split.
      * rewrite Htarget, Hsqdoc.
        cbn [squash filter] in Hsq. symmetry in Hsq.
        rewrite squash_app in Hsq. apply app_eq_nil in Hsq.
        destruct Hsq as [Hb _]. rewrite Hb. reflexivity.
      * right. exists [], head. cbn [app]. rewrite Hhead. reflexivity.
    + destruct (strip_app_head (concat kept) (concat fresh)) as [tail Htail].
      rewrite <- Hcat, Hdoc in Htail.
      assert (Hsqtail : squash tail = squash (concat fresh)).
      { pose proof Hsqdoc as E. rewrite Htail, Hcat in E.
        rewrite !squash_app, squash_strip in E.
        apply app_inv_head in E. exact E. }
      exists (r ++ tail). split; [exact Hproc' |].
      split; [symmetry; apply app_nil_r |]. split.
      * rewrite Htail.
        apply (reassembles_snoc _ _ Hre ds (head0 ++ strip (concat kept))
                 (strip (concat kept)) tail Hds).
        apply trailing_app.
      * split.
        -- rewrite Htarget, squash_app, Hsq, Hsqtail, Hcat, !squash_app.
           rewrite app_assoc. reflexivity.
        -- right. exists (docs st), head. rewrite Hhead. reflexivity.
Qed.

Lemma append_overlap_inv (st : merge_state) (processed : list text)
      (d : text) (tot : Z) :
  overlap_inv st processed ->
  overlap_inv {| docs := docs st; current_doc := current_doc st ++ [d];
                 total := tot |}
              (processed ++ [d]).
Proof.
  intros [base [kept [fresh [r [Hproc [Hcur [Hre [Hsq Hlast]]]]]]]].
  exists base, kept, (fresh ++ [d]), r. cbn [docs current_doc].
  split; [rewrite Hproc, <- !app_assoc; reflexivity |].
  split; [rewrite Hcur, <- app_assoc; reflexivity |].
  split; [exact Hre |]. split; [exact Hsq | exact Hlast].
Qed.

Section Coverage.

Variables chunk_size chunk_overlap : Z.

Lemma merge_step_overlap_inv (st st' : merge_state) (processed : list text)
      (d : text) :
  merge_step chunk_size chunk_overlap [] st d = Ok st' ->
  overlap_inv st processed ->
  overlap_inv st' (processed ++ [d]).
Proof.
  unfold merge_step. intros Hstep Hinv.
  destruct (_ >? chunk_size)%Z.
  - destruct (0 <? List.length (current_doc st))%nat.
    + destruct (pop_front chunk_size chunk_overlap (len []) (len d) (total st)
                  (current_doc st)) as [[total' rest] | e] eqn:Hpop;
        [| discriminate Hstep].
      destruct (pop_front_suffix _ _ _ _ _ _ _ _ Hpop) as [dropped Hdrop].
      cbn [bind fst snd] in Hstep. injection Hstep as <-.
      cbn [docs current_doc total].
      apply (append_overlap_inv
               {| docs := emit st []; current_doc := rest; total := total' |}).
      apply (emit_overlap_inv st processed dropped rest total' Hinv Hdrop).
    + cbn [bind] in Hstep. injection Hstep as <-.
      apply append_overlap_inv. exact Hinv.
  - cbn [bind] in Hstep. injection Hstep as <-.
    apply append_overlap_inv. exact Hinv.
Qed.

Lemma merge_loop_overlap_inv (splits : list text) :
  forall (st st' : merge_state) (processed : list text),
    merge_loop chunk_size chunk_overlap [] st splits = Ok st' ->
    overlap_inv st processed ->
    overlap_inv st' (processed ++ splits).
Proof.
  induction splits as [| d splits IH]; intros st st' processed Hloop Hinv.
  - cbn [merge_loop] in Hloop. injection Hloop as <-.
    rewrite app_nil_r. exact Hinv.
  - cbn [merge_loop] in Hloop.
    destruct (merge_step chunk_size chunk_overlap [] st d) as [st1 | e]
      eqn:Hstep; [| discriminate Hloop].
    cbn [bind] in Hloop.
    replace (processed ++ d :: splits) with ((processed ++ [d]) ++ splits)
      by (rewrite <- app_assoc; reflexivity).
    apply (IH st1 st' _ Hloop).
    apply (merge_step_overlap_inv st st1 processed d Hstep Hinv).
Qed.

(** The chunks [_merge_splits] returns give the pieces back up to
    whitespace. *)
Lemma merge_splits_covers (splits chunks : list text) :
  _merge_splits chunk_size chunk_overlap splits [] = Ok chunks ->
  covers chunks (concat splits).
Proof.
  unfold _merge_splits. intros H.
  destruct (merge_loop chunk_size chunk_overlap []
              {| docs := []; current_doc := []; total := 0 |} splits)
    as [st | e] eqn:Hloop; [| discriminate H].
  cbn [bind] in H. injection H as <-.
  assert (Hinit : overlap_inv {| docs := []; current_doc := []; total := 0 |} []).
  { exists [], [], [], []. cbn. repeat split; try reflexivity.
    - constructor.
    - left. reflexivity. }
  pose proof (merge_loop_overlap_inv splits _ st [] Hloop Hinit) as Hinv.
  cbn [app] in Hinv.
  pose proof (emit_overlap_inv st splits (current_doc st) [] 0 Hinv
                (eq_sym (app_nil_r _))) as Hfinal.
  destruct Hfinal as [base [kept [fresh [r [Hproc [Hcur [Hre [Hsq _]]]]]]]].
  cbn [docs current_doc] in *.
  symmetry in Hcur. apply app_eq_nil in Hcur. destruct Hcur as [-> ->].
  rewrite !app_nil_r in Hproc. subst base.
  exists r. split; [exact Hre |].
  rewrite Hsq. cbn [concat]. rewrite app_nil_r. reflexivity.
Qed.

Lemma flush_covers (final_chunks good chunks : list text) (x : text) :
  flush chunk_size chunk_overlap final_chunks good = Ok chunks ->
  covers final_chunks x ->
  covers chunks (x ++ concat good).
Proof.
  intros H Hfc. destruct good as [| g good].
  - cbn [flush] in H. injection H as <-.
    cbn [concat]. rewrite app_nil_r. exact Hfc.
  - cbn [flush] in H.
    destruct (_merge_splits chunk_size chunk_overlap (g :: good) [])
      as [merged | e] eqn:Hm; [| discriminate H].
    cbn [bind] in H. injection H as <-.
    apply covers_app; [exact Hfc |].
    apply (merge_splits_covers _ _ Hm).
Qed.

Lemma split_loop_covers recurse (splits : list text) :
  (forall f p chunks, recurse = Some f -> f p = Ok chunks -> covers chunks p) ->
  forall (final_chunks good chunks : list text) (x : text),
    split_loop chunk_size chunk_overlap recurse final_chunks good splits
    = Ok chunks ->
    covers final_chunks x ->
    covers chunks (x ++ concat good ++ concat splits).
Proof.
  intros Hrec.
  induction splits as [| s splits IH]; intros fc good chunks x H Hfc.
  - cbn [split_loop] in H. cbn [concat]. rewrite app_nil_r.
    apply (flush_covers fc good chunks x H Hfc).
  - cbn [split_loop] in H.
    destruct (len s <? chunk_size)%Z.
    + specialize (IH fc (good ++ [s]) chunks x H Hfc).
      rewrite concat_app in IH. cbn [concat] in IH.
      rewrite app_nil_r, <- app_assoc in IH. exact IH.
    + destruct (flush chunk_size chunk_overlap fc good) as [fc' | e]
        eqn:Hflush; [| discriminate H].
      cbn [bind] in H.
      pose proof (flush_covers fc good fc' x Hflush Hfc) as Hfc'.
      assert (Hother : forall other,
                 match recurse with
                 | Some f => f s
                 | None => Ok [s]
                 end = Ok other -> covers other s).
      { intros other Ho. destruct recurse as [f |].
        - apply (Hrec f s other eq_refl Ho).
        - injection Ho as <-. apply covers_one. }
      destruct (match recurse with
                | Some f => f s
                | None => Ok [s]
                end) as [other | e] eqn:Ho; [| discriminate H].
      cbn [bind] in H.
      specialize (IH (fc' ++ other) [] chunks ((x ++ concat good) ++ s) H
                    (covers_app _ _ _ _ Hfc' (Hother other eq_refl))).
      cbn [concat app] in IH. rewrite <- !app_assoc in IH.
      cbn [concat]. exact IH.
Qed.

Lemma split_text_rec_covers (separators : list text) :
  forall (t : text) (chunks : list text),
    _split_text chunk_size chunk_overlap separators t = Ok chunks ->
    covers chunks t.
Proof.
  induction separators as [| s rest IH]; intros t chunks H.
  - discriminate H.
  - cbn [_split_text] in H.
    assert (Hloop : forall recurse,
               (forall f p cs, recurse = Some f -> f p = Ok cs -> covers cs p) ->
               split_loop chunk_size chunk_overlap recurse [] []
                          (_split_text_with_regex t s) = Ok chunks ->
               covers chunks t).
    { intros recurse Hrec Hl.
      pose proof (split_loop_covers recurse _ Hrec [] [] chunks [] Hl covers_nil)
        as Hc.
      cbn [concat app] in Hc. rewrite split_with_regex_concat in Hc. exact Hc. }
    destruct (negb (truthy s)).
    + apply (Hloop None); [intros f p cs Hf; discriminate Hf | exact H].
    + destruct (contains s t).
      * destruct rest as [| r rest'].
        -- apply (Hloop None); [intros f p cs Hf; discriminate Hf | exact H].
        -- apply (Hloop (Some (_split_text chunk_size chunk_overlap (r :: rest'))));
             [| exact H].
           intros f p cs Hf Hp. injection Hf as <-. apply (IH p cs Hp).
      * destruct rest as [| r rest'].
        -- apply (Hloop None); [intros f p cs Hf; discriminate Hf | exact H].
        -- apply (IH t chunks H).
Qed.

End Coverage.

(** C3, as the chunker has it. For every chunk size of at least 1, every
    overlap between 0 and the chunk size and every text, the chunker
    returns chunks that give the text back up to whitespace: removing from
    each chunk after the first a region that repeats the end of its
    predecessor and concatenating yields a text with the non-whitespace
    characters of the original, in the same order. The text is given back
    exactly when it has no whitespace at either end and fits in one
    chunk. *)
Theorem chunks_reassemble_up_to_whitespace :
  forall (chunk_size chunk_overlap : Z) (t : text),
    (1 <= chunk_size)%Z ->
    (0 <= chunk_overlap <= chunk_size)%Z ->
    exists chunks,
      split_text chunk_size chunk_overlap t = Ok chunks
      /\ (exists r, reassembles chunks r /\ squash r = squash t)
      /\ ((len t <= chunk_size)%Z -> t <> [] -> strip t = t ->
          chunks = [t] /\ reassembles chunks t).
Proof.
  intros S O t HS HO.
  assert (Hrec : split_text S O t = _split_text S O separators t).
  { unfold split_text.
    destruct (Z.gtb_spec O S) as [Hgt | _]; [lia | reflexivity]. }
  destruct (split_text_rec_within S O HS (proj1 HO) separators eq_refl t)
    as [chunks [Hsplit _]].
  exists chunks. rewrite Hrec. split; [exact Hsplit |]. split.
  - apply (split_text_rec_covers S O separators t chunks Hsplit).
  - intros Hfit Hne Hstrip.
    pose proof (one_chunk_exact S O t HO Hfit Hne Hstrip) as Hone.
    rewrite Hrec, Hsplit in Hone. injection Hone as ->.
    split; [reflexivity | apply reassembles_one].
Qed.

Lemma chunks_reassemble_up_to_whitespace_witness :
  (1 <= 7)%Z /\ (0 <= 2 <= 7)%Z
  /\ exists chunks,
       split_text 7 2 (str "aaa bbb ccc") = Ok chunks
       /\ exists r, reassembles chunks r
                    /\ squash r = squash (str "aaa bbb ccc").
Proof.
  assert (H1 : (1 <= 7)%Z) by lia.
  assert (H2 : (0 <= 2 <= 7)%Z) by lia.
  split; [exact H1 |]. split; [exact H2 |].
  destruct (chunks_reassemble_up_to_whitespace 7 2 (str "aaa bbb ccc") H1 H2)
    as [chunks [Hsplit [Hcov _]]].
  exists chunks. split; [exact Hsplit | exact Hcov].
Defined.

(* ================================================================== *)
(** * Part III. Further properties of the code                         *)
(* ================================================================== *)

Import DocumentInfo Vocabulary.

(** ** File names and formats *)

Lemma string_app_assoc (a b c : string) :
  ((a ++ b) ++ c = a ++ (b ++ c))%string.
Proof.
  induction a as [| x a IH]; simpl; [reflexivity | rewrite IH; reflexivity].
Qed.

Lemma last_segment_no_dot (s : string) :
  has_no_dot s = true ->
  forall cur, last_segment cur s = (cur ++ s)%string.
Proof.
  induction s as [| c s IH]; intros Hs cur; simpl in *.
  - induction cur as [| x cur IHc]; simpl; [reflexivity | rewrite <- IHc; reflexivity].
  - apply andb_prop in Hs. destruct Hs as [Hc Hs].
    apply negb_true_iff in Hc. rewrite Hc.
    rewrite (IH Hs). rewrite string_app_assoc. reflexivity.
Qed.

Lemma last_segment_after_dot (stem rest : string) :
  forall cur,
    last_segment cur (stem ++ String "."%char rest)
    = last_segment EmptyString rest.
Proof.
  induction stem as [| c stem IH]; intros cur; simpl.
  - reflexivity.
  - destruct (Ascii.eqb c "."%char); apply IH.
Qed.

Lemma lower_length (s : string) : String.length (lower s) = String.length s.
Proof.
  induction s as [| c s IH]; simpl; [reflexivity | rewrite IH; reflexivity].
Qed.

Lemma lower_get (s : string) :
  forall i c,
    String.get i s = Some c -> String.get i (lower s) = Some (lower_char c).
Proof.
  induction s as [| a s IH]; intros i c H; [discriminate H |].
  destruct i as [| i]; cbn [lower String.get] in *.
  - injection H as <-. reflexivity.
  - apply IH. exact H.
Qed.

(** X1. The format of an upload is decided by its name alone: the text
    after the last dot, lower-cased, whatever precedes it, and the whole
    name, lower-cased, when the name has no dot. Lower-casing is that of
    [str.lower] on characters below 256: the capitals of ASCII and those
    of Latin-1 change, nothing else does. A name whose last segment is
    none of the six supported extensions is rejected with the error that
    names this segment, whatever the content of the file and the
    processing options. *)
Theorem file_format_is_last_segment :
  forall (L : Libs) (stem ext : string) (content : list byte)
         (ocr_enabled : bool) (chunk_size chunk_overlap : Z),
    has_no_dot ext = true ->
    file_extension (upload (stem ++ String "."%char ext) content) = lower ext
    /\ file_extension (upload ext content) = lower ext
    /\ String.length (lower ext) = String.length ext
    /\ (forall i c,
           String.get i ext = Some c ->
           String.get i (lower ext)
           = Some (let n := nat_of_ascii c in
                   if ((65 <=? n) && (n <=? 90)
                       || (192 <=? n) && (n <=? 222) && negb (n =? 215))%nat
                   then ascii_of_nat (n + 32)
                   else c))
    /\ (supported_formats (lower ext) = None ->
        process_file (upload (stem ++ String "."%char ext) content)
                     ocr_enabled chunk_size chunk_overlap
        = Raise (ValueError ("Unsupported file format: " ++ lower ext)%string)).
Proof.
  intros L stem ext content ocr S O Hext.
  assert (E1 : file_extension (upload (stem ++ String "."%char ext) content)
               = lower ext).
  { unfold file_extension, upload. cbn [name].
    rewrite last_segment_after_dot, (last_segment_no_dot ext Hext).
    reflexivity. }
  split; [exact E1 |]. split; [| split; [| split]].
  - unfold file_extension, upload. cbn [name].
    rewrite (last_segment_no_dot ext Hext). reflexivity.
  - apply lower_length.
  - apply lower_get.
  - intros Hnone. unfold process_file. rewrite E1, Hnone. reflexivity.
Qed.

(** The second name is scan.JPEG with a capital E acute (code point 201)
    for the E; its extension has the small e acute (233). *)
Lemma file_format_is_last_segment_witness :
  has_no_dot "PDF" = true
  /\ file_extension (upload "annual.report.PDF" []) = "pdf"%string
  /\ file_extension (upload "PDF" []) = "pdf"%string
  /\ file_extension
       (upload ("scan.JP" ++ String (ascii_of_nat 201) "G") [])
     = ("jp" ++ String (ascii_of_nat 233) "g")%string
  /\ @process_file (Sym.libs Sym.blank)
       (upload ("scan.JP" ++ String (ascii_of_nat 201) "G") [])
       true 1000 200
     = Raise (ValueError ("Unsupported file format: jp"
                          ++ String (ascii_of_nat 233) "g")).
Proof.
  split; [reflexivity |].
  destruct (file_format_is_last_segment (Sym.libs Sym.blank)
              "annual.report" "PDF" [] true 1000 200 eq_refl)
    as [H1 [H2 _]].
  destruct (file_format_is_last_segment (Sym.libs Sym.blank)
              "scan" ("JP" ++ String (ascii_of_nat 201) "G") [] true 1000 200
              eq_refl)
    as [H3 [_ [_ [_ H4]]]].
  split; [exact H1 |]. split; [exact H2 |]. split; [exact H3 |].
  exact (H4 eq_refl).
Defined.

(** ** Stripping *)

Lemma lstrip_idem (t : text) : lstrip (lstrip t) = lstrip t.
Proof.
  induction t as [| c t IH]; simpl; [reflexivity |].
  destruct (isspace c) eqn:Hc; [exact IH |].
  simpl. rewrite Hc. reflexivity.
Qed.

Lemma rstrip_idem (t : text) : rstrip (rstrip t) = rstrip t.
Proof.
  unfold rstrip. rewrite rev_involutive, lstrip_idem. reflexivity.
Qed.

Lemma lstrip_rstrip_lstrip (t : text) :
  lstrip (rstrip (lstrip t)) = rstrip (lstrip t).
Proof.
  destruct (lstrip t) as [| c r] eqn:E; [reflexivity |].
  assert (Hc : isspace c = false).
  { clear - E. induction t as [| x t IH]; simpl in E; [discriminate |].
    destruct (isspace x) eqn:Hx; [exact (IH E) |].
    injection E as -> _. exact Hx. }
  change (c :: r) with ([c] ++ r). rewrite rstrip_app.
  assert (H1 : rstrip [c] = [c]).
  { unfold rstrip. simpl. rewrite Hc. reflexivity. }
  destruct (forallb isspace r).
  - rewrite H1. simpl. rewrite Hc. reflexivity.
  - simpl. rewrite Hc. reflexivity.
Qed.

Lemma strip_idem (t : text) : strip (strip t) = strip t.
Proof.
  unfold strip. rewrite lstrip_rstrip_lstrip. apply rstrip_idem.
Qed.

Lemma strip_nil_squash (t : text) : strip t = [] -> squash t = [].
Proof.
  intros H. rewrite <- squash_strip, H. reflexivity.
Qed.

(** ** Images *)

Section Images.

Context {L : Libs}.

(** X2. With OCR disabled an image upload never yields a document: the
    image is not even opened, the extracted text is empty, and
    [process_file] raises the no-content error, whatever the image and
    whatever the libraries would do with it. *)
Theorem image_without_ocr_has_no_content :
  forall (f : uploaded_file) (chunk_size chunk_overlap : Z),
    is_image_extension (file_extension f) = true ->
    _process_image f false = Ok []
    /\ process_file f false chunk_size chunk_overlap
       = Raise (ValueError "No text content extracted from file").
Proof.
  intros f S O Hext. split; [reflexivity |].
  unfold process_file. rewrite (supported_image _ Hext). reflexivity.
Qed.


End Images.

Lemma image_without_ocr_has_no_content_witness :
  @process_file (Sym.libs (Sym.page_with [(90%Z, "Hello"%string)]))
     (upload "photo.JPG" (Sym.bytes_of "JFIF")) false 1000 200
  = Raise (ValueError "No text content extracted from file").
Proof.
  exact (proj2 (@image_without_ocr_has_no_content
                  (Sym.libs (Sym.page_with [(90%Z, "Hello"%string)]))
                  (upload "photo.JPG" (Sym.bytes_of "JFIF")) 1000 200
                  eq_refl)).
Defined.

(** ** PDF files *)

Lemma join_around (sep : text) (entry : text) (before after : list text) :
  exists head tail,
    join sep (before ++ entry :: after) = head ++ entry ++ tail.
Proof.
  induction before as [| b before IH].
  - exists []. simpl. destruct after as [| a after].
    + exists []. simpl. rewrite app_nil_r. reflexivity.
    + exists (sep ++ join sep (a :: after)). reflexivity.
  - destruct IH as [head [tail IH]].
    exists (b ++ sep ++ head), tail.
    change (join sep ((b :: before) ++ entry :: after))
      with (join sep (b :: (before ++ entry :: after))).
    destruct (before ++ entry :: after) as [| x rest] eqn:E.
    + destruct before; discriminate.
    + change (join sep (b :: x :: rest)) with (b ++ sep ++ join sep (x :: rest)).
      rewrite IH. rewrite <- !app_assoc. reflexivity.
Qed.

Section Pdf.

Context {L : Libs}.

Lemma pdf_pages_app (ocr : bool) (before rest : list pdf_page) :
  forall k,
    pdf_pages ocr k (before ++ rest)
    = (x <- pdf_pages ocr k before ;;
       y <- pdf_pages ocr (k + List.length before) rest ;;
       Ok (x ++ y)).
Proof.
  induction before as [| p before IH]; intros k.
  - simpl. rewrite Nat.add_0_r.
    destruct (pdf_pages ocr k rest); reflexivity.
  - cbn [app pdf_pages List.length].
    replace (k + S (List.length before))%nat
      with (S k + List.length before)%nat by lia.
    rewrite IH.
    destruct (if negb (truthy (strip (get_text p))) && ocr
              then img_data <- get_pixmap_png p ;;
                   im <- Image_open img_data ;; _ocr_image im
              else Ok (get_text p)) as [t | e]; [| reflexivity].
    cbn [bind].
    destruct (pdf_pages ocr (S k) before) as [x | e]; [| reflexivity].
    cbn [bind].
    destruct (pdf_pages ocr (S k + List.length before) rest) as [y | e];
      [| reflexivity].
    cbn [bind]. destruct (truthy (strip t)); reflexivity.
Qed.

Lemma pdf_pages_without_ocr (pages : list pdf_page) :
  forall k, returns (pdf_pages false k pages).
Proof.
  induction pages as [| p pages IH]; intros k.
  - exists []. reflexivity.
  - cbn [pdf_pages]. rewrite andb_false_r. cbn [bind].
    destruct (IH (S k)) as [more ->]. cbn [bind]. eexists. reflexivity.
Qed.

Lemma pdf_pages_entry (ocr : bool) (before after : list pdf_page)
      (p : pdf_page) (k : nat) (entries : list text) :
  strip (get_text p) <> [] ->
  pdf_pages ocr k (before ++ p :: after) = Ok entries ->
  exists x y,
    entries
    = x ++ page_entry (k + List.length before + 1) (get_text p) :: y.
Proof.
  intros Hp H. rewrite pdf_pages_app in H.
  destruct (pdf_pages ocr k before) as [x |]; [| discriminate].
  cbn [bind] in H.
  cbn [pdf_pages] in H.
  assert (Ht : truthy (strip (get_text p)) = true).
  { destruct (strip (get_text p)); [congruence | reflexivity]. }
  rewrite Ht in H. cbn [negb andb bind] in H.
  destruct (pdf_pages ocr (S (k + List.length before)) after) as [more |];
    [| discriminate].
  cbn [bind] in H. rewrite Ht in H. injection H as <-.
  exists x, more. reflexivity.
Qed.

(** X4. A page of a PDF that has a text layer appears in the extracted
    text under its own page number, counted from 1 in the document,
    however many pages before it were blank and left out. With OCR
    disabled the extraction always returns; with OCR enabled it may raise,
    and returns such a text when it does not. *)
Theorem pdf_page_keeps_its_number :
  forall (f : uploaded_file) (before after : list pdf_page) (p : pdf_page),
    fitz_open (fst (read f)) = Ok (before ++ p :: after) ->
    strip (get_text p) <> [] ->
    (exists t head tail,
        _process_pdf f false = Ok t
        /\ t = head ++ page_entry (List.length before + 1) (get_text p)
                    ++ tail)
    /\ (forall t,
           _process_pdf f true = Ok t ->
           exists head tail,
             t = head ++ page_entry (List.length before + 1) (get_text p)
                      ++ tail).
Proof.
  intros f before after p Hopen Hp.
  assert (Hgen : forall ocr t,
             _process_pdf f ocr = Ok t ->
             exists head tail,
               t = head ++ page_entry (List.length before + 1) (get_text p)
                        ++ tail).
  { intros ocr t H. unfold _process_pdf in H. rewrite Hopen in H.
    cbn [bind] in H.
    destruct (pdf_pages ocr 0 (before ++ p :: after)) as [entries |] eqn:E;
      [| discriminate].
    cbn [bind] in H. injection H as <-.
    destruct (pdf_pages_entry ocr before after p 0 entries Hp E)
      as [x [y ->]].
    apply join_around. }
  split; [| intros t; apply Hgen].
  destruct (pdf_pages_without_ocr (before ++ p :: after) 0) as [entries E].
  assert (Ht : _process_pdf f false = Ok (join [10; 10]%N entries)).
  { unfold _process_pdf. rewrite Hopen. cbn [bind]. rewrite E. reflexivity. }
  destruct (Hgen false _ Ht) as [head [tail Heq]].
  exists (join [10; 10]%N entries), head, tail. split; assumption.
Qed.

Lemma pdf_pages_blank (ocr : bool) (pages : list pdf_page) :
  Forall (fun p => blank (get_text p)) pages ->
  (ocr = true -> Forall ocr_yields_nothing pages) ->
  forall k, pdf_pages ocr k pages = Ok [].
Proof.
  intros Hblank Hocr.
  induction pages as [| p pages IH]; intros k; [reflexivity |].
  inversion Hblank as [| ? ? Hp Hrest]; subst.
  cbn [pdf_pages]. unfold blank in Hp. rewrite Hp. cbn [truthy negb andb].
  assert (Hmore : pdf_pages ocr (S k) pages = Ok []).
  { apply IH; [exact Hrest |].
    intros Ho. specialize (Hocr Ho). inversion Hocr; assumption. }
  destruct ocr.
  - specialize (Hocr eq_refl). inversion Hocr as [| ? ? Hy _]; subst.
    destruct Hy as [img_data [im [Hr [Ho Hn]]]].
    rewrite Hr. cbn [bind]. rewrite Ho. cbn [bind].
    assert (Hi : _ocr_image im = Ok []).
    { destruct Hn as [Hn | Hn]; [apply ocr_image_swallows; exact Hn |].
      unfold _ocr_image. rewrite Hn. reflexivity. }
    rewrite Hi. cbn [bind]. rewrite Hmore. reflexivity.
  - cbn [bind]. rewrite Hmore. cbn [bind]. rewrite Hp. reflexivity.
Qed.

(** X5. A PDF without any text layer yields no document. With OCR
    disabled [process_file] raises the no-content error; with OCR enabled
    it raises the same error when the recognition of every page fails or
    reads nothing, so that a failure of the OCR engine is reported as a
    document without text. *)
Theorem blank_pdf_has_no_content :
  forall (f : uploaded_file) (pages : list pdf_page)
         (chunk_size chunk_overlap : Z),
    file_extension f = "pdf"%string ->
    fitz_open (fst (read f)) = Ok pages ->
    Forall (fun p => blank (get_text p)) pages ->
    process_file f false chunk_size chunk_overlap
    = Raise (ValueError "No text content extracted from file")
    /\ (Forall ocr_yields_nothing pages ->
        process_file f true chunk_size chunk_overlap
        = Raise (ValueError "No text content extracted from file")).
Proof.
  intros f pages S O Hext Hopen Hblank.
  assert (Hgen : forall ocr,
             (ocr = true -> Forall ocr_yields_nothing pages) ->
             process_file f ocr S O = Raise no_content).
  { intros ocr Hocr. unfold process_file. rewrite Hext.
    change (supported_formats "pdf") with (Some _process_pdf).
    unfold _process_pdf. rewrite Hopen. cbn [bind].
    rewrite (pdf_pages_blank ocr pages Hblank Hocr 0). reflexivity. }
  split.
  - apply Hgen. discriminate.
  - intros Hocr. apply Hgen. intros _. exact Hocr.
Qed.

(** X6. Unlike a failure of the recognition, a failure to render a page
    is not absorbed: when a page without text layer cannot be rendered or
    its rendering cannot be opened, and the pages before it were processed,
    the extraction of the whole PDF raises that error and [process_file]
    passes it on, whatever the remaining pages hold. *)
Theorem pdf_render_failure_fails_file :
  forall (f : uploaded_file) (before after : list pdf_page) (p : pdf_page)
         (e : exn) (chunk_size chunk_overlap : Z),
    file_extension f = "pdf"%string ->
    fitz_open (fst (read f)) = Ok (before ++ p :: after) ->
    returns (pdf_pages true 0 before) ->
    blank (get_text p) ->
    rendering_fails p e ->
    _process_pdf f true = Raise e
    /\ process_file f true chunk_size chunk_overlap = Raise e.
Proof.
  intros f before after p e S O Hext Hopen [x Hbefore] Hp Hfail.
  assert (Hpages : pdf_pages true 0 (before ++ p :: after) = Raise e).
  { rewrite pdf_pages_app, Hbefore. cbn [bind pdf_pages].
    unfold blank in Hp. rewrite Hp. cbn [truthy negb andb].
    destruct Hfail as [Hr | [img_data [Hr Ho]]].
    - rewrite Hr. reflexivity.
    - rewrite Hr. cbn [bind]. rewrite Ho. reflexivity. }
  assert (Hpdf : _process_pdf f true = Raise e).
  { unfold _process_pdf. rewrite Hopen. cbn [bind]. rewrite Hpages.
    reflexivity. }
  split; [exact Hpdf |].
  unfold process_file. rewrite Hext.
  change (supported_formats "pdf") with (Some _process_pdf).
  cbv beta iota. rewrite Hpdf. reflexivity.
Qed.

End Pdf.

Lemma pdf_page_keeps_its_number_witness :
  exists t head tail,
    @_process_pdf
       (Fixtures.libs_with_documents Sym.blank
          (Ok [Fixtures.scanned_page; Fixtures.text_page "Chapter one"])
          Fixtures.no_docx)
       (upload "book.pdf" (Sym.bytes_of "%PDF")) false
    = Ok t
    /\ t = head ++ page_entry 2 (str "Chapter one") ++ tail.
Proof.
  exact (proj1 (@pdf_page_keeps_its_number
                  (Fixtures.libs_with_documents Sym.blank
                     (Ok [Fixtures.scanned_page;
                          Fixtures.text_page "Chapter one"])
                     Fixtures.no_docx)
                  (upload "book.pdf" (Sym.bytes_of "%PDF"))
                  [Fixtures.scanned_page] []
                  (Fixtures.text_page "Chapter one")
                  eq_refl ltac:(vm_compute; discriminate))).
Defined.

Lemma blank_pdf_has_no_content_witness :
  @process_file
     (Fixtures.libs_with_documents Sym.unreadable
        (Ok [Fixtures.scanned_page; Fixtures.scanned_page]) Fixtures.no_docx)
     (upload "scan.pdf" (Sym.bytes_of "%PDF")) true 1000 200
  = Raise (ValueError "No text content extracted from file").
Proof.
  refine (proj2 (@blank_pdf_has_no_content
                   (Fixtures.libs_with_documents Sym.unreadable
                      (Ok [Fixtures.scanned_page; Fixtures.scanned_page])
                      Fixtures.no_docx)
                   (upload "scan.pdf" (Sym.bytes_of "%PDF"))
                   [Fixtures.scanned_page; Fixtures.scanned_page] 1000 200
                   eq_refl eq_refl _) _).
  - repeat constructor.
  - repeat constructor;
      (exists (Sym.bytes_of "PNG"), Sym.unreadable;
       split; [reflexivity |]; split; [reflexivity |];
       left; eexists; vm_compute; reflexivity).
Defined.

Lemma pdf_render_failure_fails_file_witness :
  @process_file
     (Fixtures.libs_with_documents Sym.blank
        (Ok [Fixtures.text_page "Chapter one"; Fixtures.broken_page;
             Fixtures.text_page "Chapter two"])
        Fixtures.no_docx)
     (upload "book.pdf" (Sym.bytes_of "%PDF")) true 1000 200
  = Raise (LibraryError "cannot render page").
Proof.
  refine (proj2 (@pdf_render_failure_fails_file
                   (Fixtures.libs_with_documents Sym.blank
                      (Ok [Fixtures.text_page "Chapter one";
                           Fixtures.broken_page;
                           Fixtures.text_page "Chapter two"])
                      Fixtures.no_docx)
                   (upload "book.pdf" (Sym.bytes_of "%PDF"))
                   [Fixtures.text_page "Chapter one"]
                   [Fixtures.text_page "Chapter two"]
                   Fixtures.broken_page
                   (LibraryError "cannot render page") 1000 200
                   eq_refl eq_refl _ eq_refl _)).
  - eexists. vm_compute. reflexivity.
  - left. reflexivity.
Defined.

(** ** DOCX files *)

Lemma squash_join_nil (sep : text) (parts : list text) :
  squash (join sep parts) = [] -> Forall (fun p => squash p = []) parts.
Proof.
  induction parts as [| p parts IH]; intros H; [constructor |].
  destruct parts as [| q parts].
  - constructor; [exact H | constructor].
  - change (join sep (p :: q :: parts)) with (p ++ sep ++ join sep (q :: parts))
      in H.
    rewrite !squash_app in H.
    apply app_eq_nil in H. destruct H as [Hp H].
    apply app_eq_nil in H. destruct H as [_ H].
    constructor; [exact Hp | exact (IH H)].
Qed.

Lemma truthy_strip_blank (t : text) : truthy (strip t) = false <-> blank t.
Proof.
  unfold blank. split.
  - apply truthy_false.
  - intros ->. reflexivity.
Qed.

Lemma filter_nonblank_nil (l : list text) :
  filter (fun p => truthy (strip p)) l = [] <-> Forall blank l.
Proof.
  induction l as [| p l IH]; simpl.
  - split; [constructor | reflexivity].
  - destruct (truthy (strip p)) eqn:E.
    + split; [discriminate |].
      intros H. inversion H as [| ? ? Hp _]; subst.
      apply truthy_strip_blank in Hp. congruence.
    + rewrite IH. split.
      * intros H. constructor; [apply truthy_strip_blank; exact E | exact H].
      * intros H. inversion H; assumption.
Qed.

Lemma row_text_nil (cells : list text) :
  row_text cells = [] <-> Forall blank cells.
Proof.
  unfold row_text. rewrite <- filter_nonblank_nil.
  destruct (filter (fun c => truthy (strip c)) cells); simpl;
    split; congruence.
Qed.

Lemma row_text_not_blank (cells : list text) :
  Forall (fun c => squash c <> []) (row_text cells).
Proof.
  unfold row_text. induction cells as [| c cells IH]; simpl; [constructor |].
  destruct (truthy (strip c)) eqn:E; [| exact IH].
  simpl. constructor; [| exact IH].
  rewrite squash_strip. intros H. apply strip_spaces in H.
  rewrite H in E. discriminate.
Qed.

(** The rows [_process_docx] emits for a list of tables. *)
Lemma docx_rows_nil (tbls : list (list (list text))) :
  flat_map (fun table =>
    flat_map (fun row =>
      match row_text row with
      | [] => []
      | cells => [join (str " | ") cells]
      end) table) tbls = []
  -> Forall (Forall (fun row => row_text row = [])) tbls.
Proof.
  induction tbls as [| table tbls IH]; simpl; intros H; [constructor |].
  apply app_eq_nil in H. destruct H as [Ht H].
  constructor; [| exact (IH H)].
  clear - Ht. induction table as [| row table IHt]; simpl in *; [constructor |].
  apply app_eq_nil in Ht. destruct Ht as [Hr Ht].
  constructor; [| exact (IHt Ht)].
  destruct (row_text row); [reflexivity | discriminate].
Qed.

Lemma docx_rows_not_blank (tbls : list (list (list text))) :
  Forall (fun r => squash r <> [])
    (flat_map (fun table =>
       flat_map (fun row =>
         match row_text row with
         | [] => []
         | cells => [join (str " | ") cells]
         end) table) tbls).
Proof.
  apply Forall_flat_map. apply Forall_forall. intros table _.
  apply Forall_flat_map. apply Forall_forall. intros row _.
  pose proof (row_text_not_blank row) as Hrow.
  destruct (row_text row) as [| c cells]; [constructor |].
  constructor; [| constructor].
  intros H. apply squash_join_nil in H.
  inversion H as [| ? ? Hc _]; subst.
  inversion Hrow as [| ? ? Hc' _]; subst. contradiction.
Qed.

Lemma row_text_existsb (row : list text) :
  existsb nonblank row
  = match row_text row with [] => false | _ :: _ => true end.
Proof.
  unfold row_text. induction row as [| c row IH]; [reflexivity |].
  cbn [existsb filter]. unfold nonblank at 1.
  destruct (truthy (strip c)); [reflexivity | exact IH].
Qed.

Lemma docx_rows_lines (tbls : list (list (list text))) :
  flat_map (fun table =>
    flat_map (fun row =>
      match row_text row with
      | [] => []
      | cells => [join (str " | ") cells]
      end) table) tbls
  = map row_line (filter (existsb nonblank) (concat tbls)).
Proof.
  induction tbls as [| table tbls IH]; [reflexivity |].
  cbn [flat_map concat]. rewrite filter_app, map_app, IH. f_equal.
  clear IH. induction table as [| row table IHt]; [reflexivity |].
  cbn [flat_map filter]. rewrite IHt, row_text_existsb.
  destruct (row_text row) as [| c cells] eqn:E; [reflexivity |].
  cbn [map app]. f_equal.
  unfold row_line. change (map strip (filter nonblank row)) with (row_text row).
  rewrite E. reflexivity.
Qed.

Section Docx.

Context {L : Libs}.

(** X7. The text extracted from a DOCX file is made of the non-blank
    paragraphs, kept as they are, followed by one line for each table row
    that has a non-blank cell, which holds the non-blank cells of the row,
    stripped, with a bar between them; these parts are separated by blank
    lines. The text is blank exactly when the document has no paragraph
    and no table cell with something other than whitespace in it; such a
    file makes [process_file] raise the no-content error. *)
Theorem docx_text_blank_iff_document_blank :
  forall (f : uploaded_file) (doc : docx_document) (ocr_enabled : bool)
         (chunk_size chunk_overlap : Z),
    file_extension f = "docx"%string ->
    docx_Document (fst (read f)) = Ok doc ->
    exists t,
      _process_docx f ocr_enabled = Ok t
      /\ t = join [10; 10]%N (docx_parts doc)
      /\ (blank t <-> docx_blank doc)
      /\ (docx_blank doc -> t = [])
      /\ (docx_blank doc ->
          process_file f ocr_enabled chunk_size chunk_overlap
          = Raise (ValueError "No text content extracted from file")).
Proof.
  intros f doc ocr S O Hext Hopen.
  unfold _process_docx at 1. rewrite Hopen. cbn [bind].
  eexists. split; [reflexivity |].
  set (paras := filter (fun p => truthy (strip p)) (paragraphs doc)).
  set (rows := flat_map _ (tables doc)).
  assert (Hnil : docx_blank doc -> paras = [] /\ rows = []).
  { intros [Hp Ht]. split.
    - apply filter_nonblank_nil. exact Hp.
    - subst rows. clear - Ht.
      induction (tables doc) as [| table tbls IH]; [reflexivity |].
      inversion Ht as [| ? ? Htable Hrest]; subst.
      cbn [flat_map]. rewrite (IH Hrest), app_nil_r.
      clear - Htable.
      induction table as [| row table IHt]; [reflexivity |].
      inversion Htable as [| ? ? Hrow Hrest]; subst.
      cbn [flat_map]. rewrite (IHt Hrest), app_nil_r.
      apply row_text_nil in Hrow. rewrite Hrow. reflexivity. }
  assert (Hempty : docx_blank doc -> join [10; 10]%N (paras ++ rows) = []).
  { intros Hb. destruct (Hnil Hb) as [-> ->]. reflexivity. }
  split; [| split; [| split]].
  - unfold docx_parts. subst paras rows.
    rewrite docx_rows_lines. reflexivity.
  - split.
    + intros Hb. apply strip_nil_squash in Hb.
      apply squash_join_nil in Hb. apply Forall_app in Hb.
      destruct Hb as [Hparas Hrows].
      assert (Hp : paras = []).
      { destruct paras as [| p ps] eqn:E; [reflexivity |].
        exfalso.
        assert (Hin : In p paras) by (rewrite E; left; reflexivity).
        apply filter_In in Hin. destruct Hin as [_ Htruthy].
        inversion Hparas as [| ? ? Hsq _]; subst.
        apply strip_spaces in Hsq. rewrite Hsq in Htruthy. discriminate. }
      assert (Hr : rows = []).
      { pose proof (docx_rows_not_blank (tables doc)) as Hnb.
        fold rows in Hnb.
        destruct rows as [| r rs]; [reflexivity |].
        inversion Hrows; subst. inversion Hnb; subst. contradiction. }
      split.
      * apply filter_nonblank_nil. exact Hp.
      * apply docx_rows_nil in Hr.
        eapply Forall_impl; [| exact Hr].
        intros table Htable. eapply Forall_impl; [| exact Htable].
        intros row Hrow. apply row_text_nil. exact Hrow.
    + intros Hb. unfold blank. rewrite (Hempty Hb). reflexivity.
  - exact Hempty.
  - intros Hb. unfold process_file. rewrite Hext.
    change (supported_formats "docx") with (Some _process_docx).
    cbv beta iota. unfold _process_docx. rewrite Hopen. cbn [bind].
    fold paras. fold rows. rewrite (Hempty Hb). reflexivity.
Qed.

End Docx.

Lemma docx_text_blank_iff_document_blank_witness :
  exists t,
    @_process_docx
       (Fixtures.libs_with_documents Sym.blank Fixtures.no_pdf
          (Ok {| paragraphs := [str "Minutes"; str "  "];
                 tables := [[[str " a "; []; str "b"]; [[32%N]]]] |}))
       (upload "minutes.docx" (Sym.bytes_of "PK")) false
    = Ok t
    /\ t = str "Minutes" ++ [10; 10]%N ++ str "a | b".
Proof.
  destruct (@docx_text_blank_iff_document_blank
              (Fixtures.libs_with_documents Sym.blank Fixtures.no_pdf
                 (Ok {| paragraphs := [str "Minutes"; str "  "];
                        tables := [[[str " a "; []; str "b"]; [[32%N]]]] |}))
              (upload "minutes.docx" (Sym.bytes_of "PK"))
              {| paragraphs := [str "Minutes"; str "  "];
                 tables := [[[str " a "; []; str "b"]; [[32%N]]]] |}
              false 1000 200 eq_refl eq_refl)
    as [t [Ht [Hparts _]]].
  exists t. split; [exact Ht |].
  rewrite Hparts. vm_compute. reflexivity.
Defined.

(** ** File information *)

Lemma read_again_is_empty (f : uploaded_file) : fst (read (snd (read f))) = [].
Proof.
  unfold read. cbn [fst snd tell getvalue].
  apply skipn_all2. apply Nat.le_max_r.
Qed.

Section FileInfo.

Context {L : Libs}.

(** X8. [get_file_info] reads the upload to measure it, and so moves the
    stream to its end: the size it reports is the number of bytes that
    were still unread, a second call on the same upload reports size 0,
    and a text extraction that follows finds nothing to read, so that a
    text file whose information was asked for first is rejected by
    [process_file] with the no-content error. *)
Theorem get_file_info_consumes_stream :
  forall (f : uploaded_file) (type_attr : option string) (ocr_enabled : bool)
         (chunk_size chunk_overlap : Z),
    info_name (fst (get_file_info f type_attr)) = name f
    /\ info_size (fst (get_file_info f type_attr))
       = (List.length (getvalue f) - tell f)%nat
    /\ info_size (fst (get_file_info (snd (get_file_info f type_attr))
                                     type_attr)) = 0%nat
    /\ _process_txt (snd (get_file_info f type_attr)) ocr_enabled = Ok []
    /\ (file_extension f = "txt"%string ->
        process_file (snd (get_file_info f type_attr)) ocr_enabled
                     chunk_size chunk_overlap
        = Raise (ValueError "No text content extracted from file")).
Proof.
  intros f ty ocr S O.
  assert (Hsnd : snd (get_file_info f ty) = snd (read f)) by reflexivity.
  assert (Htxt : _process_txt (snd (get_file_info f ty)) ocr = Ok []).
  { rewrite Hsnd. unfold _process_txt.
    destruct (read (snd (read f))) as [bs f1] eqn:E.
    assert (Hbs : bs = []).
    { pose proof (read_again_is_empty f) as H. rewrite E in H. exact H. }
    subst bs. reflexivity. }
  split; [reflexivity |]. split; [| split; [| split]].
  - unfold get_file_info, read. cbn [fst info_size]. apply length_skipn.
  - unfold get_file_info at 1.
    destruct (read (snd (get_file_info f ty))) as [bs f1] eqn:E.
    cbn [fst info_size].
    assert (Hbs : bs = []).
    { pose proof (read_again_is_empty f) as H. rewrite <- Hsnd, E in H.
      exact H. }
    subst bs. reflexivity.
  - exact Htxt.
  - intros Hext. unfold process_file.
    assert (Hext' : file_extension (snd (get_file_info f ty)) = "txt"%string)
      by exact Hext.
    rewrite Hext'.
    change (supported_formats "txt") with (Some _process_txt).
    cbv beta iota. rewrite Htxt. reflexivity.
Qed.

End FileInfo.

Lemma get_file_info_consumes_stream_witness :
  info_size (fst (get_file_info (upload "notes.txt" (Sym.bytes_of "hello"))
                                (Some "text/plain"%string)))
  = 5%nat
  /\ @process_file (Sym.libs Sym.blank)
       (snd (get_file_info (upload "notes.txt" (Sym.bytes_of "hello"))
                           (Some "text/plain"%string)))
       true 1000 200
     = Raise (ValueError "No text content extracted from file").
Proof.
  destruct (@get_file_info_consumes_stream (Sym.libs Sym.blank)
              (upload "notes.txt" (Sym.bytes_of "hello"))
              (Some "text/plain"%string) true 1000 200)
    as [_ [Hsize [_ [_ Hfile]]]].
  split; [exact Hsize | exact (Hfile eq_refl)].
Defined.

(** ** The documents of a file *)

Section NonEmptyChunks.

Variables chunk_size chunk_overlap : Z.

Local Abbreviation filled := (fun c : text => truthy c = true).

Lemma emit_filled (st : merge_state) (separator : text) :
  Forall filled (docs st) -> Forall filled (emit st separator).
Proof.
  intros H. unfold emit, _join_docs.
  destruct (truthy (strip (join separator (current_doc st)))) eqn:E.
  - apply Forall_app. split; [exact H |].
    constructor; [exact E | constructor].
  - exact H.
Qed.

Lemma merge_step_filled (separator : text) (st st' : merge_state) (d : text) :
  merge_step chunk_size chunk_overlap separator st d = Ok st' ->
  Forall filled (docs st) -> Forall filled (docs st').
Proof.
  unfold merge_step. intros Hstep H.
  destruct (_ >? chunk_size)%Z.
  - destruct (0 <? List.length (current_doc st))%nat.
    + destruct (pop_front chunk_size chunk_overlap (len separator) (len d)
                  (total st) (current_doc st)) as [p | e];
        [| discriminate Hstep].
      cbn [bind] in Hstep. injection Hstep as <-. cbn [docs].
      apply emit_filled. exact H.
    + cbn [bind] in Hstep. injection Hstep as <-. exact H.
  - cbn [bind] in Hstep. injection Hstep as <-. exact H.
Qed.

Lemma merge_loop_filled (separator : text) (splits : list text) :
  forall st st',
    merge_loop chunk_size chunk_overlap separator st splits = Ok st' ->
    Forall filled (docs st) -> Forall filled (docs st').
Proof.
  induction splits as [| d splits IH]; intros st st' Hloop H.
  - cbn [merge_loop] in Hloop. injection Hloop as <-. exact H.
  - cbn [merge_loop] in Hloop.
    destruct (merge_step chunk_size chunk_overlap separator st d) as [st1 | e]
      eqn:Hstep; [| discriminate Hloop].
    cbn [bind] in Hloop.
    apply (IH st1 st' Hloop).
    apply (merge_step_filled separator st st1 d Hstep H).
Qed.

Lemma merge_splits_filled (splits chunks : list text) (separator : text) :
  _merge_splits chunk_size chunk_overlap splits separator = Ok chunks ->
  Forall filled chunks.
Proof.
  unfold _merge_splits. intros H.
  destruct (merge_loop chunk_size chunk_overlap separator _ splits)
    as [st |] eqn:Hloop; [| discriminate H].
  cbn [bind] in H. injection H as <-.
  apply emit_filled.
  apply (merge_loop_filled separator splits _ st Hloop). constructor.
Qed.

Lemma flush_filled (final_chunks good chunks : list text) :
  flush chunk_size chunk_overlap final_chunks good = Ok chunks ->
  Forall filled final_chunks -> Forall filled chunks.
Proof.
  unfold flush. intros H Hfc. destruct good as [| g good].
  - injection H as <-. exact Hfc.
  - destruct (_merge_splits chunk_size chunk_overlap (g :: good) [])
      as [merged |] eqn:Hm; [| discriminate H].
    cbn [bind] in H. injection H as <-.
    apply Forall_app. split; [exact Hfc |].
    apply (merge_splits_filled _ _ _ Hm).
Qed.

Lemma split_loop_filled recurse (splits : list text) :
  (forall f p chunks,
      recurse = Some f -> f p = Ok chunks -> Forall filled chunks) ->
  Forall filled splits ->
  forall (final_chunks good chunks : list text),
    split_loop chunk_size chunk_overlap recurse final_chunks good splits
    = Ok chunks ->
    Forall filled final_chunks -> Forall filled chunks.
Proof.
  intros Hrec.
  induction splits as [| s splits IH]; intros Hs fc good chunks H Hfc.
  - cbn [split_loop] in H. apply (flush_filled fc good chunks H Hfc).
  - inversion Hs as [| ? ? Hs1 Hs2]; subst.
    cbn [split_loop] in H.
    destruct (len s <? chunk_size)%Z.
    + apply (IH Hs2 fc (good ++ [s]) chunks H Hfc).
    + destruct (flush chunk_size chunk_overlap fc good) as [fc' |] eqn:Hflush;
        [| discriminate H].
      cbn [bind] in H.
      destruct (match recurse with
                | Some f => f s
                | None => Ok [s]
                end) as [other |] eqn:Ho; [| discriminate H].
      cbn [bind] in H.
      apply (IH Hs2 (fc' ++ other) [] chunks H).
      apply Forall_app. split.
      * apply (flush_filled fc good fc' Hflush Hfc).
      * destruct recurse as [f |].
        -- apply (Hrec f s other eq_refl Ho).
        -- injection Ho as <-. constructor; [exact Hs1 | constructor].
Qed.

Lemma split_text_rec_filled (separators : list text) :
  forall (t : text) (chunks : list text),
    _split_text chunk_size chunk_overlap separators t = Ok chunks ->
    Forall filled chunks.
Proof.
  induction separators as [| s rest IH]; intros t chunks H.
  - discriminate H.
  - cbn [_split_text] in H.
    assert (Hloop : forall recurse,
               (forall f p cs, recurse = Some f -> f p = Ok cs ->
                               Forall filled cs) ->
               split_loop chunk_size chunk_overlap recurse [] []
                          (_split_text_with_regex t s) = Ok chunks ->
               Forall filled chunks).
    { intros recurse Hrec Hl.
      apply (split_loop_filled recurse _ Hrec (split_with_regex_truthy t s)
                               [] [] chunks Hl).
      constructor. }
    destruct (negb (truthy s)).
    + apply (Hloop None); [intros f p cs Hf; discriminate Hf | exact H].
    + destruct (contains s t).
      * destruct rest as [| r rest'].
        -- apply (Hloop None); [intros f p cs Hf; discriminate Hf | exact H].
        -- apply (Hloop (Some (_split_text chunk_size chunk_overlap (r :: rest'))));
             [| exact H].
           intros f p cs Hf Hp. injection Hf as <-. apply (IH p cs Hp).
      * destruct rest as [| r rest'].
        -- apply (Hloop None); [intros f p cs Hf; discriminate Hf | exact H].
        -- apply (IH t chunks H).
Qed.

End NonEmptyChunks.

Lemma split_text_unfold (chunk_size chunk_overlap : Z) (t : text)
      (chunks : list text) :
  split_text chunk_size chunk_overlap t = Ok chunks ->
  _split_text chunk_size chunk_overlap separators t = Ok chunks.
Proof.
  unfold split_text. destruct (chunk_overlap >? chunk_size)%Z;
    [discriminate | exact (fun H => H)].
Qed.

Lemma covers_not_blank (chunks : list text) (t : text) :
  covers chunks t -> strip t <> [] -> chunks <> [].
Proof.
  intros [r [Hr Hsq]] Ht ->. inversion Hr; subst.
  apply Ht. apply strip_spaces. rewrite <- Hsq. reflexivity.
Qed.

Lemma make_documents_length (f : uploaded_file) (ext : string) (ocr : bool)
      (n : nat) (chunks : list text) :
  forall i, List.length (make_documents f ext ocr n i chunks)
            = List.length chunks.
Proof.
  induction chunks as [| c chunks IH]; intros i; simpl;
    [reflexivity | rewrite IH; reflexivity].
Qed.

Lemma make_documents_content (f : uploaded_file) (ext : string) (ocr : bool)
      (n : nat) (chunks : list text) :
  forall i, map page_content (make_documents f ext ocr n i chunks) = chunks.
Proof.
  induction chunks as [| c chunks IH]; intros i; simpl;
    [reflexivity | rewrite IH; reflexivity].
Qed.

Lemma make_documents_nth (f : uploaded_file) (ext : string) (ocr : bool)
      (n : nat) (chunks : list text) :
  forall i j d,
    nth_error (make_documents f ext ocr n i chunks) j = Some d ->
    exists c,
      nth_error chunks j = Some c
      /\ d = {| page_content := c; filename := name f; file_type := ext;
                chunk_id := i + j; total_chunks := n; ocr_enabled := ocr |}.
Proof.
  induction chunks as [| c chunks IH]; intros i j d H.
  - destruct j; discriminate H.
  - destruct j as [| j]; cbn [make_documents nth_error] in H.
    + injection H as <-. exists c. rewrite Nat.add_0_r.
      split; reflexivity.
    + destruct (IH (S i) j d H) as [c' [Hc ->]].
      exists c'. split; [exact Hc |].
      replace (S i + j)%nat with (i + S j)%nat by lia. reflexivity.
Qed.

Section Documents.

Context {L : Libs}.

Lemma process_file_ok (f : uploaded_file) (ocr : bool) (S O : Z)
      (documents : list Document) :
  process_file f ocr S O = Ok documents ->
  exists processor text_content chunks,
    supported_formats (file_extension f) = Some processor
    /\ processor f ocr = Ok text_content
    /\ strip text_content <> []
    /\ split_text S O text_content = Ok chunks
    /\ documents
       = make_documents f (file_extension f) ocr (List.length chunks) 0 chunks.
Proof.
  unfold process_file. intros H.
  destruct (supported_formats (file_extension f)) as [processor |];
    [| discriminate H].
  destruct (processor f ocr) as [text_content |] eqn:Hp; [| discriminate H].
  cbn [bind try_except] in H.
  destruct (strip text_content) as [| c s] eqn:Hs; [discriminate H |].
  cbn [truthy negb] in H.
  destruct (split_text S O text_content) as [chunks |] eqn:Hc;
    [| discriminate H].
  cbn [bind] in H. injection H as <-.
  exists processor, text_content, chunks.
  split; [reflexivity |]. split; [exact Hp |].
  split; [rewrite Hs; discriminate |]. split; [exact Hc | reflexivity].
Qed.

(** X9. What [process_file] returns, when it returns. For a chunk size of
    at least 1 and a non-negative overlap, the documents of a file are
    never an empty list; the document at position [i] carries chunk id
    [i], the number of documents of the file as its total, the name of
    the upload, the lower-cased extension and the OCR option; its content
    is not empty and no longer than the chunk size; and the contents, in
    order, give back the text the format handler extracted up to
    whitespace. *)
Theorem process_file_documents :
  forall (f : uploaded_file) (ocr_enabled : bool)
         (chunk_size chunk_overlap : Z) (documents : list Document),
    (1 <= chunk_size)%Z ->
    (0 <= chunk_overlap)%Z ->
    process_file f ocr_enabled chunk_size chunk_overlap = Ok documents ->
    documents <> []
    /\ (forall i d,
           nth_error documents i = Some d ->
           chunk_id d = i
           /\ total_chunks d = List.length documents
           /\ filename d = name f
           /\ file_type d = file_extension f
           /\ DocumentProcessor.ocr_enabled d = ocr_enabled
           /\ page_content d <> []
           /\ (len (page_content d) <= chunk_size)%Z)
    /\ (exists processor text_content,
           supported_formats (file_extension f) = Some processor
           /\ processor f ocr_enabled = Ok text_content
           /\ covers (map page_content documents) text_content).
Proof.
  intros f ocr S O documents HS HO H.
  destruct (process_file_ok f ocr S O documents H)
    as [processor [text_content [chunks [Hfmt [Hp [Hne [Hsplit ->]]]]]]].
  apply split_text_unfold in Hsplit.
  pose proof (split_text_rec_covers S O separators text_content chunks Hsplit)
    as Hcov.
  pose proof (split_text_rec_filled S O separators text_content chunks Hsplit)
    as Hfilled.
  destruct (split_text_rec_within S O HS HO separators eq_refl text_content)
    as [chunks' [Hsplit' Hfit]].
  rewrite Hsplit in Hsplit'. injection Hsplit' as <-.
  split; [| split].
  - pose proof (covers_not_blank chunks text_content Hcov Hne) as Hc.
    destruct chunks; [congruence | discriminate].
  - intros i d Hd.
    destruct (make_documents_nth f (file_extension f) ocr _ chunks 0 i d Hd)
      as [c [Hc ->]].
    cbn [chunk_id total_chunks filename file_type DocumentProcessor.ocr_enabled
         page_content].
    rewrite make_documents_length.
    apply nth_error_In in Hc.
    repeat split.
    + rewrite Forall_forall in Hfilled. specialize (Hfilled c Hc).
      intros ->. discriminate Hfilled.
    + rewrite Forall_forall in Hfit. exact (Hfit c Hc).
  - exists processor, text_content.
    split; [exact Hfmt |]. split; [exact Hp |].
    rewrite make_documents_content. exact Hcov.
Qed.

End Documents.

Lemma process_file_documents_witness :
  exists documents,
    @process_file (Sym.libs Sym.blank)
       (upload "Notes.TXT" (Sym.bytes_of "hello world")) true 1000 200
    = Ok documents
    /\ documents <> []
    /\ forall i d,
         nth_error documents i = Some d ->
         chunk_id d = i
         /\ total_chunks d = List.length documents
         /\ filename d = "Notes.TXT"%string
         /\ file_type d = "txt"%string
         /\ ocr_enabled d = true
         /\ page_content d <> []
         /\ (len (page_content d) <= 1000)%Z.
Proof.
  eexists. split; [vm_compute; reflexivity |].
  destruct (@process_file_documents (Sym.libs Sym.blank)
              (upload "Notes.TXT" (Sym.bytes_of "hello world")) true 1000 200
              _ ltac:(lia) ltac:(lia) ltac:(vm_compute; reflexivity))
    as [Hne [Hmeta _]].
  split; [exact Hne | exact Hmeta].
Defined.

(** ** Language detection and text regions *)

Section Queries.

Import OCRQueries.







Context {L : Libs} {T : Tesseract}.


End Queries.


Section Regions.

Import OCRQueries.

Lemma conf_at_ok (data : tess_boxes) (i : nat) (c : Z) :
  conf_at data i = Ok c -> nth_error (box_conf data) i = Some (Conf c).
Proof.
  unfold conf_at, index. destruct (nth_error (box_conf data) i) as [cell |];
    [| discriminate].
  destruct cell as [z | raw]; cbn [bind int_of_conf]; [| discriminate].
  intros H. injection H as <-. reflexivity.
Qed.

Lemma index_ok {A} (l : list A) (i : nat) (a : A) :
  index l i = Ok a -> nth_error l i = Some a.
Proof.
  unfold index. destruct (nth_error l i); [| discriminate].
  intros H. injection H as <-. reflexivity.
Qed.

(** What the loop adds to the regions it starts from. *)
Lemma region_loop_adds (data : tess_boxes) (indices : list nat) :
  forall acc regions,
    region_loop data indices acc = Ok regions ->
    exists new,
      regions = acc ++ new
      /\ (List.length new <= List.length indices)%nat
      /\ Forall (fun r =>
                   (30 < region_confidence r)%Z
                   /\ region_text r <> []
                   /\ strip (region_text r) = region_text r
                   /\ exists i, In i indices /\ region_of_row data i r) new.
Proof.
  induction indices as [| i rest IH]; intros acc regions H.
  - cbn [region_loop] in H. injection H as <-.
    exists []. rewrite app_nil_r. repeat split; [simpl; lia | constructor].
  - assert (Hskip : region_loop data rest acc = Ok regions ->
              exists new,
                regions = acc ++ new
                /\ (List.length new <= List.length (i :: rest))%nat
                /\ Forall (fun r =>
                     (30 < region_confidence r)%Z
                     /\ region_text r <> []
                     /\ strip (region_text r) = region_text r
                     /\ exists j, In j (i :: rest) /\ region_of_row data j r)
                     new).
    { intros Hr. destruct (IH acc regions Hr) as [new [-> [Hlen Hall]]].
      exists new. split; [reflexivity |]. split; [simpl; lia |].
      eapply Forall_impl; [| exact Hall].
      intros r [H1 [H2 [H3 [j [Hj Hrow]]]]].
      repeat split; try assumption. exists j. split; [right |]; assumption. }
    cbn [region_loop] in H.
    destruct (conf_at data i) as [c |] eqn:Hc; [| discriminate H].
    cbn [bind] in H.
    destruct (c >? 30)%Z eqn:Hgt; [| exact (Hskip H)].
    destruct (index (box_text data) i) as [t |] eqn:Ht; [| discriminate H].
    cbn [bind] in H.
    destruct (truthy (strip t)) eqn:Htruthy; [| exact (Hskip H)].
    destruct (index (box_left data) i) as [l |] eqn:Hl; [| discriminate H].
    cbn [bind] in H.
    destruct (index (box_top data) i) as [tp |] eqn:Htp; [| discriminate H].
    cbn [bind] in H.
    destruct (index (box_width data) i) as [w |] eqn:Hw; [| discriminate H].
    cbn [bind] in H.
    destruct (index (box_height data) i) as [h |] eqn:Hh; [| discriminate H].
    cbn [bind] in H.
    destruct (IH _ regions H) as [new [-> [Hlen Hall]]].
    eexists (_ :: new). split; [rewrite <- app_assoc; reflexivity |].
    split; [simpl; lia |].
    constructor.
    + cbn [region_confidence region_text region_bbox].
      split; [apply Z.gtb_lt in Hgt; lia |].
      split; [intros E; rewrite E in Htruthy; discriminate Htruthy |].
      split; [apply strip_idem |].
      exists i. split; [left; reflexivity |].
      exists t. cbn [region_confidence region_text region_bbox x y width height].
      repeat split;
        first [ apply conf_at_ok; assumption | apply index_ok; assumption ].
    + eapply Forall_impl; [| exact Hall].
      intros r [H1 [H2 [H3 [j [Hj Hrow]]]]].
      repeat split; try assumption. exists j. split; [right |]; assumption.
Qed.

Lemma region_loop_raises (data : tess_boxes) (indices : list nat) (i : nat) :
  In i indices ->
  raises (conf_at data i) ->
  forall acc, raises (region_loop data indices acc).
Proof.
  intros Hin [e He].
  induction indices as [| j rest IH]; intros acc; [destruct Hin |].
  cbn [region_loop].
  destruct (conf_at data j) as [c |] eqn:Hc; [| eexists; reflexivity].
  assert (Hrest : In i rest).
  { destruct Hin as [-> | Hin]; [congruence | exact Hin]. }
  specialize (IH Hrest).
  cbn [bind]. destruct (c >? 30)%Z; [| apply IH].
  destruct (index (box_text data) j) as [t |]; [| eexists; reflexivity].
  cbn [bind]. destruct (truthy (strip t)); [| apply IH].
  destruct (index (box_left data) j); [| eexists; reflexivity]. cbn [bind].
  destruct (index (box_top data) j); [| eexists; reflexivity]. cbn [bind].
  destruct (index (box_width data) j); [| eexists; reflexivity]. cbn [bind].
  destruct (index (box_height data) j); [| eexists; reflexivity]. cbn [bind].
  apply IH.
Qed.

Context {L : Libs} {T : Tesseract}.

(** X11. Text-region detection never raises. Every region it returns has
    a confidence above 30 and a text that is not empty and has no
    whitespace at either end; and every region is made of the fields of
    one row of the table Tesseract returned (its confidence, its stripped
    text and its box), so that there are at most as many regions as
    rows. *)
Theorem get_text_regions_returns_confident_rows :
  forall im : image,
    exists regions,
      get_text_regions im = Ok regions
      /\ Forall (fun r => (30 < region_confidence r)%Z
                          /\ region_text r <> []
                          /\ strip (region_text r) = region_text r) regions
      /\ (forall data,
             image_to_data_dict im = Ok data ->
             (List.length regions <= List.length (box_text data))%nat
             /\ Forall (fun r => exists i,
                            (i < List.length (box_text data))%nat
                            /\ region_of_row data i r) regions).
Proof.
  intros im. unfold get_text_regions, region_steps.
  destruct (image_to_data_dict im) as [data | e] eqn:E; cbn [bind].
  - destruct (region_loop data (seq 0 (List.length (box_text data))) [])
      as [regions | e] eqn:Hloop; cbn [try_except].
    + destruct (region_loop_adds data _ [] regions Hloop)
        as [new [-> [Hlen Hall]]].
      cbn [app]. rewrite length_seq in Hlen.
      exists new. split; [reflexivity |]. split; [| intros d Hd].
      * eapply Forall_impl; [| exact Hall].
        intros r [H1 [H2 [H3 _]]]. repeat split; assumption.
      * injection Hd as <-. split; [exact Hlen |].
        eapply Forall_impl; [| exact Hall].
        intros r [_ [_ [_ [i [Hi Hrow]]]]]. exists i.
        split; [apply in_seq in Hi; lia | exact Hrow].
    + exists []. split; [reflexivity |]. split; [constructor |].
      intros d _. split; [simpl; lia | constructor].
  - exists []. split; [reflexivity |]. split; [constructor |].
    intros d Hd. discriminate Hd.
Qed.

(** X12. Text-region detection is all or nothing: when the confidence of
    a single row of the table cannot be read as an integer, or is missing,
    the result is the empty list, whatever the other rows hold; the
    regions found before that row are dropped. *)
Theorem get_text_regions_all_or_nothing :
  forall (im : image) (data : tess_boxes) (i : nat),
    image_to_data_dict im = Ok data ->
    (i < List.length (box_text data))%nat ->
    raises (conf_at data i) ->
    get_text_regions im = Ok [].
Proof.
  intros im data i Hdata Hi Hraise.
  unfold get_text_regions, region_steps. rewrite Hdata. cbn [bind].
  assert (Hin : In i (seq 0 (List.length (box_text data))))
    by (apply in_seq; lia).
  destruct (region_loop_raises data _ i Hin Hraise []) as [e ->].
  reflexivity.
Qed.

End Regions.

Lemma get_text_regions_returns_confident_rows_witness :
  exists regions,
    @OCRQueries.get_text_regions (Sym.libs Sym.blank)
       (OCRQueries.tesseract_with Sym.blank
          (Raise (LibraryError "too few characters"))
          (Ok {| OCRQueries.box_conf := [Conf (-1); Conf 96; Conf 12; Conf 91];
                 OCRQueries.box_text := [[]; str "Invoice"; str "n0"; str " 42 "];
                 OCRQueries.box_left := [0; 10; 80; 120]%Z;
                 OCRQueries.box_top := [0; 10; 10; 10]%Z;
                 OCRQueries.box_width := [200; 60; 30; 20]%Z;
                 OCRQueries.box_height := [100; 12; 12; 12]%Z |}))
       Sym.blank
    = Ok regions
    /\ map OCRQueries.region_text regions = [str "Invoice"; str "42"]
    /\ Forall (fun r => (30 < OCRQueries.region_confidence r)%Z
                        /\ OCRQueries.region_text r <> []
                        /\ strip (OCRQueries.region_text r)
                           = OCRQueries.region_text r) regions.
Proof.
  destruct (@get_text_regions_returns_confident_rows (Sym.libs Sym.blank)
              (OCRQueries.tesseract_with Sym.blank
                 (Raise (LibraryError "too few characters"))
                 (Ok {| OCRQueries.box_conf :=
                          [Conf (-1); Conf 96; Conf 12; Conf 91];
                        OCRQueries.box_text :=
                          [[]; str "Invoice"; str "n0"; str " 42 "];
                        OCRQueries.box_left := [0; 10; 80; 120]%Z;
                        OCRQueries.box_top := [0; 10; 10; 10]%Z;
                        OCRQueries.box_width := [200; 60; 30; 20]%Z;
                        OCRQueries.box_height := [100; 12; 12; 12]%Z |}))
              Sym.blank)
    as [regions [Hr [Hall _]]].
  exists regions. split; [exact Hr |]. split; [| exact Hall].
  vm_compute in Hr. injection Hr as <-. reflexivity.
Defined.

Lemma get_text_regions_all_or_nothing_witness :
  @OCRQueries.get_text_regions (Sym.libs Sym.blank)
     (OCRQueries.tesseract_with Sym.blank
        (Raise (LibraryError "too few characters"))
        (Ok {| OCRQueries.box_conf := [Conf 96; NotANumber "91.5"];
               OCRQueries.box_text := [str "Invoice"; str "42"];
               OCRQueries.box_left := [10; 120]%Z;
               OCRQueries.box_top := [10; 10]%Z;
               OCRQueries.box_width := [60; 20]%Z;
               OCRQueries.box_height := [12; 12]%Z |}))
     Sym.blank
  = Ok [].
Proof.
  refine (@get_text_regions_all_or_nothing (Sym.libs Sym.blank)
            (OCRQueries.tesseract_with Sym.blank
               (Raise (LibraryError "too few characters"))
               (Ok {| OCRQueries.box_conf := [Conf 96; NotANumber "91.5"];
                      OCRQueries.box_text := [str "Invoice"; str "42"];
                      OCRQueries.box_left := [10; 120]%Z;
                      OCRQueries.box_top := [10; 10]%Z;
                      OCRQueries.box_width := [60; 20]%Z;
                      OCRQueries.box_height := [12; 12]%Z |}))
            Sym.blank _ 1%nat eq_refl _ _).
  - simpl. lia.
  - eexists. vm_compute. reflexivity.
Defined.

(** ** Text extraction: malformed tables and unknown names *)

Lemma filter_tokens_raises (thr : Q) (texts : list text)
      (confs : list conf_cell) (raw : string) :
  In (NotANumber raw) confs ->
  forall i text_parts confidences,
    raises (filter_tokens thr texts i confs text_parts confidences).
Proof.
  induction confs as [| conf rest IH]; intros Hin i tp cs; [destruct Hin |].
  cbn [filter_tokens].
  destruct conf as [c | raw']; cbn [int_of_conf bind];
    [| eexists; reflexivity].
  assert (Hrest : In (NotANumber raw) rest).
  { destruct Hin as [H | H]; [discriminate H | exact H]. }
  destruct (Qltb thr (inject_Z c)); [| apply (IH Hrest)].
  destruct (nth_error texts i) as [t |]; [| eexists; reflexivity].
  destruct (truthy (strip t)); apply (IH Hrest).
Qed.

Lemma eqb_unknown (s known : string) (names : list string) :
  ~ In s names -> In known names -> String.eqb s known = false.
Proof.
  intros Hs Hk. apply String.eqb_neq. intros ->. exact (Hs Hk).
Qed.

Section Extraction.

Import OCRQueries.

Context {L : Libs}.

(** X13. Text extraction is all or nothing: when one confidence of the
    table Tesseract returned cannot be read as an integer, the result is
    the error dictionary, with empty text and confidence 0, whatever the
    other rows hold and whatever the threshold; the words recognized
    before that row are dropped. *)
Theorem extract_text_all_or_nothing :
  forall (im : image) (config_type language preprocessing : string)
         (confidence_threshold : Q) (data : tess_data) (raw : string),
    recognize im config_type language preprocessing = Ok data ->
    In (NotANumber raw) (data_conf data) ->
    exists e,
      extract_text im config_type language preprocessing confidence_threshold
      = Ok (error_result e)
      /\ raises (filter_tokens confidence_threshold (data_text data) 0
                               (data_conf data) [] []).
Proof.
  intros im c l p thr data raw Hrec Hin.
  destruct (filter_tokens_raises thr (data_text data) (data_conf data) raw
              Hin 0 [] []) as [e He].
  exists e. split; [| exists e; exact He].
  unfold extract_text, extract_steps. rewrite Hrec. cbn [bind].
  rewrite He. reflexivity.
Qed.

Lemma ocr_configs_unknown (c : string) :
  ~ In c config_names -> ocr_configs c = ocr_configs "default".
Proof.
  intros H. unfold ocr_configs.
  rewrite !(fun k Hk => eqb_unknown c k config_names H Hk);
    [reflexivity | | | |]; unfold config_names; cbn [In]; tauto.
Qed.

Lemma languages_unknown (l : string) :
  ~ In l language_names -> languages l = languages "english".
Proof.
  intros H. unfold languages.
  rewrite !(fun k Hk => eqb_unknown l k language_names H Hk);
    [reflexivity | | | | | |]; unfold language_names; cbn [In]; tauto.
Qed.

Lemma preprocess_unknown (a : ndarray) (p : string) :
  ~ In p preprocessing_names ->
  preprocess_image a p = preprocess_image a "default".
Proof.
  intros H. unfold preprocess_image, preprocess_steps.
  rewrite !(fun k Hk => eqb_unknown p k preprocessing_names H Hk);
    [reflexivity | | | |]; unfold preprocessing_names; cbn [In]; tauto.
Qed.

(** X14. Names that [extract_text] does not know are not rejected: an
    unknown configuration, language and preprocessing type make it run
    exactly the recognition of the defaults (page segmentation mode 6,
    English, the default preprocessing). Text, confidences and error are
    those of the defaults, while the result reports the names that were
    asked for as the ones used. *)
Theorem extract_text_unknown_names_fall_back :
  forall (im : image) (config_type language preprocessing : string)
         (confidence_threshold : Q),
    ~ In config_type config_names ->
    ~ In language language_names ->
    ~ In preprocessing preprocessing_names ->
    recognize im config_type language preprocessing
    = recognize im "default" "english" "default"
    /\ exists r d,
         extract_text im config_type language preprocessing
                      confidence_threshold = Ok r
         /\ extract_text im "default" "english" "default"
                         confidence_threshold = Ok d
         /\ result_text r = result_text d
         /\ confidence r = confidence d
         /\ word_confidences r = word_confidences d
         /\ error r = error d
         /\ (error d = None ->
             config_used r = Some config_type
             /\ language_used r = Some language
             /\ preprocessing_used r = Some preprocessing).
Proof.
  intros im c l p thr Hc Hl Hp.
  assert (Hrec : recognize im c l p = recognize im "default" "english" "default").
  { unfold recognize.
    destruct (np_array im) as [a |]; [| reflexivity]. cbn [bind].
    destruct (if (List.length (shape a) =? 3)%nat
              then cv2 (cvtColor COLOR_RGB2BGR) a else Ok a) as [a1 |];
      [| reflexivity].
    cbn [bind]. rewrite (preprocess_unknown a1 p Hp).
    rewrite (ocr_configs_unknown c Hc), (languages_unknown l Hl).
    reflexivity. }
  split; [exact Hrec |].
  unfold extract_text, extract_steps. rewrite Hrec.
  destruct (recognize im "default" "english" "default") as [data | e];
    cbn [bind try_except].
  - destruct (filter_tokens thr (data_text data) 0 (data_conf data) [] [])
      as [kept | e]; cbn [bind try_except].
    + eexists _, _. split; [reflexivity |]. split; [reflexivity |].
      cbn. repeat split; reflexivity.
    + eexists _, _. split; [reflexivity |]. split; [reflexivity |].
      cbn. repeat split; try reflexivity; discriminate.
  - eexists _, _. split; [reflexivity |]. split; [reflexivity |].
    cbn. repeat split; try reflexivity; discriminate.
Qed.

End Extraction.

Lemma extract_text_all_or_nothing_witness :
  exists e,
    @extract_text (Sym.libs Sym.blank)
       {| Sym.pic_shape := [100; 200]%Z; Sym.pic_lines := None;
          Sym.pic_string := Ok (str "Invoice 42");
          Sym.pic_data := Ok {| data_conf := [Conf 96; NotANumber "91.5"];
                                data_text := [str "Invoice"; str "42"] |};
          Sym.pic_ops := [] |}
       "default" "english" "default" 0
    = Ok (error_result e).
Proof.
  destruct (@extract_text_all_or_nothing (Sym.libs Sym.blank)
              {| Sym.pic_shape := [100; 200]%Z; Sym.pic_lines := None;
                 Sym.pic_string := Ok (str "Invoice 42");
                 Sym.pic_data :=
                   Ok {| data_conf := [Conf 96; NotANumber "91.5"];
                         data_text := [str "Invoice"; str "42"] |};
                 Sym.pic_ops := [] |}
              "default" "english" "default" 0
              {| data_conf := [Conf 96; NotANumber "91.5"];
                 data_text := [str "Invoice"; str "42"] |}
              "91.5" eq_refl ltac:(right; left; reflexivity))
    as [e [He _]].
  exists e. exact He.
Defined.

Lemma extract_text_unknown_names_fall_back_witness :
  @recognize (Sym.libs Sym.blank) (Sym.page_with [(90%Z, "Hello"%string)])
     "fast" "klingon" "sharpen"
  = @recognize (Sym.libs Sym.blank) (Sym.page_with [(90%Z, "Hello"%string)])
      "default" "english" "default".
Proof.
  refine (proj1 (@extract_text_unknown_names_fall_back (Sym.libs Sym.blank)
                   (Sym.page_with [(90%Z, "Hello"%string)])
                   "fast" "klingon" "sharpen" 0 _ _ _));
    cbn [OCRQueries.config_names OCRQueries.language_names
         OCRQueries.preprocessing_names In];
    intros H; repeat (destruct H as [H | H]; [discriminate H |]); exact H.
Defined.

(** ** Batches without a failing file *)

Section WholeBatch.

Context {L : Libs} {V : VectorStore}.

Variables (ocr_enabled : bool) (chunk_size chunk_overlap : Z).

Lemma process_each_all (files : list uploaded_file) (shown : list ui_event) :
  Forall (fun g => returns (process_file g ocr_enabled chunk_size chunk_overlap))
         files ->
  process_each ocr_enabled chunk_size chunk_overlap (List.length files) 0
               files [] shown
  = (shown ++ shown_for (List.length files) 0 files,
     Ok (flat_map (chunks_of ocr_enabled chunk_size chunk_overlap) files)).
Proof.
  intros Hall.
  pose proof (process_each_prefix ocr_enabled chunk_size chunk_overlap
                (List.length files) files [] Hall 0 [] shown) as E.
  rewrite app_nil_r in E. rewrite E. reflexivity.
Qed.

(** X15. A batch in which no file fails is ingested whole: the chunks of
    all files, in the order of the files, are handed to the index in one
    call, the session keeps the index returned, the names of all files are
    appended to the list of processed documents, and the page shows one
    status line and one progress step per file, then the completion
    messages with the number of files and the total number of chunks. *)
Theorem batch_without_failure_is_ingested :
  forall (s : session) (files : list uploaded_file) (vs : Chroma),
    Forall (fun g => returns (process_file g ocr_enabled chunk_size
                                           chunk_overlap)) files ->
    create_vectorstore
      (flat_map (chunks_of ocr_enabled chunk_size chunk_overlap) files)
    = Ok vs ->
    process_documents s files ocr_enabled chunk_size chunk_overlap
    = {| vectorstore := Some vs;
         processed_docs := processed_docs s ++ map name files;
         page := ((page s ++ [progress 0])
                  ++ shown_for (List.length files) 0 files
                  ++ [status_text "Creating vector database..."])
                 ++ [progress 1; status_text "Processing complete!";
                     st_success (List.length files)
                       (List.length
                          (flat_map (chunks_of ocr_enabled chunk_size
                                               chunk_overlap) files))] |}.
Proof.
  intros s files vs Hall Hvs. unfold process_documents.
  rewrite (process_each_all files _ Hall). rewrite Hvs.
  rewrite <- !app_assoc. reflexivity.
Qed.

(** X16. When every file of a batch is processed but the index cannot be
    built, the work on the files is lost: the session keeps the index and
    the list of processed documents it had, and the page ends with the
    error of the index after the status lines of all files. *)
Theorem index_failure_discards_batch :
  forall (s : session) (files : list uploaded_file) (e : exn),
    Forall (fun g => returns (process_file g ocr_enabled chunk_size
                                           chunk_overlap)) files ->
    create_vectorstore
      (flat_map (chunks_of ocr_enabled chunk_size chunk_overlap) files)
    = Raise e ->
    process_documents s files ocr_enabled chunk_size chunk_overlap
    = {| vectorstore := vectorstore s;
         processed_docs := processed_docs s;
         page := ((page s ++ [progress 0])
                  ++ shown_for (List.length files) 0 files
                  ++ [status_text "Creating vector database..."])
                 ++ [st_error ("Error processing documents: "
                               ++ str_of_exn e)%string] |}.
Proof.
  intros s files e Hall Hvs. unfold process_documents.
  rewrite (process_each_all files _ Hall). rewrite Hvs.
  rewrite <- !app_assoc. reflexivity.
Qed.

Lemma fraction_in_range (i n : nat) :
  (i < n)%nat -> (0 <= Z.of_nat (S i) # Pos.of_nat n <= 1)%Q.
Proof.
  intros H. unfold Qle. cbn [Qnum Qden].
  assert (Hn : Z.pos (Pos.of_nat n) = Z.of_nat n).
  { rewrite <- positive_nat_Z. rewrite Nat2Pos.id by lia. reflexivity. }
  rewrite Hn. lia.
Qed.

Lemma process_each_in_range (files : list uploaded_file) :
  forall (n i : nat) (all_documents : list Document) (shown : list ui_event),
    (i + List.length files = n)%nat ->
    exists more,
      fst (process_each ocr_enabled chunk_size chunk_overlap n i files
                        all_documents shown)
      = shown ++ more
      /\ Forall progress_in_range more.
Proof.
  induction files as [| file rest IH]; intros n i docs shown Hn.
  - exists []. cbn [process_each fst]. rewrite app_nil_r.
    split; [reflexivity | constructor].
  - cbn [process_each].
    destruct (process_file file ocr_enabled chunk_size chunk_overlap)
      as [documents | e].
    + cbn [List.length] in Hn.
      destruct (IH n (S i) (docs ++ documents)
                   ((shown ++ [status_text ("Processing " ++ name file
                                            ++ "...")%string])
                    ++ [progress (Z.of_nat (S i) # Pos.of_nat n)])
                   ltac:(lia)) as [more [E Hmore]].
      rewrite E. eexists (_ :: _ :: more).
      split; [rewrite <- !app_assoc; reflexivity |].
      constructor; [exact I |].
      constructor; [| exact Hmore].
      apply fraction_in_range. lia.
    + exists [status_text ("Processing " ++ name file ++ "...")%string].
      split; [reflexivity |]. constructor; [exact I | constructor].
Qed.

(** X17. Whatever the batch and whatever happens to it, every value the
    driver gives the progress bar is a fraction between 0 and 1, which is
    what the widget accepts; and the driver only adds to the page. *)
Theorem progress_stays_in_range :
  forall (s : session) (files : list uploaded_file),
    exists shown,
      page (process_documents s files ocr_enabled chunk_size chunk_overlap)
      = page s ++ shown
      /\ Forall progress_in_range shown.
Proof.
  intros s files. unfold process_documents.
  destruct (process_each_in_range files (List.length files) 0 []
              (page s ++ [progress 0]) eq_refl) as [more [E Hmore]].
  destruct (process_each ocr_enabled chunk_size chunk_overlap
              (List.length files) 0 files [] (page s ++ [progress 0]))
    as [shown r].
  cbn [fst] in E. subst shown.
  assert (H0 : progress_in_range (progress 0)).
  { cbn. split; unfold Qle; cbn; lia. }
  assert (H1 : progress_in_range (progress 1)).
  { cbn. split; unfold Qle; cbn; lia. }
  destruct r as [all_documents | e].
  - destruct (create_vectorstore all_documents) as [vs | e]; cbn [page].
    + eexists. split; [rewrite <- !app_assoc; reflexivity |].
      cbn [app]. constructor; [exact H0 |].
      apply Forall_app. split; [exact Hmore |].
      repeat (constructor; try exact I; try exact H1).
    + eexists. split; [rewrite <- !app_assoc; reflexivity |].
      cbn [app]. constructor; [exact H0 |].
      apply Forall_app. split; [exact Hmore |].
      repeat (constructor; try exact I).
  - cbn [page]. eexists. split; [rewrite <- !app_assoc; reflexivity |].
    cbn [app]. constructor; [exact H0 |].
    apply Forall_app. split; [exact Hmore |].
    repeat (constructor; try exact I).
Qed.

End WholeBatch.

Lemma batch_without_failure_is_ingested_witness :
  exists documents,
    @process_documents (Sym.libs Sym.blank) Sym.store
       {| vectorstore := None; processed_docs := ["old.txt"%string];
          page := [] |}
       [upload "notes.txt" (Sym.bytes_of "first file");
        upload "good.txt" (Sym.bytes_of "hello")]
       true 1000 200
    = {| vectorstore := Some documents;
         processed_docs := ["old.txt"; "notes.txt"; "good.txt"]%string;
         page := [progress 0;
                  status_text "Processing notes.txt..."; progress (1 # 2);
                  status_text "Processing good.txt..."; progress (2 # 2);
                  status_text "Creating vector database...";
                  progress 1; status_text "Processing complete!";
                  st_success 2 2] |}
    /\ map page_content documents = [str "first file"; str "hello"].
Proof.
  eexists. split.
  - refine (@batch_without_failure_is_ingested (Sym.libs Sym.blank) Sym.store
              true 1000 200
              {| vectorstore := None; processed_docs := ["old.txt"%string];
                 page := [] |}
              [upload "notes.txt" (Sym.bytes_of "first file");
               upload "good.txt" (Sym.bytes_of "hello")]
              _ _ _).
    + repeat constructor; eexists; vm_compute; reflexivity.
    + vm_compute. reflexivity.
  - vm_compute. reflexivity.
Defined.

Lemma index_failure_discards_batch_witness :
  @process_documents (Sym.libs Sym.blank)
     {| Chroma := unit;
        create_vectorstore := fun _ =>
          Raise (LibraryError "embedding model not available") |}
     {| vectorstore := None; processed_docs := []; page := [] |}
     [upload "notes.txt" (Sym.bytes_of "first file")]
     true 1000 200
  = {| vectorstore := None;
       processed_docs := [];
       page := [progress 0;
                status_text "Processing notes.txt..."; progress (1 # 1);
                status_text "Creating vector database...";
                st_error "Error processing documents: embedding model not available"] |}.
Proof.
  refine (@index_failure_discards_batch (Sym.libs Sym.blank)
            {| Chroma := unit;
               create_vectorstore := fun _ =>
                 Raise (LibraryError "embedding model not available") |}
            true 1000 200
            {| vectorstore := None; processed_docs := []; page := [] |}
            [upload "notes.txt" (Sym.bytes_of "first file")]
            (LibraryError "embedding model not available") _ eq_refl).
  repeat constructor; eexists; vm_compute; reflexivity.
Defined.

(** ** Questions *)

Section Questions.

Import OllamaClient VectorStoreManager Chat.

Context {H : Http} {S : Store}.

Lemma generate_returns (model : string) (prompt context : text)
      (kwargs : generation_kwargs) :
  returns (generate model prompt context kwargs).
Proof.
  unfold generate. apply try_except_returns.
  intros e. eexists. reflexivity.
Qed.

(** X18. A request that is not streamed never raises. When the server
    replies with status 200, [generate] returns the answer of the model,
    which is the value under [response] in the reply, and the empty text
    when the reply has no such value. Otherwise it returns the error as a
    text that starts with [Error generating response:], which for a reply
    with a status other than 200 names the status and the body. *)
Theorem generate_never_raises :
  forall (model : string) (prompt context : text) (kwargs : generation_kwargs),
    exists answer,
      generate model prompt context kwargs = Ok answer
      /\ (forall e,
             _generate_single (build_payload model prompt context kwargs)
             = Raise e ->
             answer = str ("Error generating response: " ++ str_of_exn e))
      /\ (forall r,
             post_generate (build_payload model prompt context kwargs) = Ok r ->
             (status_code r <> 200)%Z ->
             answer = str ("Error generating response: HTTP "
                           ++ Langchain.decimal (status_code r) ++ ": "
                           ++ response_text r))
      /\ (forall r value,
             post_generate (build_payload model prompt context kwargs) = Ok r ->
             status_code r = 200%Z ->
             json_response r = Ok (Some value) ->
             answer = value)
      /\ (forall r,
             post_generate (build_payload model prompt context kwargs) = Ok r ->
             status_code r = 200%Z ->
             json_response r = Ok None ->
             answer = []).
Proof.
  intros m q ctx kw. unfold generate.
  destruct (_generate_single (build_payload m q ctx kw)) as [a | e] eqn:E;
    cbn [try_except]; eexists; (split; [reflexivity |]).
  - split; [intros e He; discriminate He |]. split; [| split].
    + intros r Hr Hs. unfold _generate_single in E. rewrite Hr in E.
      cbn [bind] in E. apply Z.eqb_neq in Hs. rewrite Hs in E.
      discriminate E.
    + intros r value Hr Hs Hj. unfold _generate_single in E. rewrite Hr in E.
      cbn [bind] in E. rewrite Hs, Hj in E. cbn in E.
      injection E as <-. reflexivity.
    + intros r Hr Hs Hj. unfold _generate_single in E. rewrite Hr in E.
      cbn [bind] in E. rewrite Hs, Hj in E. cbn in E.
      injection E as <-. reflexivity.
  - split; [intros e' He; injection He as <-; reflexivity |].
    split; [| split].
    + intros r Hr Hs. unfold _generate_single in E. rewrite Hr in E.
      cbn [bind] in E. apply Z.eqb_neq in Hs. rewrite Hs in E.
      injection E as <-. reflexivity.
    + intros r value Hr Hs Hj. unfold _generate_single in E. rewrite Hr in E.
      cbn [bind] in E. rewrite Hs, Hj in E. discriminate E.
    + intros r Hr Hs Hj. unfold _generate_single in E. rewrite Hr in E.
      cbn [bind] in E. rewrite Hs, Hj in E. discriminate E.
Qed.

(** X19. A question is recorded in the chat history exactly when the
    search returns: the history then grows by one entry, which holds the
    question, the contents of the documents found joined by blank lines,
    the time and the model, and as the response whatever [generate]
    returned, an error text included; the page is not touched. When the
    search raises, the history is unchanged and the page shows the
    error. *)
Theorem question_is_recorded_when_search_returns :
  forall (s : chat_session) (q : text) (now : Q),
    (forall found,
        similarity_search q (max_results s) = Ok found ->
        exists reply,
          generate (current_model s) q
                   (join [10; 10]%N (map page_content found))
                   (generation_settings s) = Ok reply
          /\ chat_history (process_question s q now)
             = chat_history s
               ++ [{| question := q;
                      response := reply;
                      context := join [10; 10]%N (map page_content found);
                      timestamp := now;
                      entry_model := current_model s |}]
          /\ chat_page (process_question s q now) = chat_page s)
    /\ (forall e,
           similarity_search q (max_results s) = Raise e ->
           chat_history (process_question s q now) = chat_history s
           /\ chat_page (process_question s q now)
              = chat_page s
                ++ [st_error ("Error processing question: "
                              ++ str_of_exn e)%string]).
Proof.
  intros s q now. split.
  - intros found Hfound.
    destruct (generate_returns (current_model s) q
                (join [10; 10]%N (map page_content found))
                (generation_settings s)) as [reply Hreply].
    exists reply. split; [exact Hreply |].
    unfold process_question, answer. rewrite Hfound. cbn [bind].
    rewrite Hreply. cbn [bind]. split; reflexivity.
  - intros e He. unfold process_question, answer. rewrite He.
    cbn [bind]. split; reflexivity.
Qed.

Lemma load_vectorstore_unavailable :
  index_unavailable -> load_vectorstore = Ok None.
Proof.
  unfold index_unavailable, load_vectorstore.
  intros [Hp | [Hp [Hl | [[e Hl] | [e Hc]]]]]; rewrite Hp.
  - reflexivity.
  - rewrite Hl. reflexivity.
  - rewrite Hl. reflexivity.
  - destruct listdir as [[| entry entries] | e']; [reflexivity | | reflexivity].
    cbn [bind]. rewrite Hc. reflexivity.
Qed.

(** X20. When the persisted index cannot be loaded (its directory is
    missing or empty, or reading it raises), the search returns no
    document instead of failing, and the question is still put to the
    model: the prompt sent is the bare question, without the instruction
    to answer from the documents, and the entry recorded has an empty
    context. *)
Theorem question_without_index_is_asked_bare :
  forall (s : chat_session) (q : text) (now : Q),
    index_unavailable ->
    similarity_search q (max_results s) = Ok []
    /\ prompt (build_payload (current_model s) q [] (generation_settings s))
       = q
    /\ exists reply,
         generate (current_model s) q [] (generation_settings s) = Ok reply
         /\ process_question s q now
            = {| chat_history :=
                   chat_history s
                   ++ [{| question := q;
                          response := reply;
                          context := [];
                          timestamp := now;
                          entry_model := current_model s |}];
                 current_model := current_model s;
                 max_results := max_results s;
                 generation_settings := generation_settings s;
                 chat_page := chat_page s |}.
Proof.
  intros s q now Hun.
  assert (Hsearch : similarity_search q (max_results s) = Ok []).
  { unfold similarity_search.
    rewrite (load_vectorstore_unavailable Hun). reflexivity. }
  split; [exact Hsearch |]. split; [reflexivity |].
  destruct (generate_returns (current_model s) q []
              (generation_settings s)) as [reply Hreply].
  exists reply. split; [exact Hreply |].
  unfold process_question, answer. rewrite Hsearch. cbn [bind map join].
  rewrite Hreply. reflexivity.
Qed.

End Questions.

Lemma generate_never_raises_witness :
  @OllamaClient.generate
     (Chat.http_answering
        (Ok {| OllamaClient.status_code := 404;
               OllamaClient.response_text := "model not found";
               OllamaClient.json_response := Ok None |}))
     "llama3.1:8b" (str "What is the total?") []
     {| OllamaClient.kw_temperature := Some (1 # 10)%Q;
        OllamaClient.kw_top_p := Some (9 # 10)%Q;
        OllamaClient.kw_top_k := Some 40%Z;
        OllamaClient.kw_max_tokens := Some 1000%Z;
        OllamaClient.kw_stop := None |}
  = Ok (str "Error generating response: HTTP 404: model not found")
  /\ @OllamaClient.generate
       (Chat.http_answering
          (Ok {| OllamaClient.status_code := 200;
                 OllamaClient.response_text := "{...}";
                 OllamaClient.json_response := Ok (Some (str "The total is 42.")) |}))
       "llama3.1:8b" (str "What is the total?") (str "Total: 42")
       {| OllamaClient.kw_temperature := None;
          OllamaClient.kw_top_p := None;
          OllamaClient.kw_top_k := None;
          OllamaClient.kw_max_tokens := None;
          OllamaClient.kw_stop := None |}
     = Ok (str "The total is 42.").
Proof.
  split.
  - destruct (@generate_never_raises
                (Chat.http_answering
                   (Ok {| OllamaClient.status_code := 404;
                          OllamaClient.response_text := "model not found";
                          OllamaClient.json_response := Ok None |}))
                "llama3.1:8b" (str "What is the total?") []
                {| OllamaClient.kw_temperature := Some (1 # 10)%Q;
                   OllamaClient.kw_top_p := Some (9 # 10)%Q;
                   OllamaClient.kw_top_k := Some 40%Z;
                   OllamaClient.kw_max_tokens := Some 1000%Z;
                   OllamaClient.kw_stop := None |})
      as [reply [Hreply [_ [Hstatus _]]]].
    rewrite Hreply. f_equal.
    exact (Hstatus _ eq_refl ltac:(discriminate)).
  - destruct (@generate_never_raises
                (Chat.http_answering
                   (Ok {| OllamaClient.status_code := 200;
                          OllamaClient.response_text := "{...}";
                          OllamaClient.json_response :=
                            Ok (Some (str "The total is 42.")) |}))
                "llama3.1:8b" (str "What is the total?") (str "Total: 42")
                {| OllamaClient.kw_temperature := None;
                   OllamaClient.kw_top_p := None;
                   OllamaClient.kw_top_k := None;
                   OllamaClient.kw_max_tokens := None;
                   OllamaClient.kw_stop := None |})
      as [reply [Hreply [_ [_ [Hvalue _]]]]].
    rewrite Hreply. f_equal.
    exact (Hvalue _ _ eq_refl eq_refl eq_refl).
Defined.

Lemma question_is_recorded_when_search_returns_witness :
  exists reply,
    Chat.chat_history
      (@Chat.process_question
         (Chat.http_answering (Raise (LibraryError "Connection refused")))
         (Chat.store_with true (Ok ["chroma.sqlite3"%string])
            (Ok [{| page_content := str "Total: 42"; filename := "bill.txt";
                    file_type := "txt"; chunk_id := 0; total_chunks := 1;
                    ocr_enabled := true |}]))
         {| Chat.chat_history := [];
            Chat.current_model := "llama3.1:8b";
            Chat.max_results := 3;
            Chat.generation_settings :=
              {| OllamaClient.kw_temperature := Some (1 # 10)%Q;
                 OllamaClient.kw_top_p := Some (9 # 10)%Q;
                 OllamaClient.kw_top_k := Some 40%Z;
                 OllamaClient.kw_max_tokens := Some 1000%Z;
                 OllamaClient.kw_stop := None |};
            Chat.chat_page := [] |}
         (str "What is the total?") 1700000000)
    = [{| Chat.question := str "What is the total?";
          Chat.response := reply;
          Chat.context := str "Total: 42";
          Chat.timestamp := 1700000000;
          Chat.entry_model := "llama3.1:8b" |}]
    /\ reply = str "Error generating response: Connection refused".
Proof.
  destruct (proj1 (@question_is_recorded_when_search_returns
              (Chat.http_answering (Raise (LibraryError "Connection refused")))
              (Chat.store_with true (Ok ["chroma.sqlite3"%string])
                 (Ok [{| page_content := str "Total: 42";
                         filename := "bill.txt";
                         file_type := "txt"; chunk_id := 0; total_chunks := 1;
                         ocr_enabled := true |}]))
              {| Chat.chat_history := [];
                 Chat.current_model := "llama3.1:8b";
                 Chat.max_results := 3;
                 Chat.generation_settings :=
                   {| OllamaClient.kw_temperature := Some (1 # 10)%Q;
                      OllamaClient.kw_top_p := Some (9 # 10)%Q;
                      OllamaClient.kw_top_k := Some 40%Z;
                      OllamaClient.kw_max_tokens := Some 1000%Z;
                      OllamaClient.kw_stop := None |};
                 Chat.chat_page := [] |}
              (str "What is the total?") 1700000000) _ eq_refl)
    as [reply [Hreply [Hhistory _]]].
  exists reply. split; [exact Hhistory |].
  vm_compute in Hreply. injection Hreply as <-. reflexivity.
Defined.

Lemma question_without_index_is_asked_bare_witness :
  @VectorStoreManager.similarity_search
     (Chat.store_with false (Raise (LibraryError "No such file or directory"))
        (Ok []))
     (str "What is the total?") 3
  = Ok []
  /\ OllamaClient.prompt
       (OllamaClient.build_payload "llama3.1:8b" (str "What is the total?") []
          {| OllamaClient.kw_temperature := None;
             OllamaClient.kw_top_p := None;
             OllamaClient.kw_top_k := None;
             OllamaClient.kw_max_tokens := None;
             OllamaClient.kw_stop := None |})
     = str "What is the total?".
Proof.
  destruct (@question_without_index_is_asked_bare
              (Chat.http_answering (Raise (LibraryError "Connection refused")))
              (Chat.store_with false
                 (Raise (LibraryError "No such file or directory")) (Ok []))
              {| Chat.chat_history := [];
                 Chat.current_model := "llama3.1:8b";
                 Chat.max_results := 3;
                 Chat.generation_settings :=
                   {| OllamaClient.kw_temperature := None;
                      OllamaClient.kw_top_p := None;
                      OllamaClient.kw_top_k := None;
                      OllamaClient.kw_max_tokens := None;
                      OllamaClient.kw_stop := None |};
                 Chat.chat_page := [] |}
              (str "What is the total?") 1700000000
              (or_introl eq_refl))
    as [Hsearch [Hprompt _]].
  split; [exact Hsearch | exact Hprompt].
Defined.

(** ** Starting the application *)

(** X21. The application script cannot get past its own imports. The
    components package loads, every annotation of its five modules being
    bound; the first import from the utils package then runs the package's
    [__init__], which imports the OCR module and stops with [NameError] on
    [List]. The script stops there: the vector store manager, whose own
    module would load, is never imported, and the class of the
    application, defined further down, is never reached. *)
Theorem application_stops_at_utils_import :
  Startup.components_init
  = Ok ["DocumentProcessor"; "OllamaClient"; "ModelManager"; "ChatInterface";
        "SystemMonitor"]%string
  /\ Startup.from_package_import Startup.components_init Startup.monitoring
       ["SystemMonitor"]%string
     = Ok ["SystemMonitor"]%string
  /\ Startup.from_package_import utils_init file_handler
       ["FileHandler"]%string
     = Raise (NameError "List")
  /\ Startup.app_imports = Raise (NameError "List")
  /\ from_import Startup.vector_store ["VectorStoreManager"]%string
     = Ok ["VectorStoreManager"]%string.
Proof.
  repeat split; vm_compute; reflexivity.
Qed.

(** ** Why a file fails *)

Section Failures.

Context {L : Libs}.

(** X22. With a chunk size of at least 1 and an overlap between 0 and the
    chunk size (the sliders of the page allow nothing else), chunking
    never fails, so that [process_file] fails for three reasons only: the
    extension is not supported; the handler of the format raises, and its
    exception is passed on unchanged; or the handler returns a text
    without anything but whitespace. In every other case it returns
    documents. *)
Theorem process_file_fails_for_three_reasons :
  forall (f : uploaded_file) (ocr_enabled : bool)
         (chunk_size chunk_overlap : Z),
    (1 <= chunk_size)%Z ->
    (0 <= chunk_overlap <= chunk_size)%Z ->
    (supported_formats (file_extension f) = None
     /\ process_file f ocr_enabled chunk_size chunk_overlap
        = Raise (ValueError ("Unsupported file format: "
                             ++ file_extension f)%string))
    \/ (exists processor,
           supported_formats (file_extension f) = Some processor
           /\ ((exists e,
                   processor f ocr_enabled = Raise e
                   /\ process_file f ocr_enabled chunk_size chunk_overlap
                      = Raise e)
               \/ (exists text_content,
                      processor f ocr_enabled = Ok text_content
                      /\ blank text_content
                      /\ process_file f ocr_enabled chunk_size chunk_overlap
                         = Raise (ValueError
                                    "No text content extracted from file"))
               \/ (exists text_content documents,
                      processor f ocr_enabled = Ok text_content
                      /\ ~ blank text_content
                      /\ process_file f ocr_enabled chunk_size chunk_overlap
                         = Ok documents))).
Proof.
  intros f ocr S O HS HO. unfold process_file.
  destruct (supported_formats (file_extension f)) as [processor |];
    [right | left; split; reflexivity].
  exists processor. split; [reflexivity |].
  destruct (processor f ocr) as [text_content | e]; cbn [bind try_except].
  - right.
    destruct (strip text_content) as [| c s] eqn:Hs; cbn [truthy negb].
    + left. exists text_content.
      split; [reflexivity | split; [exact Hs | reflexivity]].
    + right.
      destruct (split_text_rec_within S O HS (proj1 HO) separators eq_refl
                  text_content) as [chunks [Hsplit _]].
      unfold split_text.
      destruct (Z.gtb_spec O S) as [Hgt | _]; [lia |].
      rewrite Hsplit. cbn [bind].
      eexists text_content, _. split; [reflexivity |].
      split; [unfold blank; rewrite Hs; discriminate | reflexivity].
  - left. exists e. split; reflexivity.
Qed.

End Failures.

Lemma process_file_fails_for_three_reasons_witness :
  exists documents,
    @process_file (Sym.libs Sym.blank)
       (upload "notes.txt" (Sym.bytes_of "first file")) true 500 500
    = Ok documents.
Proof.
  destruct (@process_file_fails_for_three_reasons (Sym.libs Sym.blank)
              (upload "notes.txt" (Sym.bytes_of "first file")) true 500 500
              ltac:(lia) ltac:(lia))
    as [[Hnone _] | [processor [_ [[e [_ He]] | [[t [_ [_ Hb]]]
                                               | [t [documents [_ [_ Hd]]]]]]]]].
  - vm_compute in Hnone. discriminate Hnone.
  - vm_compute in He. discriminate He.
  - vm_compute in Hb. discriminate Hb.
  - exists documents. exact Hd.
Defined.
